(** * Img2JXL: the batch converter [convert_to_jxl.py], embedded and verified

    The embedding follows the Python source function by function.  Code that
    touches the outside world (the filesystem, the [cjxl] subprocess, the
    clock, the terminal) is written in a small program monad [Prog] whose
    effects are answered by a handler; the theorems about [convert_image],
    [convert_all] and [delete_originals] are stated for an
    arbitrary handler, and a concrete POSIX-like world is supplied for
    discovery and for running the programs on explicit inputs. *)

From Stdlib Require Import ZArith QArith String Ascii List DecimalString Lia.
From stdpp Require Import base list strings gmap.

Local Open Scope Z_scope.

(** ** Python strings *)

Module PyStr.

(** [str.lower] on the ASCII range; bytes of UTF-8 multi-byte sequences are
    left as they are. *)
Definition lower_char (c : ascii) : ascii :=
  let n := N_of_ascii c in
  if ((65 <=? n) && (n <=? 90))%N then ascii_of_N (n + 32) else c.

Fixpoint lower (s : string) : string :=
  match s with
  | EmptyString => EmptyString
  | String c s' => String (lower_char c) (lower s')
  end.

(** The characters [str.strip] removes are those of [str.isspace]:
    U+0009..U+000D, U+001C..U+0020, U+0085, U+00A0, U+1680, U+2000..U+200A,
    U+2028, U+2029, U+202F, U+205F and U+3000.  A [str] is held as its UTF-8
    text, in which they are these sequences of one, two and three bytes. *)
Definition byte (n : N) : ascii := ascii_of_N n.

Definition one_of (c : ascii) (codes : list N) : bool :=
  existsb (fun n => Ascii.eqb c (byte n)) codes.

Definition is_space (c : ascii) : bool :=
  one_of c [9; 10; 11; 12; 13; 28; 29; 30; 31; 32]%N.

Definition is_space2 (c1 c2 : ascii) : bool :=
  one_of c1 [194]%N && one_of c2 [133; 160]%N.

Definition is_space3 (c1 c2 c3 : ascii) : bool :=
  (one_of c1 [225]%N && one_of c2 [154]%N && one_of c3 [128]%N)
  || (one_of c1 [226]%N && one_of c2 [128]%N
      && one_of c3 [128; 129; 130; 131; 132; 133; 134; 135; 136; 137; 138;
                    168; 169; 175]%N)
  || (one_of c1 [226]%N && one_of c2 [129]%N && one_of c3 [159]%N)
  || (one_of c1 [227]%N && one_of c2 [128]%N && one_of c3 [128]%N).

(** The text without the spaces at its front.  With [backwards] the text
    is read from its end, the bytes of a character coming last first. *)
Fixpoint strip_front (backwards : bool) (s : string) : string :=
  match s with
  | EmptyString => EmptyString
  | String c1 s1 =>
      if is_space c1 then strip_front backwards s1
      else
        match s1 with
        | EmptyString => s
        | String c2 s2 =>
            if (if backwards then is_space2 c2 c1 else is_space2 c1 c2)
            then strip_front backwards s2
            else
              match s2 with
              | EmptyString => s
              | String c3 s3 =>
                  if (if backwards then is_space3 c3 c2 c1 else is_space3 c1 c2 c3)
                  then strip_front backwards s3
                  else s
              end
        end
  end.

Fixpoint reverse_onto (s acc : string) : string :=
  match s with
  | EmptyString => acc
  | String c s' => reverse_onto s' (String c acc)
  end.

Definition reverse (s : string) : string := reverse_onto s EmptyString.

Definition lstrip (s : string) : string := strip_front false s.

Definition rstrip (s : string) : string := reverse (strip_front true (reverse s)).

Definition strip (s : string) : string := rstrip (lstrip s).

(** Truthiness of a string and the [or] of two strings. *)
Definition truthy (s : string) : bool :=
  match s with EmptyString => false | _ => true end.

Definition or_ (a b : string) : string := if truthy a then a else b.

(** [s.rfind(c)], with [None] for Python's -1. *)
Fixpoint rfind (c : ascii) (s : string) : option nat :=
  match s with
  | EmptyString => None
  | String x s' =>
      match rfind c s' with
      | Some i => Some (S i)
      | None => if Ascii.eqb x c then Some 0%nat else None
      end
  end.

(** [s[n:]] and [s[:n]] for [0 <= n]. *)
Fixpoint drop (n : nat) (s : string) : string :=
  match n, s with
  | O, _ => s
  | S n', String _ s' => drop n' s'
  | S _, EmptyString => EmptyString
  end.

Fixpoint take (n : nat) (s : string) : string :=
  match n, s with
  | O, _ => EmptyString
  | S n', String c s' => String c (take n' s')
  | S _, EmptyString => EmptyString
  end.

(** [c in s] for a character. *)
Fixpoint contains (c : ascii) (s : string) : bool :=
  match s with
  | EmptyString => false
  | String x s' => Ascii.eqb x c || contains c s'
  end.

(** [str(n)] for an integer. *)
Definition of_Z (n : Z) : string := NilZero.string_of_int (Z.to_int n).

End PyStr.

(** ** pathlib *)

(** Exceptions derived from [Exception]: the timeout of [subprocess.run], and
    every other one, of which only the text [str(e)] is observed. *)
Inductive Error : Type :=
| TimeoutExpired
| OtherError (text : string).

(** What a Python computation can raise: an [Exception], or [SystemExit]
    from [sys.exit], which [except Exception] does not catch. *)
Inductive Exn : Type :=
| Exc (e : Error)
| SystemExit (code : Z).

(** [str(e)] *)
Definition str_of_error (e : Error) : string :=
  match e with
  | TimeoutExpired => "Command timed out"
  | OtherError text => text
  end.

Inductive Result (A : Type) : Type :=
| Ok (a : A)
| Err (e : Error).
Arguments Ok {A} a.
Arguments Err {A} e.

(** A path, relative to the working directory, is the list of its
    components; [str] joins them with the separator. *)
Definition Path : Type := list string.

Module PurePath.

Definition sep : ascii := "/"%char.

(** [path.name]: the last component, [''] when there is none. *)
Definition name (p : Path) : string := List.last p "".

(** [path / file]. *)
Definition div (p : Path) (file : string) : Path := p ++ [file].

(** [str(path)]. *)
Definition str (p : Path) : string :=
  match p with
  | [] => "."
  | _ => String.concat "/" p
  end.

(** [suffix] of a file name: from the last dot on, when that dot is neither
    the first nor the last character. *)
Definition suffix_of_name (nm : string) : string :=
  match PyStr.rfind "."%char nm with
  | Some i =>
      if ((0 <? i) && (i <? String.length nm - 1))%nat
      then PyStr.drop i nm else ""
  | None => ""
  end.

Definition suffix (p : Path) : string := suffix_of_name (name p).

(** [path.with_suffix(suffix)]; the three [ValueError]s of pathlib. *)
Definition with_suffix (p : Path) (sfx : string) : Result Path :=
  if PyStr.contains sep sfx then Err (OtherError ("Invalid suffix " +:+ sfx))
  else if (PyStr.truthy sfx && negb (String.prefix "." sfx)) || String.eqb sfx "."
  then Err (OtherError ("Invalid suffix " +:+ sfx))
  else
    let nm := name p in
    if negb (PyStr.truthy nm) then Err (OtherError (str p +:+ " has an empty name"))
    else
      let old_suffix := suffix p in
      let nm' :=
        if negb (PyStr.truthy old_suffix) then nm +:+ sfx
        else PyStr.take (String.length nm - String.length old_suffix) nm +:+ sfx in
      Ok (removelast p ++ [nm']).

End PurePath.

(** ** Console output

    One constructor per [print] of the source; numbers that the source formats
    are kept as numbers. *)
Inductive Msg : Type :=
| MsgNoCjxl
| MsgNoImages
| MsgFound (n : nat)
| MsgWorkers (max_workers : Z)
| MsgEffort (effort : Z)
| MsgConverted (completed total : nat) (name : string)
    (original_size new_size ratio : Q) (remaining : Z)
| MsgFailed (completed total : nat) (name : string) (error : string)
| MsgSkipped (completed total : nat) (name : string) (error : string)
| MsgRule
| MsgDone (total_time : Q)
| MsgSuccessCount (n : nat)
| MsgFailCount (n : nat)
| MsgAvgSpeed (seconds : Q)
| MsgTotalSize (total_original total_new ratio : Q)
| MsgSaved (saved : Q)
| MsgNothingToDelete
| MsgAboutToDelete (n : nat)
| MsgDeleted (original : Path)
| MsgDeleteFailed (original : Path) (error : string)
| MsgDeleteSummary (deleted failed : nat).

(** ** Effects and programs *)

(** [subprocess.CompletedProcess] with captured text output. *)
Record CompletedProcess : Type := {
  returncode : Z;
  stdout : string;
  stderr : string
}.

Definition WalkEntry : Type := (Path * list string * list string)%type.

(** The calls into the Python library that reach the outside world, indexed
    by the type of their answer: the calls that can raise answer with a
    [Result].  [print] is two effects.  A line that carries text from
    outside the program (a file name, a path, the text of an error) is
    [PrintText]: standard output can refuse it, with [UnicodeEncodeError]
    when its encoding has no code for a character of the text, and nothing
    of the line is shown then.  The lines with such text are also the only
    ones with the marks of success and failure.  A line of the program's own
    words and numbers is [Print], taken not to fail, as is [time.time]. *)
Inductive Eff : Type -> Type :=
| ShutilWhich (cmd : string) : Eff (option string)
| OsWalk (top : Path) (onerror : option (Error -> Result unit)) :
    Eff (Result (list WalkEntry))
| PathExists (p : Path) : Eff (Result bool)
| PathStatSize (p : Path) : Eff (Result N)
| PathUnlink (p : Path) : Eff (Result unit)
| SubprocessRun (cmd : list string) (capture_output text : bool) (timeout : Z) :
    Eff (Result CompletedProcess)
| TimeTime : Eff Q
| Print (m : Msg) : Eff unit
| PrintText (m : Msg) : Eff (Result unit).

Inductive Prog (R : Type) : Type :=
| Ret (r : R)
| Raise (e : Exn)
| Vis {X : Type} (e : Eff X) (k : X -> Prog R).
Arguments Ret {R} r.
Arguments Raise {R} e.
Arguments Vis {R X} e k.

Fixpoint bind {A B : Type} (p : Prog A) (f : A -> Prog B) : Prog B :=
  match p with
  | Ret a => f a
  | Raise e => Raise e
  | Vis e k => Vis e (fun x => bind (k x) f)
  end.

Notation "'let!' x ':=' p 'in' q" := (bind p (fun x => q))
  (at level 10, x pattern, p at level 100, q at level 200).

(** [try: p except Exception as e: h e]; [SystemExit] passes through. *)
Fixpoint try_except {R : Type} (p : Prog R) (h : Error -> Prog R) : Prog R :=
  match p with
  | Ret r => Ret r
  | Raise (Exc e) => h e
  | Raise (SystemExit c) => Raise (SystemExit c)
  | Vis e k => Vis e (fun x => try_except (k x) h)
  end.

Definition lift {A : Type} (r : Result A) : Prog A :=
  match r with
  | Ok a => Ret a
  | Err e => Raise (Exc e)
  end.

(** A call that cannot raise, and one that can. *)
Definition perform {X : Type} (e : Eff X) : Prog X := Vis e Ret.
Definition attempt {A : Type} (e : Eff (Result A)) : Prog A := Vis e lift.

Definition print (m : Msg) : Prog unit := perform (Print m).
Definition print_text (m : Msg) : Prog unit := attempt (PrintText m).

Definition sys_exit {R : Type} (code : Z) : Prog R := Raise (SystemExit code).

(** A [for] loop over a list, threading the loop's variables. *)
Fixpoint for_each {A S : Type} (l : list A) (body : A -> S -> Prog S) (s : S) : Prog S :=
  match l with
  | [] => Ret s
  | a :: l' => let! s' := body a s in for_each l' body s'
  end.

(** What a run ends with. *)
Inductive Outcome (R : Type) : Type :=
| Returned (r : R)
| Raised (e : Exn).
Arguments Returned {R} r.
Arguments Raised {R} e.

(** One effect as it happened: the call and its answer. *)
Inductive Event : Type :=
| Ev {X : Type} (e : Eff X) (x : X).

(** A handler answers every effect in a world and gives the world after. *)
Definition Handler (W : Type) : Type := forall X : Type, Eff X -> W -> X * W.

Section Exec.

Context {W : Type}.
Variable h : Handler W.

Fixpoint exec {R : Type} (p : Prog R) (w : W) : Outcome R * W :=
  match p with
  | Ret r => (Returned r, w)
  | Raise e => (Raised e, w)
  | Vis e k => exec (k (h _ e w).1) (h _ e w).2
  end.

Fixpoint trace {R : Type} (p : Prog R) (w : W) : list Event :=
  match p with
  | Ret _ => []
  | Raise _ => []
  | Vis e k => Ev e (h _ e w).1 :: trace (k (h _ e w).1) (h _ e w).2
  end.

End Exec.

(** The command lines of the subprocesses started, the paths whose deletion
    was attempted, and the lines printed, in a trace. *)
Definition spawned_of (ev : Event) : list (list string) :=
  match ev with
  | Ev (SubprocessRun cmd _ _ _) _ => [cmd]
  | Ev _ _ => []
  end.

Definition unlinked_of (ev : Event) : list Path :=
  match ev with
  | Ev (PathUnlink p) _ => [p]
  | Ev _ _ => []
  end.

Definition printed_of (ev : Event) : list Msg :=
  match ev with
  | Ev (Print m) _ => [m]
  | Ev (PrintText m) (Ok _) => [m]
  | Ev _ _ => []
  end.

(** The lines that standard output refused. *)
Definition refused_of (ev : Event) : list Msg :=
  match ev with
  | Ev (PrintText m) (Err _) => [m]
  | Ev _ _ => []
  end.

Definition spawned (t : list Event) : list (list string) := flat_map spawned_of t.
Definition unlinked (t : list Event) : list Path := flat_map unlinked_of t.
Definition printed (t : list Event) : list Msg := flat_map printed_of t.
Definition refused (t : list Event) : list Msg := flat_map refused_of t.

(** ** The converter *)

(** [SUPPORTED_FORMATS] *)
Definition SUPPORTED_FORMATS : gset string :=
  {[ ".jpg"; ".jpeg"; ".png"; ".bmp"; ".gif"; ".tiff"; ".tif"; ".webp" ]}.

(** The converter object.  [converted_files] holds what the loop appends:
    the original and the [new_path] of the result tuple, which is [None] in
    the failure tuples. *)
Record ImageConverter : Type := {
  root_dir : Path;
  max_workers : Z;
  effort : Z;
  converted_files : list (Path * option Path);
  failed_files : list (Path * string)
}.

(** The result tuple of [convert_image]:
    (success, original path, new path, error text). *)
Definition ConvResult : Type := (bool * Path * option Path * string)%type.

Definition skip_message : string := "目标文件已存在".
Definition failure_message : string := "转换失败".
Definition timeout_message : string := "转换超时".

(** [ImageConverter.__init__] *)
Definition init (root : Path) (workers : Z) (effort_arg : Z) : Prog ImageConverter :=
  let self := {| root_dir := root;
                 max_workers := workers;
                 effort := Z.min (Z.max effort_arg 1) 9;
                 converted_files := [];
                 failed_files := [] |} in
  let! found := perform (ShutilWhich "cjxl") in
  match found with
  | Some _ => Ret self
  | None => let! _ := print MsgNoCjxl in sys_exit 1
  end.

(** The two inner loops of [find_images] (lines 43-46) over what [os.walk]
    yields. *)
Definition supported (file_path : Path) : bool :=
  bool_decide (PyStr.lower (PurePath.suffix file_path) ∈ SUPPORTED_FORMATS).

Definition select_images (listing : list WalkEntry) : list Path :=
  flat_map
    (fun '(root, dirs, files) =>
       flat_map
         (fun file =>
            let file_path := PurePath.div root file in
            if supported file_path then [file_path] else [])
         files)
    listing.

(** [find_images] *)
Definition find_images (self : ImageConverter) : Prog (list Path) :=
  let! listing := attempt (OsWalk (root_dir self) None) in
  Ret (select_images listing).

(** The command line built by [convert_image]. *)
Definition cjxl_command (self : ImageConverter) (image_path output_path : Path) : list string :=
  [ "cjxl";
    PurePath.str image_path;
    PurePath.str output_path;
    "-d"; "0";
    "-e"; PyStr.of_Z (effort self);
    "--num_threads=1" ].

(** [result.stderr.strip() or result.stdout.strip() or "转换失败"] *)
Definition error_msg_of (result : CompletedProcess) : string :=
  PyStr.or_ (PyStr.strip (stderr result))
            (PyStr.or_ (PyStr.strip (stdout result)) failure_message).

(** The result tuple of the two [except] clauses of [convert_image]. *)
Definition failed_with (image_path : Path) (e : Error) : ConvResult :=
  (false, image_path, None,
   match e with TimeoutExpired => timeout_message | OtherError text => text end).

(** [convert_image] *)
Definition convert_image (self : ImageConverter) (image_path : Path) : Prog ConvResult :=
  try_except
    (let! output_path := lift (PurePath.with_suffix image_path ".jxl") in
     let! already := attempt (PathExists output_path) in
     if already : bool then Ret (false, image_path, Some output_path, skip_message)
     else
       let cmd := cjxl_command self image_path output_path in
       let! result := attempt (SubprocessRun cmd true true 300) in
       let! ok := (if returncode result =? 0
              then attempt (PathExists output_path) else Ret false) in
       if ok : bool then Ret (true, image_path, Some output_path, "")
       else Ret (false, image_path, None, error_msg_of result))
    (fun e =>
       match e with
       | TimeoutExpired => Ret (false, image_path, None, timeout_message)
       | OtherError text => Ret (false, image_path, None, text)
       end).

(** The answer of an event when it is an exception. *)
Definition raised_by (ev : Event) : option Error :=
  match ev with
  | Ev (OsWalk _ _) (Err e) => Some e
  | Ev (PathExists _) (Err e) => Some e
  | Ev (PathStatSize _) (Err e) => Some e
  | Ev (PathUnlink _) (Err e) => Some e
  | Ev (SubprocessRun _ _ _ _) (Err e) => Some e
  | Ev (PrintText _) (Err e) => Some e
  | Ev _ _ => None
  end.

Definition raising (ev : Event) : Prop := exists e : Error, raised_by ev = Some e.

(** ** Reporting arithmetic

    Python floats are idealised as rationals; [/] raises on a zero divisor. *)

Definition truediv (a b : Q) : Result Q :=
  if Qeq_bool b 0 then Err (OtherError "division by zero") else Ok (a / b)%Q.

Definition Qpositive (q : Q) : bool := negb (Qle_bool q 0).

(** [(new / original * 100) if original > 0 else 0], the expression of lines
    126 and 147. *)
Definition ratio_of (new original : Q) : Result Q :=
  if Qpositive original
  then match truediv new original with
       | Ok q => Ok (q * 100)%Q
       | Err e => Err e
       end
  else Ok 0%Q.

(** [int(x)]: truncation towards zero. *)
Definition int_of_Q (q : Q) : Z := Z.quot (Qnum q) (Zpos (Qden q)).

(** [size / 1024 / 1024] *)
Definition mebibytes (size : Q) : Q := (size / 1024 / 1024)%Q.

Definition Q_of_N (n : N) : Q := inject_Z (Z.of_N n).
Definition Q_of_nat (n : nat) : Q := inject_Z (Z.of_nat n).

(** [p.stat().st_size] for a [new_path] that may be [None]. *)
Definition stat_size (p : option Path) : Prog N :=
  match p with
  | Some q => attempt (PathStatSize q)
  | None => Raise (Exc (OtherError "'NoneType' object has no attribute 'stat'"))
  end.

(** ** [convert_all] *)

(** The body of the [as_completed] loop (lines 113-133) for one future
    result; the loop's variables are the converter and [completed]. *)
Definition loop_body (total : nat) (start_time : Q) (future_result : ConvResult)
    (vars : ImageConverter * nat) : Prog (ImageConverter * nat) :=
  let '(self, completed) := vars in
  let completed := S completed in
  let '(success, original, new_path, error) := future_result in
  let! now := perform TimeTime in
  let elapsed := (now - start_time)%Q in
  let! avg_time := lift (truediv elapsed (Q_of_nat completed)) in
  let remaining := (inject_Z (Z.of_nat total - Z.of_nat completed) * avg_time)%Q in
  if success : bool then
    let self := {| root_dir := root_dir self;
                   max_workers := max_workers self;
                   effort := effort self;
                   converted_files := converted_files self ++ [(original, new_path)];
                   failed_files := failed_files self |} in
    let! original_bytes := attempt (PathStatSize original) in
    let original_size := mebibytes (Q_of_N original_bytes) in
    let! new_bytes := stat_size new_path in
    let new_size := mebibytes (Q_of_N new_bytes) in
    let! ratio := lift (ratio_of new_size original_size) in
    let! _ := print_text (MsgConverted completed total (PurePath.name original)
                            original_size new_size ratio (int_of_Q remaining)) in
    Ret (self, completed)
  else
    let self := {| root_dir := root_dir self;
                   max_workers := max_workers self;
                   effort := effort self;
                   converted_files := converted_files self;
                   failed_files := failed_files self ++ [(original, error)] |} in
    let! _ := (if negb (String.eqb error skip_message)
               then print_text (MsgFailed completed total (PurePath.name original) error)
               else print_text (MsgSkipped completed total (PurePath.name original)
                                  error)) in
    Ret (self, completed).

(** [sum(f(x).stat().st_size for x in files)] *)
Definition sum_sizes {A : Type} (f : A -> option Path) (files : list A) : Prog N :=
  for_each files (fun x acc => let! sz := stat_size (f x) in Ret (acc + sz)%N) 0%N.

(** Lines 142-150: the body of [if self.converted_files:]. *)
Definition size_report (self : ImageConverter) (total_time : Q) : Prog unit :=
  let! avg := lift (truediv total_time (Q_of_nat (length (converted_files self)))) in
  let! _ := print (MsgAvgSpeed avg) in
  let! total_original := sum_sizes (fun f => Some f.1) (converted_files self) in
  let! total_new := sum_sizes (fun f => f.2) (converted_files self) in
  let! ratio := lift (ratio_of (Q_of_N total_new) (Q_of_N total_original)) in
  let saved := mebibytes (Q_of_N total_original - Q_of_N total_new) in
  let! _ := print (MsgTotalSize (mebibytes (Q_of_N total_original))
                     (mebibytes (Q_of_N total_new)) ratio) in
  print (MsgSaved saved).

(** Lines 136-151: the statistics printed after the pool has shut down. *)
Definition summary (self : ImageConverter) (start_time : Q) : Prog unit :=
  let! now := perform TimeTime in
  let total_time := (now - start_time)%Q in
  let! _ := print MsgRule in
  let! _ := print (MsgDone total_time) in
  let! _ := print (MsgSuccessCount (length (converted_files self))) in
  let! _ := print (MsgFailCount (length (failed_files self))) in
  let! _ :=
    match converted_files self with
    | [] => Ret tt
    | _ :: _ => size_report self total_time
    end in
  print MsgRule.

(** Lines 96-107: discovery and the header, up to [start_time].  [None] is
    the early return when nothing was found. *)
Definition prologue (self : ImageConverter) : Prog (option (list Path * Q)) :=
  let! images := find_images self in
  match images with
  | [] => let! _ := print MsgNoImages in Ret None
  | _ :: _ =>
      let! _ := print (MsgFound (length images)) in
      let! _ := print (MsgWorkers (max_workers self)) in
      let! _ := print (MsgEffort (effort self)) in
      let! start_time := perform TimeTime in
      Ret (Some (images, start_time))
  end.

(** *** The worker pool

    [ThreadPoolExecutor] runs the submitted calls of [convert_image] on at
    most [max_workers] threads, taking them from its queue in submission
    order; [as_completed] hands each finished future to the main thread once.
    A run of the pool is an interleaving of atomic steps, picked by a
    schedule: a worker takes the next queued task ([Start]), a worker performs
    the next effect of its task, or delivers its result ([Work]), the main
    thread runs the loop body on a finished future ([Collect]).  A subprocess
    acts on the world in one step, when it returns.  An exception in the
    main thread ends the run ([Aborted]); what the workers still do while the
    executor shuts down is left out, and so is the entry that line 122 has
    appended when a [stat] of lines 124-125 raises. *)

Inductive TaskState : Type :=
| Queued
| Active (k : Prog ConvResult)
| Finished (r : Outcome ConvResult)
| Collected.

Inductive Action : Type :=
| Start (i : nat)
| Work (i : nat)
| Collect (i : nat).

Definition is_queued (t : Path * TaskState) : bool :=
  match t.2 with Queued => true | _ => false end.

Definition is_active (t : Path * TaskState) : bool :=
  match t.2 with Active _ => true | _ => false end.

Definition is_finished (t : Path * TaskState) : bool :=
  match t.2 with Finished _ => true | _ => false end.

Definition is_collected (t : Path * TaskState) : bool :=
  match t.2 with Collected => true | _ => false end.

Section Pool.

Context {W : Type}.
Variable h : Handler W.

(** The state of a batch: the world, one task per submitted image, the
    converter with its two lists, the loop counter, and the effects
    performed so far by all threads. *)
Record Batch : Type := {
  world : W;
  tasks : list (Path * TaskState);
  this : ImageConverter;
  done : nat;
  log : list Event
}.

Inductive StepResult : Type :=
| Disabled
| Next (b : Batch)
| Aborted (e : Exn) (b : Batch).

Definition set_task (b : Batch) (i : nat) (img : Path) (t : TaskState) (w : W)
    (evs : list Event) : Batch :=
  {| world := w;
     tasks := <[i := (img, t)]> (tasks b);
     this := this b;
     done := done b;
     log := log b ++ evs |}.

Definition step (total : nat) (start_time : Q) (a : Action) (b : Batch) : StepResult :=
  match a with
  | Start i =>
      match tasks b !! i with
      | Some (img, Queued) =>
          if forallb (fun t => negb (is_queued t)) (take i (tasks b))
             && (Z.of_nat (length (List.filter is_active (tasks b))) <? max_workers (this b))
          then Next (set_task b i img (Active (convert_image (this b) img)) (world b) [])
          else Disabled
      | _ => Disabled
      end
  | Work i =>
      match tasks b !! i with
      | Some (img, Active (Ret r)) =>
          Next (set_task b i img (Finished (Returned r)) (world b) [])
      | Some (img, Active (Raise e)) =>
          Next (set_task b i img (Finished (Raised e)) (world b) [])
      | Some (img, Active (Vis e k)) =>
          let x := (h _ e (world b)).1 in
          Next (set_task b i img (Active (k x)) (h _ e (world b)).2 [Ev e x])
      | _ => Disabled
      end
  | Collect i =>
      match tasks b !! i with
      | Some (img, Finished (Raised e)) => Aborted e b
      | Some (img, Finished (Returned r)) =>
          let body := loop_body total start_time r (this b, done b) in
          let evs := trace h body (world b) in
          match exec h body (world b) with
          | (Returned (self, completed), w) =>
              Next {| world := w;
                      tasks := <[i := (img, Collected)]> (tasks b);
                      this := self;
                      done := completed;
                      log := log b ++ evs |}
          | (Raised e, w) =>
              Aborted e {| world := w; tasks := tasks b; this := this b;
                           done := done b; log := log b ++ evs |}
          end
      | _ => Disabled
      end
  end.

Fixpoint run (total : nat) (start_time : Q) (sched : list Action) (b : Batch) : StepResult :=
  match sched with
  | [] => Next b
  | a :: sched' =>
      match step total start_time a b with
      | Next b' => run total start_time sched' b'
      | r => r
      end
  end.

(** [executor.submit(self.convert_image, img)] for every image. *)
Definition submit_all (self : ImageConverter) (images : list Path) (w : W)
    (evs : list Event) : Batch :=
  {| world := w;
     tasks := map (fun img => (img, Queued)) images;
     this := self;
     done := 0%nat;
     log := evs |}.

Definition all_collected (b : Batch) : bool := forallb is_collected (tasks b).

(** What a call of [convert_all] ends with: the converter as the call
    leaves it or the exception raised, the world, and the effects
    performed. *)
Definition Ending : Type := (Outcome ImageConverter * W * list Event)%type.

(** [convert_all], run under a schedule of the pool.  [None]: the schedule
    is not a complete run of the pool (it takes a step that is not enabled,
    or stops before every future was handed over). *)
Definition convert_all (self : ImageConverter) (sched : list Action) (w : W) :
    option Ending :=
  let evs := trace h (prologue self) w in
  match exec h (prologue self) w with
  | (Raised e, w1) => Some (Raised e, w1, evs)
  | (Returned None, w1) => Some (Returned self, w1, evs)
  | (Returned (Some (images, start_time)), w1) =>
      if max_workers self <=? 0
      then Some (Raised (Exc (OtherError "max_workers must be greater than 0")), w1, evs)
      else
        match run (length images) start_time sched (submit_all self images w1 evs) with
        | Disabled => None
        | Aborted e b => Some (Raised e, world b, log b)
        | Next b =>
            if all_collected b
            then
              let fin := summary (this b) start_time in
              match exec h fin (world b) with
              | (Returned _, w2) => Some (Returned (this b), w2, log b ++ trace h fin (world b))
              | (Raised e, w2) => Some (Raised e, w2, log b ++ trace h fin (world b))
              end
            else None
        end
  end.

End Pool.
Arguments Batch W : clear implicits.
Arguments StepResult W : clear implicits.
Arguments Ending W : clear implicits.

(** ** [delete_originals] *)

(** The body of the loop of [delete_originals] (lines 163-170).  The two
    counters are variables of the function: what the [try] block has added
    to [deleted] stays when its [print] raises, and an exception of the
    [print] in the [except] clause leaves the function. *)
Definition delete_one (pair : Path * option Path) (counts : nat * nat) : Prog (nat * nat) :=
  let '(original, _) := pair in
  let '(deleted, failed) := counts in
  let except_clause (deleted : nat) (e : Error) : Prog (nat * nat) :=
    let failed := S failed in
    let! _ := print_text (MsgDeleteFailed original (str_of_error e)) in
    Ret (deleted, failed) in
  let! unlinked := perform (PathUnlink original) in
  match unlinked with
  | Err e => except_clause deleted e
  | Ok _ =>
      let deleted := S deleted in
      try_except
        (let! _ := print_text (MsgDeleted original) in
         Ret (deleted, failed))
        (except_clause deleted)
  end.

Definition delete_originals (self : ImageConverter) : Prog unit :=
  match converted_files self with
  | [] => print MsgNothingToDelete
  | _ :: _ =>
      let! _ := print (MsgAboutToDelete (length (converted_files self))) in
      let! counts := for_each (converted_files self) delete_one (0%nat, 0%nat) in
      print (MsgDeleteSummary counts.1 counts.2)
  end.

(** ** A POSIX-like world

    A concrete handler, to run the programs on explicit inputs: a directory
    tree with the three permission bits of each directory, a clock, the
    console, and the programs found on the search path. *)

Module Posix.

#[warnings="-register-all"]
Inductive Node : Type :=
| File (size : N)
| Dir (r w x : bool) (entries : list (string * Node)).

Fixpoint entry (nm : string) (es : list (string * Node)) : option Node :=
  match es with
  | [] => None
  | (n, c) :: es' => if String.eqb n nm then Some c else entry nm es'
  end.

Fixpoint set_entry (nm : string) (c : Node) (es : list (string * Node)) :
    list (string * Node) :=
  match es with
  | [] => [(nm, c)]
  | (n, c0) :: es' =>
      if String.eqb n nm then (n, c) :: es' else (n, c0) :: set_entry nm c es'
  end.

Fixpoint remove_entry (nm : string) (es : list (string * Node)) : list (string * Node) :=
  match es with
  | [] => []
  | (n, c) :: es' => if String.eqb n nm then es' else (n, c) :: remove_entry nm es'
  end.

Definition EACCES : Error := OtherError "[Errno 13] Permission denied".
Definition ENOENT : Error := OtherError "[Errno 2] No such file or directory".
Definition ENOTDIR : Error := OtherError "[Errno 20] Not a directory".
Definition EISDIR : Error := OtherError "[Errno 21] Is a directory".

(** Path resolution: searching a directory needs its [x] bit. *)
Fixpoint resolve (n : Node) (p : Path) : Result (option Node) :=
  match p with
  | [] => Ok (Some n)
  | c :: p' =>
      match n with
      | File _ => Ok None
      | Dir _ _ x es =>
          if x then
            match entry c es with
            | Some child => resolve child p'
            | None => Ok None
            end
          else Err EACCES
      end
  end.

(** [Path.exists]: a missing file is [False], a permission error is
    raised. *)
Definition exists_ (fs : Node) (p : Path) : Result bool :=
  match resolve fs p with
  | Ok (Some _) => Ok true
  | Ok None => Ok false
  | Err e => Err e
  end.

(** [Path.stat().st_size] *)
Definition stat_size (fs : Node) (p : Path) : Result N :=
  match resolve fs p with
  | Ok (Some (File sz)) => Ok sz
  | Ok (Some (Dir _ _ _ _)) => Ok 4096%N
  | Ok None => Err ENOENT
  | Err e => Err e
  end.

(** [Path.unlink]: the parent directory must be writable and searchable. *)
Fixpoint unlink (n : Node) (p : Path) : Result Node :=
  match p, n with
  | [], _ => Err EISDIR
  | _ :: _, File _ => Err ENOTDIR
  | [nm], Dir r w x es =>
      if x && w then
        match entry nm es with
        | Some (File _) => Ok (Dir r w x (remove_entry nm es))
        | Some (Dir _ _ _ _) => Err EISDIR
        | None => Err ENOENT
        end
      else Err EACCES
  | nm :: p', Dir r w x es =>
      if x then
        match entry nm es with
        | Some child =>
            match unlink child p' with
            | Ok child' => Ok (Dir r w x (set_entry nm child' es))
            | Err e => Err e
            end
        | None => Err ENOENT
        end
      else Err EACCES
  end.

(** Creating or overwriting a file (what a subprocess does to the tree). *)
Fixpoint write_file (n : Node) (p : Path) (sz : N) : Node :=
  match p, n with
  | [nm], Dir r w x es => Dir r w x (set_entry nm (File sz) es)
  | nm :: p', Dir r w x es =>
      match entry nm es with
      | Some child => Dir r w x (set_entry nm (write_file child p' sz) es)
      | None => n
      end
  | _, _ => n
  end.

Definition is_dir (e : string * Node) : bool :=
  match e.2 with Dir _ _ _ _ => true | File _ => false end.

(** What [os.walk] does with the error of a failed [scandir]: nothing when
    [onerror] is [None], else it calls [onerror], which may raise. *)
Definition scandir_failed (onerror : option (Error -> Result unit)) (e : Error) :
    Result (list WalkEntry) :=
  match onerror with
  | None => Ok []
  | Some f => match f e with Ok _ => Ok [] | Err e' => Err e' end
  end.

(** The walk below a directory: its subdirectories in order, each walked
    by [rec]; the first error ends the walk. *)
Definition walk_entries (rec : string -> Node -> Result (list WalkEntry)) :
    list (string * Node) -> Result (list WalkEntry) :=
  fix go (es : list (string * Node)) : Result (list WalkEntry) :=
    match es with
    | [] => Ok []
    | (nm, File _) :: es' => go es'
    | (nm, (Dir _ _ _ _) as child) :: es' =>
        match rec nm child with
        | Ok l1 =>
            match go es' with
            | Ok l2 => Ok (l1 ++ l2)
            | Err e => Err e
            end
        | Err e => Err e
        end
    end.

(** [os.walk(top)], top-down, not following links: a directory is listed
    (which needs its [r] bit, and tells the kind of each entry), its entry
    is yielded, then its subdirectories are walked in order.  Walking a
    subdirectory is listing a path through the directory, which needs the
    [x] bit of the directory: without it the [scandir] of every
    subdirectory fails. *)
Fixpoint os_walk (onerror : option (Error -> Result unit)) (top : Path) (n : Node) :
    Result (list WalkEntry) :=
  match n with
  | File _ => scandir_failed onerror ENOTDIR
  | Dir r _ x es =>
      if r then
        let dirs := map fst (List.filter is_dir es) in
        let files := map fst (List.filter (fun e => negb (is_dir e)) es) in
        match walk_entries
                (fun nm child =>
                   if x then os_walk onerror (top ++ [nm]) child
                   else scandir_failed onerror EACCES) es with
        | Ok below => Ok ((top, dirs, files) :: below)
        | Err e => Err e
        end
      else scandir_failed onerror EACCES
  end.

(** [os.walk] from the working directory: a [top] that cannot be listed
    is a failed [scandir] as well. *)
Definition walk (onerror : option (Error -> Result unit)) (fs : Node) (top : Path) :
    Result (list WalkEntry) :=
  match resolve fs top with
  | Ok (Some n) => os_walk onerror top n
  | Ok None => scandir_failed onerror ENOENT
  | Err e => scandir_failed onerror e
  end.

(** The tree in which every directory that the walk cannot list is empty:
    a directory without its [r] bit, and the subdirectories of a directory
    without its [x] bit. *)
Definition emptied (n : Node) : Node :=
  match n with
  | File sz => File sz
  | Dir _ w x _ => Dir true w x []
  end.

Fixpoint as_if_empty (n : Node) : Node :=
  match n with
  | File sz => File sz
  | Dir r w x es =>
      if r then
        Dir r w x (map (fun e => (e.1, if x then as_if_empty e.2 else emptied e.2)) es)
      else Dir true w x []
  end.

Record World : Type := {
  fs : Node;
  clock : Q;
  console : list Msg
}.

(** How a started program behaves: it may fail to start; otherwise it runs
    for [duration] seconds, leaves the tree as [fs_after], and ends with
    [finished] unless the timeout came first. *)
Record Behaviour : Type := {
  spawn_error : option string;
  duration : Q;
  fs_after : Node;
  finished : CompletedProcess
}.

(** The machine: the programs on the search path, how they behave, and the
    lines with text from outside that standard output can encode. *)
Record Machine : Type := {
  which : string -> option string;
  program : list string -> World -> Behaviour;
  stdout_takes : Msg -> bool
}.

(** [UnicodeEncodeError] *)
Definition unencodable : Error :=
  OtherError "'utf-8' codec can't encode character: surrogates not allowed".

Definition subprocess_run (m : Machine) (cmd : list string) (timeout : Z) (w : World) :
    Result CompletedProcess * World :=
  let b := program m cmd w in
  match spawn_error b with
  | Some text => (Err (OtherError text), w)
  | None =>
      if Qle_bool (duration b) (inject_Z timeout)
      then (Ok (finished b),
            {| fs := fs_after b; clock := (clock w + duration b)%Q; console := console w |})
      else (Err TimeoutExpired,
            {| fs := fs_after b; clock := (clock w + inject_Z timeout)%Q;
               console := console w |})
  end.

Definition handler (m : Machine) : Handler World :=
  fun X e =>
    match e in Eff X return World -> X * World with
    | ShutilWhich cmd => fun w => (which m cmd, w)
    | OsWalk top onerror => fun w => (walk onerror (fs w) top, w)
    | PathExists p => fun w => (exists_ (fs w) p, w)
    | PathStatSize p => fun w => (stat_size (fs w) p, w)
    | PathUnlink p => fun w =>
        match unlink (fs w) p with
        | Ok fs' => (Ok tt, {| fs := fs'; clock := clock w; console := console w |})
        | Err e => (Err e, w)
        end
    | SubprocessRun cmd _ _ timeout => fun w => subprocess_run m cmd timeout w
    | TimeTime => fun w => (clock w, w)
    | Print msg => fun w =>
        (tt, {| fs := fs w; clock := clock w; console := console w ++ [msg] |})
    | PrintText msg => fun w =>
        if stdout_takes m msg
        then (Ok tt, {| fs := fs w; clock := clock w; console := console w ++ [msg] |})
        else (Err unencodable, w)
    end.

End Posix.

(** ** Scenarios

    Worlds on which the programs are run in the examples below. *)

Module Scenario.

Import Posix.

(** [Path(text)] for a relative path text. *)
Fixpoint split_on (c : ascii) (s : string) (acc : string) : list string :=
  match s with
  | EmptyString => [acc]
  | String x s' =>
      if Ascii.eqb x c then acc :: split_on c s' EmptyString
      else split_on c s' (acc +:+ String x EmptyString)
  end.

Definition parse (text : string) : Path := split_on PurePath.sep text EmptyString.

(** What an encoder does with one input: it writes the output, or it
    rejects the input, or it runs without writing anything, or it cannot
    be started. *)
Inductive Verdict : Type :=
| Encodes (seconds : Q) (size : N)
| Rejects (seconds : Q) (code : Z) (out err : string)
| Stalls (seconds : Q)
| Missing.

(** An encoder in the manner of [cjxl]: it reads its first argument and, when it
    accepts the input, writes its second argument. *)
Definition encoder (verdict : string -> World -> Verdict) (cmd : list string) (w : World) :
    Behaviour :=
  match cmd with
  | _ :: input :: output :: _ =>
      match verdict input w with
      | Encodes seconds size =>
          {| spawn_error := None; duration := seconds;
             fs_after := write_file (fs w) (parse output) size;
             finished := {| returncode := 0; stdout := ""; stderr := "" |} |}
      | Rejects seconds code out err =>
          {| spawn_error := None; duration := seconds; fs_after := fs w;
             finished := {| returncode := code; stdout := out; stderr := err |} |}
      | Stalls seconds =>
          {| spawn_error := None; duration := seconds; fs_after := fs w;
             finished := {| returncode := 1; stdout := ""; stderr := "" |} |}
      | Missing =>
          {| spawn_error := Some "[Errno 2] No such file or directory: 'cjxl'";
             duration := 0; fs_after := fs w;
             finished := {| returncode := 127; stdout := ""; stderr := "" |} |}
      end
  | _ =>
      {| spawn_error := None; duration := 0; fs_after := fs w;
         finished := {| returncode := 2; stdout := ""; stderr := "usage" |} |}
  end.

Definition machine (verdict : string -> World -> Verdict) : Machine :=
  {| which := fun cmd => if String.eqb cmd "cjxl" then Some "/usr/bin/cjxl" else None;
     program := encoder verdict;
     stdout_takes := fun _ => true |}.

Definition at_start (tree : Node) : World :=
  {| fs := tree; clock := 0; console := [] |}.

Definition converter (workers effort_arg : Z) : ImageConverter :=
  {| root_dir := ["pics"]; max_workers := workers;
     effort := Z.min (Z.max effort_arg 1) 9;
     converted_files := []; failed_files := [] |}.

Definition newline : string := String (ascii_of_nat 10) EmptyString.

(** The directory of the specification's scenario, with one more file:
    [a.png] converts, [b.jpg] has its [b.jxl], [c.bmp] is rejected with a
    message on stderr, [d.gif] is rejected with blank stderr and a message
    on stdout. *)
Definition pics : Node :=
  Dir true true true
    [("pics", Dir true true true
        [("a.png", File 1000); ("b.jpg", File 2000); ("b.jxl", File 900);
         ("c.bmp", File 3000); ("d.gif", File 500)])].

Definition judge (input : string) (_ : World) : Verdict :=
  if String.eqb input "pics/a.png" then Encodes 2 400
  else if String.eqb input "pics/c.bmp" then Rejects 1 1 "" ("boom" +:+ newline)
  else if String.eqb input "pics/d.gif" then Rejects 1 1 "bad input" (" " +:+ newline)
  else Rejects 1 1 "" "".

(** A schedule that runs the tasks one after the other, the i-th with the
    given number of worker steps. *)
Fixpoint one_by_one (i : nat) (works : list nat) : list Action :=
  match works with
  | [] => []
  | n :: works' => Start i :: repeat (Work i) n ++ Collect i :: one_by_one (S i) works'
  end.

(** A schedule of two workers for [pics]. *)
Definition interleaved : list Action :=
  [Start 0; Start 1; Work 0; Work 1; Work 1; Collect 1; Start 2; Work 0; Work 2;
   Work 2; Work 0; Work 0; Work 2; Collect 2; Start 3; Collect 0; Work 3; Work 3;
   Work 3; Collect 3]%nat.

(** An encoder that rejects everything. *)
Definition refuse (_ : string) (_ : World) : Verdict := Rejects 1 1 "" "no".

(** One large image, and a machine that is busy for its first ten seconds:
    the encoder started then does not finish within the timeout. *)
Definition large : Node :=
  Dir true true true [("pics", Dir true true true [("big.png", File 9000)])].

Definition busy (input : string) (w : World) : Verdict :=
  if String.eqb input "pics/big.png"
  then if Qle_bool 10 (clock w) then Encodes 100 5000 else Stalls 400
  else Rejects 1 1 "" "".

(** Two images with the same stem. *)
Definition twins : Node :=
  Dir true true true
    [("pics", Dir true true true [("a.png", File 1000); ("a.jpg", File 2000)])].

Definition judge_twins (input : string) (_ : World) : Verdict :=
  if String.eqb input "pics/a.png" then Encodes 2 400
  else if String.eqb input "pics/a.jpg" then Encodes 2 700
  else Rejects 1 1 "" "".

(** The second encoder ends after the first result was reported. *)
Definition report_then_overwrite : list Action :=
  [Start 0; Start 1; Work 0; Work 1; Work 0; Work 0; Work 0; Collect 0;
   Work 1; Work 1; Work 1; Collect 1]%nat.

(** The second encoder ends between the return of the first conversion
    and its report. *)
Definition overwrite_then_report : list Action :=
  [Start 0; Start 1; Work 0; Work 1; Work 0; Work 0; Work 0; Work 1;
   Collect 0; Work 1; Work 1; Collect 1]%nat.

(** The batch over [twins] when the first conversion has just returned. *)
Definition first_returned : list Action :=
  [Start 0; Start 1; Work 0; Work 1; Work 0; Work 0; Work 0]%nat.

(** A converter that has recorded one success. *)
Definition with_success (original new_path : Path) : ImageConverter :=
  {| root_dir := ["pics"]; max_workers := 2; effort := 7;
     converted_files := [(original, Some new_path)]; failed_files := [] |}.

(** A directory without images. *)
Definition bare : Node :=
  Dir true true true [("pics", Dir true true true [("notes.txt", File 12)])].

(** A converter after a batch, one of whose originals is gone since. *)
Definition after_batch : ImageConverter :=
  {| root_dir := ["pics"]; max_workers := 2; effort := 7;
     converted_files := [(["pics"; "a.png"], Some ["pics"; "a.jxl"]);
                         (["pics"; "gone.png"], Some ["pics"; "gone.jxl"]);
                         (["pics"; "c.bmp"], Some ["pics"; "c.jxl"])];
     failed_files := [] |}.

(** A directory with a subdirectory that can be searched but not listed. *)
Definition guarded : Node :=
  Dir true true true
    [("pics", Dir true true true
        [("a.png", File 1000);
         ("private", Dir false true true [("secret.png", File 10)])])].

(** A directory that can be listed but not searched, with an image and a
    subdirectory: the names in it are known, nothing below it is reached. *)
Definition closed : Node :=
  Dir true true true
    [("pics", Dir true true false
        [("a.png", File 1000);
         ("sub", Dir true true true [("s.png", File 10)])])].

(** The text of the given bytes, before [rest]. *)
Definition text (codes : list N) (rest : string) : string :=
  fold_right (fun n s => String (PyStr.byte n) s) rest codes.

(** U+00A0, U+0085 and U+3000 in UTF-8. *)
Definition no_break_space : string := text [194; 160]%N "".
Definition next_line : string := text [194; 133]%N "".
Definition ideographic_space : string := text [227; 128; 128]%N "".

(** The text from outside that a line carries. *)
Definition texts_of (m : Msg) : list string :=
  match m with
  | MsgConverted _ _ name _ _ _ _ => [name]
  | MsgFailed _ _ name error => [name; error]
  | MsgSkipped _ _ name error => [name; error]
  | MsgDeleted original => original
  | MsgDeleteFailed original error => original ++ [error]
  | _ => []
  end.

(** A byte that occurs in no UTF-8 text.  A file name with such a byte is
    a [str] with a lone surrogate, which no encoding of standard output
    takes. *)
Definition never_utf8 (c : ascii) : bool :=
  let n := N_of_ascii c in
  ((n =? 192) || (n =? 193) || (245 <=? n))%N.

Fixpoint encodable (text : string) : bool :=
  match text with
  | EmptyString => true
  | String c text' => negb (never_utf8 c) && encodable text'
  end.

(** A machine whose standard output is a UTF-8 terminal. *)
Definition terminal (verdict : string -> World -> Verdict) : Machine :=
  {| which := fun cmd => if String.eqb cmd "cjxl" then Some "/usr/bin/cjxl" else None;
     program := encoder verdict;
     stdout_takes := fun m => forallb encodable (texts_of m) |}.

(** An image of no bytes, with its output. *)
Definition hollow : Node :=
  Dir true true true
    [("pics", Dir true true true [("z.png", File 0); ("z.jxl", File 10)])].

(** A directory whose name is not UTF-8 (the byte 255), with an image, and
    an image beside it. *)
Definition odd_name : string := String (ascii_of_N 255) "".

Definition odd : Node :=
  Dir true true true
    [("pics", Dir true true true
        [(odd_name, Dir true true true [("a.png", File 1000)]);
         ("b.png", File 2000)])].

Definition judge_odd (input : string) (_ : World) : Verdict := Encodes 2 400.

(** An image whose name is not UTF-8. *)
Definition odd_image : Node :=
  Dir true true true
    [("pics", Dir true true true [(odd_name +:+ ".png", File 1000)])].

(** The converter after a batch on [odd], and the tree then. *)
Definition after_odd : ImageConverter :=
  {| root_dir := ["pics"]; max_workers := 2; effort := 7;
     converted_files := [(["pics"; odd_name; "a.png"], Some ["pics"; odd_name; "a.jxl"]);
                         (["pics"; "b.png"], Some ["pics"; "b.jxl"])];
     failed_files := [] |}.

Definition odd_converted : Node :=
  Dir true true true
    [("pics", Dir true true true
        [(odd_name, Dir true true true [("a.png", File 1000); ("a.jxl", File 400)]);
         ("b.png", File 2000); ("b.jxl", File 400)])].

End Scenario.

(** The diagnostic text in the words of the specification: the captured
    stderr if non-empty, else the captured stdout if non-empty, else the
    generic message. *)
Definition spec_diagnostic (result : CompletedProcess) : string :=
  if PyStr.truthy (stderr result) then stderr result
  else if PyStr.truthy (stdout result) then stdout result
  else failure_message.

(** The deletions of a trace that succeeded. *)
Definition unlink_succeeded (ev : Event) : bool :=
  match ev with
  | Ev (PathUnlink _) (Ok _) => true
  | Ev _ _ => false
  end.

Definition deletions (t : list Event) : nat := length (List.filter unlink_succeeded t).

(** The paths whose size was read in a trace, and the sizes read. *)
Definition stated_of (ev : Event) : list Path :=
  match ev with
  | Ev (PathStatSize p) _ => [p]
  | Ev _ _ => []
  end.

Definition size_read_of (ev : Event) : list N :=
  match ev with
  | Ev (PathStatSize _) (Ok sz) => [sz]
  | Ev _ _ => []
  end.

Definition stated (t : list Event) : list Path := flat_map stated_of t.
Definition sizes_read (t : list Event) : list N := flat_map size_read_of t.

Definition sum_N (l : list N) : N := fold_right N.add 0%N l.

(** The sizes on the progress lines and on the summary line of a console. *)
Definition reported_of (m : Msg) : list (Q * Q) :=
  match m with
  | MsgConverted _ _ _ original_size new_size _ _ => [(original_size, new_size)]
  | _ => []
  end.

Definition totals_of (m : Msg) : list (Q * Q) :=
  match m with
  | MsgTotalSize total_original total_new _ => [(total_original, total_new)]
  | _ => []
  end.

(** The figures of the line of a success and of the line of the totals:
    original size, new size and ratio. *)
Definition figures_of (m : Msg) : list (Q * Q * Q) :=
  match m with
  | MsgConverted _ _ _ original_size new_size ratio _ => [(original_size, new_size, ratio)]
  | MsgTotalSize total_original total_new ratio => [(total_original, total_new, ratio)]
  | _ => []
  end.

Definition figures (msgs : list Msg) : list (Q * Q * Q) := flat_map figures_of msgs.

Definition reported_sizes (msgs : list Msg) : list (Q * Q) := flat_map reported_of msgs.
Definition summary_sizes (msgs : list Msg) : list (Q * Q) := flat_map totals_of msgs.

(** ** Invariants of a run of the pool

    Stated against a set of worlds [stable] that the effects of a batch do
    not leave, and a set [kept] of paths that exist in every such world. *)

Section Invariant.

Context {W : Type}.
Variable h : Handler W.
Variable stable : W -> Prop.
Variable kept : Path -> Prop.

(** Along every path of [k] that the handler can take from stable worlds,
    the events satisfy [Q], nothing is raised, and the result satisfies
    [P]. *)
Fixpoint leads {R : Type} (Q : Event -> Prop) (P : R -> Prop) (k : Prog R) : Prop :=
  match k with
  | Ret r => P r
  | Raise _ => False
  | Vis e k' =>
      forall w : W, stable w ->
        Q (Ev e (h _ e w).1) /\ leads Q P (k' (h _ e w).1)
  end.

(** Whatever the answers, no effect of [p] is a deletion or a
    subprocess. *)
Fixpoint harmless {R : Type} (p : Prog R) : Prop :=
  match p with
  | Ret _ => True
  | Raise _ => True
  | Vis e k => (forall x, unlinked_of (Ev e x) = [] /\ spawned_of (Ev e x) = [])
               /\ forall x, harmless (k x)
  end.

Variable self0 : ImageConverter.
Variable images : list Path.
Variable evs0 : list Event.

(** What a worker may do for [img]: no deletion, and no subprocess but the
    encoder on [img], and that only when the output is not a kept one. *)
Definition worker_event (img : Path) (ev : Event) : Prop :=
  unlinked_of ev = [] /\
  forall cmd, cmd ∈ spawned_of ev ->
    exists out, PurePath.with_suffix img ".jxl" = Ok out /\ ~ kept out /\
                cmd = cjxl_command self0 img out.

(** What a worker may return for [img]. *)
Definition worker_result (img : Path) (r : ConvResult) : Prop :=
  r.1.1.2 = img /\
  (r.1.1.1 = true -> exists out, PurePath.with_suffix img ".jxl" = Ok out /\
                                 ~ kept out /\ r = (true, img, Some out, "")) /\
  (forall out, PurePath.with_suffix img ".jxl" = Ok out -> kept out ->
               r = (false, img, Some out, skip_message)).

Definition task_inv (t : Path * TaskState) : Prop :=
  match t.2 with
  | Queued => True
  | Active k => leads (worker_event t.1) (worker_result t.1) k
  | Finished o => exists r, o = Returned r /\ worker_result t.1 r
  | Collected => True
  end.

Definition collected (ts : list (Path * TaskState)) : list Path :=
  map fst (List.filter is_collected ts).

(** The entries a batch has appended to the two lists. *)
Definition new_converted (b : Batch W) : list (Path * option Path) :=
  drop (length (converted_files self0)) (converted_files (this b)).

Definition new_failed (b : Batch W) : list (Path * string) :=
  drop (length (failed_files self0)) (failed_files (this b)).

Record Inv (b : Batch W) : Prop := {
  inv_stable : stable (world b);
  inv_images : map fst (tasks b) = images;
  inv_tasks : Forall task_inv (tasks b);
  inv_effort : effort (this b) = effort self0;
  inv_workers : max_workers (this b) = max_workers self0;
  inv_done : done b = length (collected (tasks b));
  inv_converted : converted_files (this b) = converted_files self0 ++ new_converted b;
  inv_failed : failed_files (this b) = failed_files self0 ++ new_failed b;
  inv_recorded :
    map fst (new_converted b) ++ map fst (new_failed b) ≡ₚ collected (tasks b);
  inv_success :
    forall original new_path, (original, new_path) ∈ new_converted b ->
      exists out, PurePath.with_suffix original ".jxl" = Ok out /\ ~ kept out /\
                  new_path = Some out;
  inv_skipped :
    forall original error out, (original, error) ∈ new_failed b ->
      PurePath.with_suffix original ".jxl" = Ok out -> kept out ->
      error = skip_message;
  inv_log :
    forall cmd, cmd ∈ spawned (log b) ->
      cmd ∈ spawned evs0 \/
      exists img out, img ∈ images /\ PurePath.with_suffix img ".jxl" = Ok out /\
                      ~ kept out /\ cmd = cjxl_command self0 img out;
  inv_unlinked : unlinked (log b) = unlinked evs0
}.

End Invariant.

(** ** The lines of the console

    The counter pair [[completed/total]] of a progress line, and the kind
    of the line. *)

Definition progress_of (m : Msg) : list (nat * nat) :=
  match m with
  | MsgConverted completed total _ _ _ _ _ => [(completed, total)]
  | MsgFailed completed total _ _ => [(completed, total)]
  | MsgSkipped completed total _ _ => [(completed, total)]
  | _ => []
  end.

Definition progress (msgs : list Msg) : list (nat * nat) := flat_map progress_of msgs.

Definition is_tick (m : Msg) : bool :=
  match m with
  | MsgConverted _ _ _ _ _ _ _ => true
  | _ => false
  end.

Definition is_cross (m : Msg) : bool :=
  match m with
  | MsgFailed _ _ _ _ => true
  | MsgSkipped _ _ _ _ => true
  | _ => false
  end.

(** The numbers on the two lines of the header that show the settings. *)
Definition threads_of (m : Msg) : list Z :=
  match m with
  | MsgWorkers max_workers => [max_workers]
  | _ => []
  end.

Definition efforts_of (m : Msg) : list Z :=
  match m with
  | MsgEffort effort => [effort]
  | _ => []
  end.

Definition threads (msgs : list Msg) : list Z := flat_map threads_of msgs.
Definition efforts (msgs : list Msg) : list Z := flat_map efforts_of msgs.

(** An event that shows none of the settings, and one that shows no
    settings but those of [self]. *)
Definition unset (ev : Event) : Prop :=
  threads (printed_of ev) = [] /\ efforts (printed_of ev) = [].

Definition shows_settings_of (self : ImageConverter) (ev : Event) : Prop :=
  Forall (fun n => n = max_workers self) (threads (printed_of ev)) /\
  Forall (fun e => e = effort self) (efforts (printed_of ev)).

(** Whatever the answers, every effect of [p] satisfies [Q]. *)
Fixpoint always {R : Type} (Q : Event -> Prop) (p : Prog R) : Prop :=
  match p with
  | Ret _ => True
  | Raise _ => True
  | Vis e k => (forall x, Q (Ev e x)) /\ forall x, always Q (k x)
  end.

(** Whatever the answers, [p] raises nothing of its own: where it ends in
    an exception, the call just answered has raised it. *)
Fixpoint relays {R : Type} (p : Prog R) : Prop :=
  match p with
  | Ret _ => True
  | Raise _ => False
  | Vis e k =>
      forall x,
        match raised_by (Ev e x) with
        | Some err => k x = Raise (Exc err) \/ relays (k x)
        | None => relays (k x)
        end
  end.

(** A task whose worker, if at work, satisfies [Q] in every effect. *)
Definition task_always (Q : Event -> Prop) (t : Path * TaskState) : Prop :=
  match t.2 with
  | Active k => always Q k
  | _ => True
  end.

(** Whatever the answers, [p] raises nothing but an [Exception]: it does
    not call [sys.exit]. *)
Fixpoint no_exit {R : Type} (p : Prog R) : Prop :=
  match p with
  | Ret _ => True
  | Raise e => exists err : Error, e = Exc err
  | Vis e k => forall x, no_exit (k x)
  end.

(** An event that prints nothing, and one that prints no progress line. *)
Definition silent (ev : Event) : Prop := printed_of ev = [].
Definition off_loop (ev : Event) : Prop := progress (printed_of ev) = [].

(** What the console shows of a batch under way: the workers print
    nothing, the progress lines count from 1 to the number of futures
    collected, and the lists have grown by the lines of each kind. *)
Definition quiet_task (t : Path * TaskState) : Prop :=
  match t.2 with
  | Active k => always silent k
  | _ => True
  end.

Record Told {W : Type} (total : nat) (self0 : ImageConverter) (b : Batch W) : Prop := {
  told_workers : Forall quiet_task (tasks b);
  told_progress :
    progress (printed (log b)) = map (fun k => (k, total)) (seq 1 (done b));
  told_ticks :
    (length (converted_files self0) + length (List.filter is_tick (printed (log b)))
     = length (converted_files (this b)))%nat;
  told_crosses :
    (length (failed_files self0) + length (List.filter is_cross (printed (log b)))
     = length (failed_files (this b)))%nat
}.

(** ** The script

    [main] (lines 175-226) talks to the user on the terminal and calls the
    converter.  A session holds the world of the library calls, the lines
    still to come on standard input, and what has been shown or done so far,
    in order.  [input] raises [EOFError] when standard input has ended.  The
    text functions of the standard library that [main] applies to what the
    user typed ([str.strip], [str.lower], [int], [os.path.isdir], [Path])
    are parameters of the script.  The handler of [KeyboardInterrupt] around
    [main] (lines 229-234) acts only on an interrupt from outside, which is
    not part of a session. *)

(** The lines that [main] prints itself. *)
Inductive Said : Type :=
| SaidRule
| SaidTitle
| SaidSubtitle
| SaidNoDirectory (target_dir : string)
| SaidBlank
| SaidKeeping
| SaidAnswerAgain.

(** The prompts of the four calls of [input]. *)
Inductive Prompt : Type :=
| AskDirectory
| AskWorkers
| AskEffort
| AskDelete.

Inductive Shown : Type :=
| Own (line : Said)
| Asked (prompt : Prompt) (answer : option string)
| Library (ev : Event).

Definition library_of (x : Shown) : list Event :=
  match x with
  | Library ev => [ev]
  | _ => []
  end.

Definition answer_of (x : Shown) : list (Prompt * option string) :=
  match x with
  | Asked prompt answer => [(prompt, answer)]
  | _ => []
  end.

Definition said_of (x : Shown) : list Said :=
  match x with
  | Own line => [line]
  | _ => []
  end.

Definition library (seen : list Shown) : list Event := flat_map library_of seen.
Definition asked (seen : list Shown) : list (Prompt * option string) :=
  flat_map answer_of seen.
Definition said (seen : list Shown) : list Said := flat_map said_of seen.

Record Session (W : Type) : Type := {
  host : W;
  stdin : list string;
  shown : list Shown;
  takes : string -> bool
}.
Arguments host {W} _.
Arguments stdin {W} _.
Arguments shown {W} _.
Arguments takes {W} _.

(** [UnicodeEncodeError] of a [print] of [main]. *)
Definition refused_text : Exn := Exc Posix.unencodable.

(** [EOFError] of [input]. *)
Definition end_of_input : Exn := Exc (OtherError "EOF when reading a line").

(** [response in ('y', 'yes', '是')] and [response in ('n', 'no', '否')] *)
Definition affirmative (response : string) : bool :=
  existsb (String.eqb response) ["y"; "yes"; "是"].

Definition negative (response : string) : bool :=
  existsb (String.eqb response) ["n"; "no"; "否"].

Section Script.

Context {W : Type}.
Variable h : Handler W.
Variable isdir : W -> string -> bool.
Variable path_of : string -> Path.
Variable int_of : string -> option Z.
Variable strip : string -> string.
Variable lower : string -> string.

(** A part of the script: from a session to how it ends and the session
    then; [None] when the schedule given for the pool is not a complete
    run. *)
Definition Script (R : Type) : Type := Session W -> option (Outcome R * Session W).

Definition done_with {R : Type} (r : R) : Script R := fun s => Some (Returned r, s).

Definition and_then {A B : Type} (p : Script A) (f : A -> Script B) : Script B :=
  fun s =>
    match p s with
    | Some (Returned a, s') => f a s'
    | Some (Raised e, s') => Some (Raised e, s')
    | None => None
    end.

Notation "'do!' x ':=' p 'in' q" := (and_then p (fun x => q))
  (at level 10, x pattern, p at level 100, q at level 200).

(** [print] of a line of [main]'s own words. *)
Definition say (line : Said) : Script unit :=
  fun s => Some (Returned tt,
                 {| host := host s; stdin := stdin s; shown := shown s ++ [Own line];
                    takes := takes s |}).

(** [print] of a line with a text from outside: the terminal shows it when
    its encoding takes the text, and [print] raises when not. *)
Definition say_text (line : Said) (text : string) : Script unit :=
  fun s => if takes s text then say line s else Some (Raised refused_text, s).

(** The session after a prompt and its answer, with the lines left. *)
Definition heard (s : Session W) (prompt : Prompt) (answer : option string)
    (rest : list string) : Session W :=
  {| host := host s; stdin := rest; shown := shown s ++ [Asked prompt answer];
     takes := takes s |}.

(** [input(prompt)] *)
Definition input (prompt : Prompt) : Script string :=
  fun s =>
    match stdin s with
    | [] => Some (Raised end_of_input, heard s prompt None [])
    | line :: rest => Some (Returned line, heard s prompt (Some line) rest)
    end.

(** A call into the converter. *)
Definition call {R : Type} (p : Prog R) : Script R :=
  fun s =>
    Some ((exec h p (host s)).1,
          {| host := (exec h p (host s)).2; stdin := stdin s;
             shown := shown s ++ map Library (trace h p (host s));
             takes := takes s |}).

Definition call_convert_all (self : ImageConverter) (sched : list Action) :
    Script ImageConverter :=
  fun s =>
    match convert_all h self sched (host s) with
    | Some (o, w, evs) =>
        Some (o, {| host := w; stdin := stdin s;
                    shown := shown s ++ map Library evs; takes := takes s |})
    | None => None
    end.

Definition exit_ {R : Type} (code : Z) : Script R :=
  fun s => Some (Raised (SystemExit code), s).

(** Lines 182-188: the target directory. *)
Definition read_target (argv : list string) : Script string :=
  match argv with
  | _ :: target_dir :: _ => done_with target_dir
  | _ =>
      do! line := input AskDirectory in
      let target_dir := strip line in
      done_with (if PyStr.truthy target_dir then target_dir else ".")
  end.

(** Lines 196-201: the number of threads. *)
Definition read_workers : Script Z :=
  do! line := input AskWorkers in
  match int_of (PyStr.or_ (strip line) "8") with
  | Some max_workers => done_with (if max_workers <? 1 then 8 else max_workers)
  | None => done_with 8
  end.

(** Lines 204-208: the effort. *)
Definition read_effort : Script Z :=
  do! line := input AskEffort in
  match int_of (PyStr.or_ (strip line) "7") with
  | Some effort => done_with (Z.min (Z.max effort 1) 9)
  | None => done_with 7
  end.

(** Lines 176-210: the banner and the three settings. *)
Definition setup (argv : list string) : Script (string * Z * Z) :=
  do! _ := say SaidRule in
  do! _ := say SaidTitle in
  do! _ := say SaidSubtitle in
  do! _ := say SaidRule in
  do! target_dir := read_target argv in
  fun s =>
    if negb (isdir (host s) target_dir)
    then (do! _ := say_text (SaidNoDirectory target_dir) target_dir in exit_ 1) s
    else (do! max_workers := read_workers in
          do! effort := read_effort in
          do! _ := say SaidBlank in
          done_with (target_dir, max_workers, effort)) s.

(** Lines 218-226: the [while True] loop, over the lines still to come
    ([lines] is the standard input of the session). *)
Fixpoint ask_delete (converter : ImageConverter) (lines : list string) :
    Script unit :=
  fun s =>
    match lines with
    | [] => Some (Raised end_of_input, heard s AskDelete None [])
    | line :: rest =>
        let s := heard s AskDelete (Some line) rest in
        let response := lower (strip line) in
        if affirmative response then call (delete_originals converter) s
        else if negative response then say SaidKeeping s
        else (do! _ := say SaidAnswerAgain in ask_delete converter rest) s
    end.

(** Lines 213-226: the converter at work. *)
Definition conduct (settings : string * Z * Z) (sched : list Action) : Script unit :=
  let '(target_dir, max_workers, effort) := settings in
  do! converter := call (init (path_of target_dir) max_workers effort) in
  do! converter := call_convert_all converter sched in
  match converted_files converter with
  | [] => done_with tt
  | _ :: _ => fun s => ask_delete converter (stdin s) s
  end.

(** [main] *)
Definition main (argv : list string) (sched : list Action) : Script unit :=
  do! settings := setup argv in
  conduct settings sched.

End Script.

(** ** The endings of the script *)

Section Endings.

Context {W : Type}.
Variable h : Handler W.
Variable strip : string -> string.
Variable lower : string -> string.

(** The endings of the second part of [main], by the answer of
    [shutil.which], the ending of [convert_all] and the answers of the
    user. *)
Inductive Conducted (self : ImageConverter) (sched : list Action) (w : W) :
    Outcome unit -> Session W -> list Shown -> Prop :=
| NoEncoder (s' : Session W) (more : list Shown) :
    (h _ (ShutilWhich "cjxl") w).1 = None ->
    library more = [Ev (ShutilWhich "cjxl") None; Ev (Print MsgNoCjxl) tt] ->
    asked more = [] ->
    Conducted self sched w (Raised (SystemExit 1)) s' more
| BatchRaised (found : string) (e : Exn) (w2 : W) (evs : list Event)
    (s' : Session W) (more : list Shown) :
    (h _ (ShutilWhich "cjxl") w).1 = Some found ->
    convert_all h self sched (h _ (ShutilWhich "cjxl") w).2 = Some (Raised e, w2, evs) ->
    library more = Ev (ShutilWhich "cjxl") (Some found) :: evs ->
    asked more = [] ->
    Conducted self sched w (Raised e) s' more
| NothingConverted (found : string) (self' : ImageConverter) (w2 : W) (evs : list Event)
    (s' : Session W) (more : list Shown) :
    (h _ (ShutilWhich "cjxl") w).1 = Some found ->
    convert_all h self sched (h _ (ShutilWhich "cjxl") w).2
    = Some (Returned self', w2, evs) ->
    converted_files self' = [] ->
    library more = Ev (ShutilWhich "cjxl") (Some found) :: evs ->
    asked more = [] ->
    Conducted self sched w (Returned tt) s' more
| InputEnded (found : string) (self' : ImageConverter) (w2 : W) (evs : list Event)
    (s' : Session W) (more : list Shown) :
    (h _ (ShutilWhich "cjxl") w).1 = Some found ->
    convert_all h self sched (h _ (ShutilWhich "cjxl") w).2
    = Some (Returned self', w2, evs) ->
    converted_files self' <> [] ->
    library more = Ev (ShutilWhich "cjxl") (Some found) :: evs ->
    stdin s' = [] ->
    Conducted self sched w (Raised end_of_input) s' more
| Declined (found : string) (self' : ImageConverter) (w2 : W) (evs : list Event)
    (line : string) (s' : Session W) (more : list Shown) :
    (h _ (ShutilWhich "cjxl") w).1 = Some found ->
    convert_all h self sched (h _ (ShutilWhich "cjxl") w).2
    = Some (Returned self', w2, evs) ->
    converted_files self' <> [] ->
    library more = Ev (ShutilWhich "cjxl") (Some found) :: evs ->
    last (asked more) = Some (AskDelete, Some line) ->
    affirmative (lower (strip line)) = false ->
    negative (lower (strip line)) = true ->
    Conducted self sched w (Returned tt) s' more
| Consented (found : string) (self' : ImageConverter) (w2 : W) (evs : list Event)
    (line : string) (s' : Session W) (more : list Shown) :
    (h _ (ShutilWhich "cjxl") w).1 = Some found ->
    convert_all h self sched (h _ (ShutilWhich "cjxl") w).2
    = Some (Returned self', w2, evs) ->
    converted_files self' <> [] ->
    library more
    = Ev (ShutilWhich "cjxl") (Some found) :: evs ++ trace h (delete_originals self') w2 ->
    last (asked more) = Some (AskDelete, Some line) ->
    affirmative (lower (strip line)) = true ->
    Conducted self sched w (exec h (delete_originals self') w2).1 s' more.

End Endings.

(** A terminal session on the POSIX world: [os.path.isdir] on the tree,
    [Path] and [int] on the plain texts of the scenarios. *)
Module Desk.

Definition isdir (w : Posix.World) (text : string) : bool :=
  match Posix.resolve (Posix.fs w) (Scenario.parse text) with
  | Ok (Some (Posix.Dir _ _ _ _)) => true
  | _ => false
  end.

Definition int_of_text (text : string) : option Z :=
  match NilZero.int_of_string text with
  | Some d => Some (Z.of_int d)
  | None => None
  end.

(** [main] on a machine whose standard output is a UTF-8 terminal. *)
Definition main_on_terminal (judge : string -> Posix.World -> Scenario.Verdict)
    (argv : list string) (sched : list Action) :
    Session Posix.World -> option (Outcome unit * Session Posix.World) :=
  main (Posix.handler (Scenario.terminal judge)) isdir Scenario.parse int_of_text
       PyStr.strip PyStr.lower argv sched.

Definition main (judge : string -> Posix.World -> Scenario.Verdict)
    (argv : list string) (sched : list Action) :
    Session Posix.World -> option (Outcome unit * Session Posix.World) :=
  main (Posix.handler (Scenario.machine judge)) isdir Scenario.parse int_of_text
       PyStr.strip PyStr.lower argv sched.

Definition sitting (tree : Posix.Node) (lines : list string) : Session Posix.World :=
  {| host := Scenario.at_start tree; stdin := lines; shown := [];
     takes := Scenario.encodable |}.

End Desk.

(** * Properties *)

(** ** Strings and paths on examples *)

Example lower_ex : PyStr.lower ".JPG" = ".jpg".
Proof. reflexivity. Qed.

Example strip_ex : PyStr.strip "  a b
" = "a b".
Proof. reflexivity. Qed.

(** The spaces of [str.isspace] beyond ASCII are stripped at both ends, and
    kept inside. *)
Example strip_unicode_ex :
  PyStr.strip (Scenario.no_break_space +:+ "boom" +:+ Scenario.ideographic_space
               +:+ Scenario.next_line) = "boom" /\
  PyStr.strip (Scenario.ideographic_space +:+ Scenario.no_break_space
               +:+ Scenario.newline) = "" /\
  PyStr.strip ("a" +:+ Scenario.no_break_space +:+ "b" +:+ Scenario.no_break_space)
  = "a" +:+ Scenario.no_break_space +:+ "b" /\
  PyStr.strip (Scenario.text [226; 128; 139]%N "") = Scenario.text [226; 128; 139]%N "".
Proof. repeat split. Qed.

Example suffix_ex1 : PurePath.suffix ["pics"; "a.tar.GZ"] = ".GZ".
Proof. reflexivity. Qed.

Example suffix_ex2 : PurePath.suffix ["pics"; ".bashrc"] = "".
Proof. reflexivity. Qed.

Example suffix_ex3 : PurePath.suffix ["pics"; "a."] = "".
Proof. reflexivity. Qed.

Example with_suffix_ex1 :
  PurePath.with_suffix ["pics"; "a.png"] ".jxl" = Ok ["pics"; "a.jxl"].
Proof. reflexivity. Qed.

Example with_suffix_ex2 :
  PurePath.with_suffix ["pics"; "README"] ".jxl" = Ok ["pics"; "README.jxl"].
Proof. reflexivity. Qed.

Example of_Z_ex : PyStr.of_Z 7 = "7" /\ PyStr.of_Z (-12) = "-12".
Proof. split; reflexivity. Qed.

(** ** [with_suffix] with the constant suffix of the converter *)

Lemma with_suffix_jxl (p : Path) :
  PurePath.with_suffix p ".jxl" =
    if negb (PyStr.truthy (PurePath.name p))
    then Err (OtherError (PurePath.str p +:+ " has an empty name"))
    else Ok (removelast p ++
             [(if negb (PyStr.truthy (PurePath.suffix p)) then PurePath.name p
               else PyStr.take (String.length (PurePath.name p)
                                - String.length (PurePath.suffix p)) (PurePath.name p))
              +:+ ".jxl"]).
Proof.
  unfold PurePath.with_suffix. cbn [PyStr.contains PyStr.truthy].
  change (PyStr.contains PurePath.sep ".jxl") with false.
  change (String.prefix "." ".jxl") with true.
  change (String.eqb ".jxl" ".") with false.
  cbn. destruct (negb (PyStr.truthy (PurePath.name p))); [reflexivity|].
  destruct (negb (PyStr.truthy (PurePath.suffix p))); reflexivity.
Qed.

(** ** One call of [convert_image], against any handler *)

Section ConvertImage.

Context {W : Type}.
Variable h : Handler W.
Variable self : ImageConverter.
Variable image_path : Path.

(** The call, answer by answer. *)
Lemma convert_image_exec (w : W) :
  exec h (convert_image self image_path) w =
    match PurePath.with_suffix image_path ".jxl" with
    | Err e => (Returned (failed_with image_path e), w)
    | Ok out =>
        let a1 := h _ (PathExists out) w in
        match a1.1 with
        | Err e => (Returned (failed_with image_path e), a1.2)
        | Ok true => (Returned (false, image_path, Some out, skip_message), a1.2)
        | Ok false =>
            let a2 := h _ (SubprocessRun (cjxl_command self image_path out) true true 300) a1.2 in
            match a2.1 with
            | Err e => (Returned (failed_with image_path e), a2.2)
            | Ok result =>
                if returncode result =? 0 then
                  let a3 := h _ (PathExists out) a2.2 in
                  match a3.1 with
                  | Err e => (Returned (failed_with image_path e), a3.2)
                  | Ok true => (Returned (true, image_path, Some out, ""), a3.2)
                  | Ok false => (Returned (false, image_path, None, error_msg_of result), a3.2)
                  end
                else (Returned (false, image_path, None, error_msg_of result), a2.2)
            end
        end
    end.
Proof.
  unfold convert_image.
  destruct (PurePath.with_suffix image_path ".jxl") as [out|e]; cbn.
  2: { destruct e; reflexivity. }
  destruct (h _ (PathExists out) w) as [[[|]|e] w1]; cbn; try (destruct e; reflexivity).
  - reflexivity.
  - destruct (h _ (SubprocessRun _ true true 300) w1) as [[result|e] w2]; cbn;
      try (destruct e; reflexivity).
    destruct (returncode result =? 0); cbn; [|reflexivity].
    destruct (h _ (PathExists out) w2) as [[[|]|e] w3]; cbn; try (destruct e; reflexivity);
      reflexivity.
Qed.

Lemma convert_image_trace (w : W) :
  trace h (convert_image self image_path) w =
    match PurePath.with_suffix image_path ".jxl" with
    | Err e => []
    | Ok out =>
        let a1 := h _ (PathExists out) w in
        Ev (PathExists out) a1.1 ::
        match a1.1 with
        | Ok false =>
            let cmd := cjxl_command self image_path out in
            let a2 := h _ (SubprocessRun cmd true true 300) a1.2 in
            Ev (SubprocessRun cmd true true 300) a2.1 ::
            match a2.1 with
            | Ok result =>
                if returncode result =? 0
                then [Ev (PathExists out) (h _ (PathExists out) a2.2).1]
                else []
            | Err _ => []
            end
        | _ => []
        end
    end.
Proof.
  unfold convert_image.
  destruct (PurePath.with_suffix image_path ".jxl") as [out|e]; cbn.
  2: { destruct e; reflexivity. }
  destruct (h _ (PathExists out) w) as [[[|]|e] w1]; cbn; try (destruct e; reflexivity).
  - reflexivity.
  - destruct (h _ (SubprocessRun _ true true 300) w1) as [[result|e] w2]; cbn;
      try (destruct e; reflexivity).
    destruct (returncode result =? 0); cbn; [|reflexivity].
    destruct (h _ (PathExists out) w2) as [[[|]|e] w3]; cbn; try (destruct e; reflexivity);
      reflexivity.
Qed.

End ConvertImage.

(** ** The outcome of one conversion *)

Lemma init_exec {W : Type} (h : Handler W) (root : Path) (workers e : Z) (w : W)
    (self : ImageConverter) :
  (exec h (init root workers e) w).1 = Returned self ->
  self = {| root_dir := root; max_workers := workers;
            effort := Z.min (Z.max e 1) 9;
            converted_files := []; failed_files := [] |}.
Proof.
  unfold init. cbn.
  destruct (h _ (ShutilWhich "cjxl") w) as [[found|] w1]; cbn.
  - intros [= <-]. reflexivity.
  - discriminate.
Qed.

(** C2, as amended.  When the output does not exist yet and the subprocess
    returns normally, the result is the success tuple exactly when the exit
    code is 0 and the output exists afterwards; in the other cases it is a
    failure tuple whose text is the stripped stderr if that is non-empty, else
    the stripped stdout if that is non-empty, else the fixed message. *)
Theorem convert_image_normal_exit {W : Type} (h : Handler W) (self : ImageConverter)
    (image_path out : Path) (result : CompletedProcess) (exists_after : bool) (w : W) :
  PurePath.with_suffix image_path ".jxl" = Ok out ->
  (h _ (PathExists out) w).1 = Ok false ->
  let w1 := (h _ (PathExists out) w).2 in
  let run := h _ (SubprocessRun (cjxl_command self image_path out) true true 300) w1 in
  run.1 = Ok result ->
  (h _ (PathExists out) run.2).1 = Ok exists_after ->
  let r := (exec h (convert_image self image_path) w).1 in
  (r = Returned (true, image_path, Some out, "") <->
     returncode result = 0 /\ exists_after = true) /\
  (~ (returncode result = 0 /\ exists_after = true) ->
     r = Returned (false, image_path, None,
                   if PyStr.truthy (PyStr.strip (stderr result))
                   then PyStr.strip (stderr result)
                   else if PyStr.truthy (PyStr.strip (stdout result))
                        then PyStr.strip (stdout result)
                        else failure_message)).
Proof.
  intros Hout H1 w1 run H2 H3 r. subst r.
  rewrite convert_image_exec, Hout. cbn zeta. rewrite H1.
  fold w1. fold run. rewrite H2.
  assert (Hmsg : error_msg_of result =
                 if PyStr.truthy (PyStr.strip (stderr result))
                 then PyStr.strip (stderr result)
                 else if PyStr.truthy (PyStr.strip (stdout result))
                      then PyStr.strip (stdout result)
                      else failure_message) by reflexivity.
  rewrite <- Hmsg.
  destruct (Z.eqb_spec (returncode result) 0) as [Hrc|Hrc].
  - rewrite H3. destruct exists_after; cbn.
    + split; [split; auto | intros []; auto].
    + split; [split; [discriminate | intros [_ ?]; discriminate] | reflexivity].
  - cbn. split; [split; [discriminate | intros [? _]; contradiction] | reflexivity].
Qed.

Lemma convert_image_normal_exit_witness :
  let h := Posix.handler (Scenario.machine Scenario.judge) in
  let w := Scenario.at_start Scenario.pics in
  let r := (exec h (convert_image (Scenario.converter 2 7) ["pics"; "d.gif"]) w).1 in
  (r = Returned (true, ["pics"; "d.gif"], Some ["pics"; "d.jxl"], "") <->
     1 = 0 /\ false = true) /\
  (~ (1 = 0 /\ false = true) ->
     r = Returned (false, ["pics"; "d.gif"], None, "bad input")).
Proof.
  exact (convert_image_normal_exit
           (Posix.handler (Scenario.machine Scenario.judge)) (Scenario.converter 2 7)
           ["pics"; "d.gif"] ["pics"; "d.jxl"]
           {| returncode := 1; stdout := "bad input";
              stderr := " " +:+ Scenario.newline |}
           false (Scenario.at_start Scenario.pics)
           eq_refl eq_refl eq_refl eq_refl).
Defined.

(** C2 as stated does not hold: with stderr ["boom\n"] the text of the
    failure is ["boom"], not the captured stderr; and with a blank stderr
    the text is taken from stdout although stderr is not empty. *)
Lemma diagnostic_is_not_the_captured_stderr :
  let h := Posix.handler (Scenario.machine Scenario.judge) in
  let w := Scenario.at_start Scenario.pics in
  let boom := {| returncode := 1; stdout := "";
                 stderr := "boom" +:+ Scenario.newline |} in
  let blank := {| returncode := 1; stdout := "bad input";
                  stderr := " " +:+ Scenario.newline |} in
  (h _ (PathExists ["pics"; "c.jxl"]) w).1 = Ok false /\
  (h _ (SubprocessRun (cjxl_command (Scenario.converter 2 7) ["pics"; "c.bmp"]
                         ["pics"; "c.jxl"]) true true 300) w).1 = Ok boom /\
  (exec h (convert_image (Scenario.converter 2 7) ["pics"; "c.bmp"]) w).1
    = Returned (false, ["pics"; "c.bmp"], None, "boom") /\
  spec_diagnostic boom = "boom" +:+ Scenario.newline /\
  "boom" <> spec_diagnostic boom /\
  (h _ (SubprocessRun (cjxl_command (Scenario.converter 2 7) ["pics"; "d.gif"]
                         ["pics"; "d.jxl"]) true true 300) w).1 = Ok blank /\
  (exec h (convert_image (Scenario.converter 2 7) ["pics"; "d.gif"]) w).1
    = Returned (false, ["pics"; "d.gif"], None, "bad input") /\
  "bad input" <> spec_diagnostic blank.
Proof.
  cbv zeta. repeat split; try reflexivity; vm_compute; discriminate.
Qed.

(** A stderr of spaces beyond ASCII is blank as well: the text is then that
    of stdout. *)
Example blank_stderr_beyond_ascii :
  error_msg_of {| returncode := 1; stdout := "bad input" +:+ Scenario.next_line;
                  stderr := Scenario.no_break_space +:+ Scenario.ideographic_space |}
  = "bad input".
Proof. reflexivity. Qed.

(** The guard of lines 59-60: when the output exists the call returns the
    skip tuple and starts no subprocess. *)
Lemma convert_image_skips_existing {W : Type} (h : Handler W) (self : ImageConverter)
    (image_path out : Path) (w : W) :
  PurePath.with_suffix image_path ".jxl" = Ok out ->
  (h _ (PathExists out) w).1 = Ok true ->
  (exec h (convert_image self image_path) w).1
    = Returned (false, image_path, Some out, skip_message) /\
  spawned (trace h (convert_image self image_path) w) = [].
Proof.
  intros Hout H1. rewrite convert_image_exec, convert_image_trace, Hout. cbn zeta.
  rewrite H1. split; reflexivity.
Qed.

(** C4.  The effort of a constructed converter is the argument clamped into
    1..9, so that its text is one digit from 1 to 9.  A call of
    [convert_image] that finds no output yet starts exactly one subprocess,
    with the command line
    [cjxl <input> <output> -d 0 -e <effort> --num_threads=1]; a call that
    finds the output, or whose question about it raises, or that can form
    no output path, starts none. *)
Theorem cjxl_command_line {W : Type} (h : Handler W) (root : Path) (workers e : Z)
    (self : ImageConverter) (image_path : Path) (w0 w : W) :
  (exec h (init root workers e) w0).1 = Returned self ->
  (1 <= effort self <= 9 /\
   (e < 1 -> effort self = 1) /\ (9 < e -> effort self = 9) /\
   (1 <= e <= 9 -> effort self = e)) /\
  PyStr.of_Z (effort self) ∈ ["1"; "2"; "3"; "4"; "5"; "6"; "7"; "8"; "9"] /\
  (forall out : Path,
      PurePath.with_suffix image_path ".jxl" = Ok out ->
      ((h _ (PathExists out) w).1 = Ok false ->
       spawned (trace h (convert_image self image_path) w) =
         [ [ "cjxl"; PurePath.str image_path; PurePath.str out;
             "-d"; "0"; "-e"; PyStr.of_Z (effort self); "--num_threads=1" ] ]) /\
      ((h _ (PathExists out) w).1 <> Ok false ->
       spawned (trace h (convert_image self image_path) w) = [])) /\
  (forall err : Error,
      PurePath.with_suffix image_path ".jxl" = Err err ->
      spawned (trace h (convert_image self image_path) w) = []).
Proof.
  intros Hinit. apply init_exec in Hinit.
  assert (Hrange : 1 <= effort self <= 9) by (subst self; cbn [effort]; lia).
  split; [subst self; cbn [effort]; lia|]. split.
  { assert (Hcases : effort self = 1 \/ effort self = 2 \/ effort self = 3 \/
                     effort self = 4 \/ effort self = 5 \/ effort self = 6 \/
                     effort self = 7 \/ effort self = 8 \/ effort self = 9) by lia.
    repeat (destruct Hcases as [->|Hcases]; [apply list_elem_of_In; cbn; auto 10|]).
    rewrite Hcases. apply list_elem_of_In; cbn; auto 10. }
  rewrite convert_image_trace. split.
  - intros out ->. cbn zeta. split.
    + intros ->.
      destruct (h _ (SubprocessRun _ true true 300) _) as [[result|err] w2];
        cbn [fst snd]; [destruct (returncode result =? 0)|]; reflexivity.
    + intros Hne. destruct ((h _ (PathExists out) w).1) as [[|]|err];
        [reflexivity | destruct Hne; reflexivity | reflexivity].
  - intros err ->. reflexivity.
Qed.

Lemma cjxl_command_line_witness :
  let h := Posix.handler (Scenario.machine Scenario.judge) in
  let w := Scenario.at_start Scenario.pics in
  let self := Scenario.converter 2 42 in
  (1 <= effort self <= 9 /\
   (42 < 1 -> effort self = 1) /\ (9 < 42 -> effort self = 9) /\
   (1 <= 42 <= 9 -> effort self = 42)) /\
  spawned (trace h (convert_image self ["pics"; "a.png"]) w) =
    [ [ "cjxl"; "pics/a.png"; "pics/a.jxl"; "-d"; "0"; "-e"; "9"; "--num_threads=1" ] ] /\
  spawned (trace h (convert_image self ["pics"; "b.jpg"]) w) = [].
Proof.
  intros h w self.
  destruct (cjxl_command_line h ["pics"] 2 42 self ["pics"; "a.png"] w w eq_refl)
    as (Hclamp & _ & Hruns & _).
  destruct (cjxl_command_line h ["pics"] 2 42 self ["pics"; "b.jpg"] w w eq_refl)
    as (_ & _ & Hskips & _).
  split; [exact Hclamp|]. split.
  - exact (proj1 (Hruns ["pics"; "a.jxl"] eq_refl) eq_refl).
  - apply (proj2 (Hskips ["pics"; "b.jxl"] eq_refl)). discriminate.
Defined.

(** C5.  Every call of [convert_image] returns a result tuple, whatever the
    handler answers.  When a call made on the way raised, or no output path
    could be formed, the tuple is a failure: with the timeout message for
    [TimeoutExpired], with the text of the exception otherwise.  The
    subprocess, when started, is given the timeout of 300 seconds. *)
Theorem convert_image_total {W : Type} (h : Handler W) (self : ImageConverter)
    (image_path : Path) (w : W) :
  exists r : ConvResult,
    (exec h (convert_image self image_path) w).1 = Returned r /\
    (forall ev e, ev ∈ trace h (convert_image self image_path) w ->
                  raised_by ev = Some e ->
                  r = (false, image_path, None,
                       match e with
                       | TimeoutExpired => timeout_message
                       | OtherError text => text
                       end)) /\
    (forall e, PurePath.with_suffix image_path ".jxl" = Err e ->
               r = (false, image_path, None, str_of_error e)) /\
    (forall cmd capture text timeout x,
        Ev (SubprocessRun cmd capture text timeout) x
          ∈ trace h (convert_image self image_path) w ->
        timeout = 300).
Proof.
  rewrite convert_image_exec, convert_image_trace.
  destruct (PurePath.with_suffix image_path ".jxl") as [out|err] eqn:Hout.
  2: { eexists; split; [reflexivity|]. repeat split.
       - intros ev e Hin. inversion Hin.
       - intros e [= <-]. unfold failed_with. rewrite with_suffix_jxl in Hout.
         destruct (negb _); inversion Hout. reflexivity.
       - intros ????? Hin. inversion Hin. }
  cbn zeta.
  destruct (h _ (PathExists out) w) as [a1 w1]; cbn [fst snd].
  destruct a1 as [[|]|e1].
  - eexists; split; [reflexivity|]. repeat split.
    + intros ev e Hin Hr. apply list_elem_of_singleton in Hin. subst ev. discriminate.
    + discriminate.
    + intros ????? Hin. apply list_elem_of_singleton in Hin. inversion Hin.
  - destruct (h _ (SubprocessRun _ true true 300) w1) as [a2 w2]; cbn [fst snd].
    destruct a2 as [result|e2].
    + destruct (returncode result =? 0).
      * destruct (h _ (PathExists out) w2) as [a3 w3]; cbn [fst snd].
        destruct a3 as [[|]|e3]; (eexists; split; [reflexivity|]); repeat split;
          try discriminate.
        all: try (intros ev e Hin Hr; repeat (apply elem_of_cons in Hin as [->|Hin]);
                  try discriminate; try (inversion Hin; fail);
                  cbn in Hr; inversion Hr; subst; reflexivity).
        all: intros ????? Hin; repeat (apply elem_of_cons in Hin as [Heq|Hin]);
          try (inversion Hin; fail); inversion Heq; reflexivity.
      * eexists; split; [reflexivity|]. repeat split; try discriminate.
        -- intros ev e Hin Hr; repeat (apply elem_of_cons in Hin as [->|Hin]);
             try discriminate; inversion Hin.
        -- intros ????? Hin; repeat (apply elem_of_cons in Hin as [Heq|Hin]);
             try (inversion Hin; fail); inversion Heq; reflexivity.
    + eexists; split; [reflexivity|]. repeat split; try discriminate.
      * intros ev e Hin Hr; repeat (apply elem_of_cons in Hin as [->|Hin]);
          try discriminate; try (inversion Hin; fail).
        cbn in Hr. inversion Hr; subst. reflexivity.
      * intros ????? Hin; repeat (apply elem_of_cons in Hin as [Heq|Hin]);
          try (inversion Hin; fail); inversion Heq; reflexivity.
  - eexists; split; [reflexivity|]. repeat split; try discriminate.
    + intros ev e Hin Hr. apply list_elem_of_singleton in Hin. subst ev.
      cbn in Hr. inversion Hr; subst. reflexivity.
    + intros ????? Hin. apply list_elem_of_singleton in Hin. inversion Hin.
Qed.

Lemma convert_image_total_witness :
  (exec (Posix.handler (Scenario.machine Scenario.busy))
     (convert_image (Scenario.converter 2 7) ["pics"; "big.png"])
     (Scenario.at_start Scenario.large)).1
  = Returned (false, ["pics"; "big.png"], None, timeout_message).
Proof.
  destruct (convert_image_total (Posix.handler (Scenario.machine Scenario.busy))
              (Scenario.converter 2 7) ["pics"; "big.png"]
              (Scenario.at_start Scenario.large)) as (r & Hr & Hraised & _).
  rewrite Hr. f_equal.
  apply (Hraised
           (Ev (SubprocessRun (cjxl_command (Scenario.converter 2 7) ["pics"; "big.png"]
                                 ["pics"; "big.jxl"]) true true 300)
               (Err TimeoutExpired))
           TimeoutExpired); [|reflexivity].
  apply list_elem_of_In. vm_compute. right. left. reflexivity.
Defined.

(** ** Running composed programs *)

Section ExecLemmas.

Context {W : Type}.
Variable h : Handler W.

Lemma exec_bind {A B : Type} (p : Prog A) (f : A -> Prog B) (w : W) :
  exec h (bind p f) w =
    match exec h p w with
    | (Returned a, w') => exec h (f a) w'
    | (Raised e, w') => (Raised e, w')
    end.
Proof.
  revert w. induction p as [a|e|X e k IH]; intros w; cbn; try reflexivity.
  apply IH.
Qed.

Lemma trace_bind {A B : Type} (p : Prog A) (f : A -> Prog B) (w : W) :
  trace h (bind p f) w =
    trace h p w ++
    match exec h p w with
    | (Returned a, w') => trace h (f a) w'
    | (Raised e, w') => []
    end.
Proof.
  revert w. induction p as [a|e|X e k IH]; intros w; cbn; try reflexivity.
  f_equal. apply IH.
Qed.

Lemma exec_try_except {R : Type} (p : Prog R) (hd : Error -> Prog R) (w : W) :
  exec h (try_except p hd) w =
    match exec h p w with
    | (Returned r, w') => (Returned r, w')
    | (Raised (Exc e), w') => exec h (hd e) w'
    | (Raised (SystemExit c), w') => (Raised (SystemExit c), w')
    end.
Proof.
  revert w. induction p as [a|e|X e k IH]; intros w; cbn; try reflexivity.
  - destruct e; reflexivity.
  - apply IH.
Qed.

Lemma trace_try_except {R : Type} (p : Prog R) (hd : Error -> Prog R) (w : W) :
  trace h (try_except p hd) w =
    trace h p w ++
    match exec h p w with
    | (Raised (Exc e), w') => trace h (hd e) w'
    | _ => []
    end.
Proof.
  revert w. induction p as [a|e|X e k IH]; intros w; cbn; try reflexivity.
  - destruct e; cbn; reflexivity.
  - f_equal. apply IH.
Qed.

End ExecLemmas.

Lemma spawned_app (t1 t2 : list Event) : spawned (t1 ++ t2) = spawned t1 ++ spawned t2.
Proof. unfold spawned. apply flat_map_app. Qed.

Lemma unlinked_app (t1 t2 : list Event) : unlinked (t1 ++ t2) = unlinked t1 ++ unlinked t2.
Proof. unfold unlinked. apply flat_map_app. Qed.

Lemma printed_app (t1 t2 : list Event) : printed (t1 ++ t2) = printed t1 ++ printed t2.
Proof. unfold printed. apply flat_map_app. Qed.

(** ** The compression ratio *)

Lemma Q_of_N_positive (n : N) : n <> 0%N -> Qpositive (Q_of_N n) = true.
Proof.
  intros Hn. unfold Qpositive, Q_of_N, Qle_bool. cbn.
  apply negb_true_iff, Z.leb_gt. lia.
Qed.

Lemma Qpositive_nonzero (q : Q) : Qpositive q = true -> Qeq_bool q 0 = false.
Proof.
  unfold Qpositive. intros Hq. apply negb_true_iff in Hq.
  destruct (Qeq_bool q 0) eqn:He; [|reflexivity].
  apply Qeq_bool_iff in He.
  assert (Hle : Qle_bool q 0 = true) by (apply Qle_bool_iff; rewrite He; apply Qle_refl).
  congruence.
Qed.

Lemma ratio_of_positive (new original : Q) :
  Qpositive original = true -> ratio_of new original = Ok (new / original * 100)%Q.
Proof.
  intros Hq. unfold ratio_of, truediv. rewrite Hq, (Qpositive_nonzero _ Hq). reflexivity.
Qed.

Lemma mebibytes_positive (q : Q) : Qpositive q = true -> Qpositive (mebibytes q) = true.
Proof.
  unfold Qpositive. intros Hq. apply negb_true_iff in Hq. apply negb_true_iff.
  destruct (Qle_bool (mebibytes q) 0) eqn:Hle; [|reflexivity].
  apply Qle_bool_iff in Hle.
  assert (Hq' : Qle_bool q 0 = true); [|congruence].
  apply Qle_bool_iff. unfold mebibytes in Hle.
  unfold Qle, Qdiv, Qmult, Qinv in *. cbn in *. lia.
Qed.

(** The two ratio expressions on byte counts: [new / original * 100], and
    0 for an original of no bytes. *)
Lemma ratio_of_sizes (new_bytes original_bytes : N) :
  let per_file := ratio_of (mebibytes (Q_of_N new_bytes)) (mebibytes (Q_of_N original_bytes)) in
  let overall := ratio_of (Q_of_N new_bytes) (Q_of_N original_bytes) in
  (original_bytes = 0%N -> per_file = Ok 0%Q /\ overall = Ok 0%Q) /\
  (original_bytes <> 0%N ->
   exists q1 q2 : Q,
     per_file = Ok q1 /\ overall = Ok q2 /\
     (q1 == Q_of_N new_bytes / Q_of_N original_bytes * 100)%Q /\
     (q2 == Q_of_N new_bytes / Q_of_N original_bytes * 100)%Q).
Proof.
  cbv zeta. split.
  - intros ->. split; reflexivity.
  - intros Hn. pose proof (Q_of_N_positive _ Hn) as Hpos.
    rewrite (ratio_of_positive _ _ Hpos).
    rewrite (ratio_of_positive _ _ (mebibytes_positive _ Hpos)).
    assert (Hne : ~ (Q_of_N original_bytes == 0)%Q).
    { intros He. apply Qeq_bool_iff in He.
      rewrite (Qpositive_nonzero _ Hpos) in He. discriminate. }
    eexists _, _. split; [reflexivity|]. split; [reflexivity|]. split; [|reflexivity].
    unfold mebibytes. field. exact Hne.
Qed.

(** ** Deleting the originals *)

Lemma last_app_Some_event (t1 t2 : list Event) (ev : Event) :
  last t2 = Some ev -> last (t1 ++ t2) = Some ev.
Proof.
  intros [l ->]%last_Some. rewrite app_assoc. apply last_snoc.
Qed.

Section Delete.

Context {W : Type}.
Variable h : Handler W.

(** One turn of the loop: one attempt, whatever it answers.  The turn
    returns unless standard output refuses the line of the failure; both
    counters go up when it refuses the line of the success only. *)
Lemma delete_one_turn (original : Path) (new_path : option Path) (deleted failed : nat)
    (w : W) (body := delete_one (original, new_path) (deleted, failed)) :
  unlinked (trace h body w) = [original] /\
  spawned (trace h body w) = [] /\
  ~ MsgNothingToDelete ∈ printed (trace h body w) /\
  (refused (trace h body w) = [] -> exists c, (exec h body w).1 = Returned c) /\
  match (exec h body w).1 with
  | Returned (d, f) =>
      d = (deleted + deletions (trace h body w))%nat /\
      (d + f = S (deleted + failed) + length (refused (trace h body w)))%nat
  | Raised e =>
      exists (m : Msg) (err : Error),
        e = Exc err /\ last (trace h body w) = Some (Ev (PrintText m) (Err err))
  end.
Proof.
  subst body. unfold delete_one, deletions, print_text. cbn.
  assert (Hnot : forall l : list Msg,
             Forall (fun m => m <> MsgNothingToDelete) l -> ~ MsgNothingToDelete ∈ l).
  { intros l Hl Hin. rewrite Forall_forall in Hl. exact (Hl _ Hin eq_refl). }
  destruct (h _ (PathUnlink original) w) as [[[]|e] w1]; cbn.
  - destruct (h _ (PrintText (MsgDeleted original)) w1) as [[[]|e1] w2]; cbn.
    + split; [reflexivity|]. split; [reflexivity|].
      split; [apply Hnot; repeat constructor; discriminate|].
      split; [eexists; reflexivity|]. split; lia.
    + destruct (h _ (PrintText (MsgDeleteFailed original (str_of_error e1))) w2)
        as [[[]|e2] w3]; cbn.
      * split; [reflexivity|]. split; [reflexivity|].
        split; [apply Hnot; repeat constructor; discriminate|].
        split; [discriminate|]. split; lia.
      * split; [reflexivity|]. split; [reflexivity|].
        split; [apply Hnot; constructor|].
        split; [discriminate|]. eexists _, _. split; reflexivity.
  - destruct (h _ (PrintText (MsgDeleteFailed original (str_of_error e))) w1)
      as [[[]|e2] w2]; cbn.
    + split; [reflexivity|]. split; [reflexivity|].
      split; [apply Hnot; repeat constructor; discriminate|].
      split; [eexists; reflexivity|]. split; lia.
    + split; [reflexivity|]. split; [reflexivity|].
      split; [apply Hnot; constructor|].
      split; [discriminate|]. eexists _, _. split; reflexivity.
Qed.

Lemma refused_app (t1 t2 : list Event) : refused (t1 ++ t2) = refused t1 ++ refused t2.
Proof. apply flat_map_app. Qed.

(** The loop: the attempts are those of the pairs in order, as far as the
    loop gets; it gets to the end unless standard output refuses a line of
    a failure. *)
Lemma delete_loop_turns (files : list (Path * option Path)) :
  forall (deleted failed : nat) (w : W),
  let loop := for_each files delete_one (deleted, failed) in
  unlinked (trace h loop w) `prefix_of` map fst files /\
  spawned (trace h loop w) = [] /\
  ~ MsgNothingToDelete ∈ printed (trace h loop w) /\
  (refused (trace h loop w) = [] -> exists c, (exec h loop w).1 = Returned c) /\
  match (exec h loop w).1 with
  | Returned (d, f) =>
      unlinked (trace h loop w) = map fst files /\
      d = (deleted + deletions (trace h loop w))%nat /\
      (d + f = deleted + failed + length files + length (refused (trace h loop w)))%nat
  | Raised e =>
      exists (m : Msg) (err : Error),
        e = Exc err /\ last (trace h loop w) = Some (Ev (PrintText m) (Err err))
  end.
Proof.
  induction files as [|[original new_path] files IH]; intros deleted failed w loop.
  - subst loop. cbn. unfold deletions. cbn.
    split; [reflexivity|]. split; [reflexivity|]. split; [apply not_elem_of_nil|].
    split; [eexists; reflexivity|]. repeat split; lia.
  - subst loop. cbn [for_each].
    destruct (delete_one_turn original new_path deleted failed w)
      as (Hun & Hsp & Hno & Hclear & Hturn).
    rewrite exec_bind, trace_bind.
    destruct (exec h (delete_one (original, new_path) (deleted, failed)) w)
      as [[[d1 f1]|e] w1] eqn:Hrun; cbn [fst snd] in *.
    + destruct (IH d1 f1 w1) as (Hpre & Hsp' & Hno' & Hclear' & Hrest).
      destruct Hturn as [Hd Hsum].
      rewrite unlinked_app, spawned_app, printed_app, refused_app, Hun, Hsp, Hsp'.
      split; [cbn; apply prefix_cons; exact Hpre|]. split; [reflexivity|].
      split; [intros [Hin|Hin]%elem_of_app; [exact (Hno Hin) | exact (Hno' Hin)]|].
      split.
      { intros [_ Hnone]%app_eq_nil. exact (Hclear' Hnone). }
      destruct (exec h (for_each files delete_one (d1, f1)) w1) as [[[d f]|e] w2];
        cbn [fst] in *.
      * destruct Hrest as (Hall & Hd' & Hsum'). rewrite Hall.
        split; [reflexivity|]. unfold deletions in *.
        rewrite List.filter_app, !length_app. cbn [length]. split; lia.
      * destruct Hrest as (m & err & -> & Hlast). exists m, err.
        split; [reflexivity|]. apply last_app_Some_event. exact Hlast.
    + rewrite app_nil_r, Hun, Hsp.
      split; [cbn; apply prefix_cons, prefix_nil|]. split; [reflexivity|].
      split; [exact Hno|].
      split; [intros Hnone; destruct (Hclear Hnone) as [c Hc]; discriminate|].
      exact Hturn.
Qed.

(** [delete_originals], for every handler. *)
Lemma delete_originals_turns (self : ImageConverter) (w : W) :
  let t := trace h (delete_originals self) w in
  unlinked t `prefix_of` map fst (converted_files self) /\
  spawned t = [] /\
  (refused t = [] -> (exec h (delete_originals self) w).1 = Returned tt) /\
  match (exec h (delete_originals self) w).1 with
  | Returned _ =>
      unlinked t = map fst (converted_files self) /\
      match converted_files self with
      | [] => printed t = [MsgNothingToDelete]
      | _ :: _ =>
          exists deleted failed : nat,
            last (printed t) = Some (MsgDeleteSummary deleted failed) /\
            deleted = deletions t /\
            (deleted + failed
             = length (converted_files self) + length (refused t))%nat
      end
  | Raised e =>
      exists (m : Msg) (err : Error),
        e = Exc err /\ last t = Some (Ev (PrintText m) (Err err))
  end.
Proof.
  cbv zeta. unfold delete_originals.
  destruct (converted_files self) as [|pair files] eqn:Hfiles.
  - cbn. destruct (h _ (Print MsgNothingToDelete) w) as [[] w1].
    split; [reflexivity|]. repeat split.
  - set (l := pair :: files).
    rewrite exec_bind, trace_bind. cbn [print perform exec trace fst snd].
    rewrite exec_bind, trace_bind.
    set (w1 := (h _ (Print (MsgAboutToDelete (length l))) w).2).
    destruct (delete_loop_turns l 0 0 w1) as (Hpre & Hsp & _ & Hclear & Hloop).
    cbv zeta in Hpre, Hsp, Hclear, Hloop.
    set (t0 := [Ev (Print (MsgAboutToDelete (length l)))
                  (h _ (Print (MsgAboutToDelete (length l))) w).1]).
    set (t1 := trace h (for_each l delete_one (0%nat, 0%nat)) w1) in *.
    change (Ev (Print (MsgAboutToDelete (length l)))
              (h _ (Print (MsgAboutToDelete (length l))) w).1 :: ?t)
      with (t0 ++ t).
    destruct (exec h (for_each l delete_one (0%nat, 0%nat)) w1) as [[[d f]|e] w2]
      eqn:Hrun; cbn [fst snd exec trace] in *.
    + assert (Ht2 : trace h (print (MsgDeleteSummary d f)) w2
                    = [Ev (Print (MsgDeleteSummary d f)) tt]).
      { cbn. destruct (h _ (Print (MsgDeleteSummary d f)) w2) as [[] w3]. reflexivity. }
      assert (Hex : (exec h (print (MsgDeleteSummary d f)) w2).1 = Returned tt).
      { cbn. destruct (h _ (Print (MsgDeleteSummary d f)) w2) as [[] w3]. reflexivity. }
      rewrite Ht2, Hex. destruct Hloop as (Hall & Hd & Hsum).
      rewrite !unlinked_app, !spawned_app, !refused_app, !printed_app, Hall, Hsp.
      cbn [t0 unlinked unlinked_of spawned spawned_of refused refused_of printed
             printed_of flat_map app].
      rewrite !app_nil_r.
      split; [reflexivity|]. split; [reflexivity|]. split; [reflexivity|].
      split; [reflexivity|]. exists d, f.
      split; [rewrite app_comm_cons; apply last_snoc|].
      split; [|lia]. rewrite Hd. unfold deletions.
      cbn [List.filter unlink_succeeded].
      rewrite List.filter_app, length_app. cbn. lia.
    + rewrite app_nil_r, !unlinked_app, !spawned_app, !refused_app, Hsp.
      cbn [t0 unlinked unlinked_of spawned spawned_of refused refused_of flat_map app].
      split; [exact Hpre|]. split; [reflexivity|].
      split; [intros Hnone; destruct (Hclear Hnone) as [c Hc]; discriminate|].
      destruct Hloop as (m & err & -> & Hlast). exists m, err.
      split; [reflexivity|]. apply (last_app_Some_event [_]). exact Hlast.
Qed.

End Delete.

(** C8, as amended.  [delete_originals] attempts the deletion of the
    originals of the success list in order, one attempt for each, whatever
    the earlier attempts answered, for as long as it runs: the attempts made
    are always the first of the list.  When standard output refuses none of
    its lines it returns normally, there is one attempt for every pair, and
    the tally printed adds up to the number of pairs, the first count being
    the deletions that succeeded; with an empty list it attempts nothing
    and prints only that there is nothing to delete.  It ends early only by
    the exception of a line that standard output refused. *)
Theorem delete_originals_attempts_each {W : Type} (h : Handler W) (self : ImageConverter)
    (w : W) :
  let t := trace h (delete_originals self) w in
  let K := length (converted_files self) in
  let o := (exec h (delete_originals self) w).1 in
  unlinked t `prefix_of` map fst (converted_files self) /\
  (refused t = [] ->
   o = Returned tt /\
   unlinked t = map fst (converted_files self) /\
   length (unlinked t) = K /\
   (K = 0%nat -> unlinked t = [] /\ printed t = [MsgNothingToDelete]) /\
   (K <> 0%nat ->
    exists deleted failed : nat,
      last (printed t) = Some (MsgDeleteSummary deleted failed) /\
      (deleted + failed = K)%nat /\
      deleted = deletions t)) /\
  (o = Returned tt ->
   unlinked t = map fst (converted_files self) /\
   (K <> 0%nat ->
    exists deleted failed : nat,
      last (printed t) = Some (MsgDeleteSummary deleted failed) /\
      (deleted + failed = K + length (refused t))%nat /\
      deleted = deletions t)) /\
  (forall e : Exn, o = Raised e ->
     exists (m : Msg) (err : Error),
       e = Exc err /\ last t = Some (Ev (PrintText m) (Err err)) /\ m ∈ refused t).
Proof.
  cbv zeta.
  destruct (delete_originals_turns h self w) as (Hpre & _ & Hclear & Hcases).
  cbv zeta in Hpre, Hclear, Hcases.
  split; [exact Hpre|]. split; [|split].
  - intros Hnone. specialize (Hclear Hnone). rewrite Hclear in Hcases.
    destruct Hcases as [Hall Htally]. split; [exact Hclear|]. split; [exact Hall|].
    split; [rewrite Hall; apply length_map|].
    destruct (converted_files self) as [|pair files].
    + split; [intros _; split; [exact Hall | exact Htally] | intros Hne; destruct Hne;
                                                              reflexivity].
    + split; [discriminate|]. intros _.
      destruct Htally as (d & f & Hlast & Hd & Hsum). exists d, f.
      rewrite Hnone in Hsum. cbn [length] in *. repeat split; [exact Hlast | lia | exact Hd].
  - intros Ho. rewrite Ho in Hcases. destruct Hcases as [Hall Htally].
    split; [exact Hall|]. intros Hne.
    destruct (converted_files self) as [|pair files]; [destruct Hne; reflexivity|].
    destruct Htally as (d & f & Hlast & Hd & Hsum). exists d, f.
    repeat split; assumption.
  - intros e Ho. rewrite Ho in Hcases. destruct Hcases as (m & err & -> & Hlast).
    exists m, err. split; [reflexivity|]. split; [exact Hlast|].
    apply last_Some in Hlast as [l ->]. rewrite refused_app. apply elem_of_app. right.
    apply elem_of_cons. left. reflexivity.
Qed.

Lemma delete_originals_attempts_each_witness :
  let h := Posix.handler (Scenario.machine Scenario.judge) in
  let w := Scenario.at_start Scenario.pics in
  let t := trace h (delete_originals Scenario.after_batch) w in
  refused t = [] /\
  (exec h (delete_originals Scenario.after_batch) w).1 = Returned tt /\
  unlinked t = [["pics"; "a.png"]; ["pics"; "gone.png"]; ["pics"; "c.bmp"]] /\
  exists deleted failed : nat,
    last (printed t) = Some (MsgDeleteSummary deleted failed) /\
    (deleted + failed = 3)%nat /\
    deleted = deletions t.
Proof.
  intros h w t.
  assert (Hnone : refused t = []) by (vm_compute; reflexivity).
  destruct (delete_originals_attempts_each h Scenario.after_batch w)
    as (_ & Hclear & _ & _).
  destruct (Hclear Hnone) as (H1 & H2 & _ & _ & H5).
  split; [exact Hnone|]. split; [exact H1|]. split; [exact H2|]. apply H5. discriminate.
Defined.

(** One of three deletions fails; the other two are still made. *)
Example delete_originals_continues :
  let h := Posix.handler (Scenario.machine Scenario.judge) in
  let w := Scenario.at_start Scenario.pics in
  printed (trace h (delete_originals Scenario.after_batch) w)
  = [MsgAboutToDelete 3;
     MsgDeleted ["pics"; "a.png"];
     MsgDeleteFailed ["pics"; "gone.png"] "[Errno 2] No such file or directory";
     MsgDeleted ["pics"; "c.bmp"];
     MsgDeleteSummary 2 1] /\
  Posix.exists_ (Posix.fs (exec h (delete_originals Scenario.after_batch) w).2)
    ["pics"; "c.bmp"] = Ok false.
Proof. split; vm_compute; reflexivity. Qed.

(** C8 as stated does not hold.  The success list has two pairs; the first
    original lies in a directory whose name standard output cannot encode.
    Its deletion succeeds, the line that reports it is refused, the [except]
    clause counts a failure and its line is refused too: the function ends
    with that exception after one attempt of two, without a tally, and the
    second original is still there. *)
Lemma refused_line_ends_the_deletions :
  let h := Posix.handler (Scenario.terminal Scenario.judge_odd) in
  let w := Scenario.at_start Scenario.odd_converted in
  let t := trace h (delete_originals Scenario.after_odd) w in
  length (converted_files Scenario.after_odd) = 2%nat /\
  (exec h (delete_originals Scenario.after_odd) w).1 = Raised (Exc Posix.unencodable) /\
  unlinked t = [["pics"; Scenario.odd_name; "a.png"]] /\
  deletions t = 1%nat /\
  printed t = [MsgAboutToDelete 2] /\
  Posix.exists_ (Posix.fs (exec h (delete_originals Scenario.after_odd) w).2)
    ["pics"; "b.png"] = Ok true.
Proof. cbv zeta. repeat split; vm_compute; reflexivity. Qed.

(** ** Discovery *)

Lemma rfind_dot_jxl (stem : string) :
  PyStr.rfind "."%char (stem +:+ ".jxl") = Some (String.length stem).
Proof.
  induction stem as [|c stem IH]; [reflexivity|].
  change (String c stem +:+ ".jxl") with (String c (stem +:+ ".jxl")).
  cbn [PyStr.rfind String.length]. rewrite IH. reflexivity.
Qed.

Lemma drop_append (stem rest : string) :
  PyStr.drop (String.length stem) (stem +:+ rest) = rest.
Proof. induction stem as [|c stem IH]; [destruct rest; reflexivity | exact IH]. Qed.

Lemma length_drop (i : nat) (s : string) :
  String.length (PyStr.drop i s) = (String.length s - i)%nat.
Proof.
  revert s. induction i as [|i IH]; intros s.
  - cbn. lia.
  - destruct s as [|c s]; [reflexivity|]. cbn. apply IH.
Qed.

Lemma length_append (a b : string) :
  String.length (a +:+ b) = (String.length a + String.length b)%nat.
Proof.
  induction a as [|c a IH]; [reflexivity|].
  change (String c a +:+ b) with (String c (a +:+ b)). cbn [String.length].
  rewrite IH. reflexivity.
Qed.

Lemma take_truthy (n : nat) (s : string) :
  (0 < n)%nat -> PyStr.truthy s = true -> PyStr.truthy (PyStr.take n s) = true.
Proof. destruct n, s; cbn; intros; try lia; congruence. Qed.

Lemma suffix_of_jxl_name (stem : string) :
  PyStr.truthy stem = true -> PurePath.suffix_of_name (stem +:+ ".jxl") = ".jxl".
Proof.
  intros Hstem. unfold PurePath.suffix_of_name.
  rewrite rfind_dot_jxl, drop_append, length_append.
  destruct stem as [|c stem]; [discriminate|]. cbn [String.length].
  replace ((0 <? S (String.length stem))%nat) with true
    by (symmetry; apply Nat.ltb_lt; lia).
  replace ((S (String.length stem) <? S (String.length stem) + 4 - 1)%nat) with true
    by (symmetry; apply Nat.ltb_lt; lia).
  reflexivity.
Qed.

Lemma suffix_shorter (nm : string) :
  PyStr.truthy (PurePath.suffix_of_name nm) = true ->
  (String.length (PurePath.suffix_of_name nm) < String.length nm)%nat.
Proof.
  unfold PurePath.suffix_of_name.
  destruct (PyStr.rfind "."%char nm) as [i|]; [|discriminate].
  destruct ((0 <? i)%nat) eqn:Hi; [|discriminate]. cbn [andb].
  destruct ((i <? String.length nm - 1)%nat) eqn:Hj; [|discriminate].
  intros _. rewrite length_drop.
  apply Nat.ltb_lt in Hi, Hj. lia.
Qed.

(** The output path of a conversion ends in [.jxl]. *)
Lemma output_suffix (p out : Path) :
  PurePath.with_suffix p ".jxl" = Ok out -> PurePath.suffix out = ".jxl".
Proof.
  rewrite with_suffix_jxl.
  destruct (PyStr.truthy (PurePath.name p)) eqn:Hname; [|discriminate].
  cbn [negb]. intros [= <-].
  unfold PurePath.suffix at 1, PurePath.name at 1. rewrite last_last.
  apply suffix_of_jxl_name.
  destruct (PyStr.truthy (PurePath.suffix p)) eqn:Hsfx; cbn [negb]; [|exact Hname].
  apply take_truthy; [|exact Hname].
  pose proof (suffix_shorter _ Hsfx). unfold PurePath.suffix. lia.
Qed.

Lemma jxl_not_supported : ".jxl" ∉ SUPPORTED_FORMATS.
Proof.
  apply (proj1 (bool_decide_eq_false (".jxl" ∈ SUPPORTED_FORMATS))).
  vm_compute. reflexivity.
Qed.

Lemma supported_formats_listed (sfx : string) :
  sfx ∈ SUPPORTED_FORMATS <->
  sfx ∈ [".jpg"; ".jpeg"; ".png"; ".bmp"; ".gif"; ".tiff"; ".tif"; ".webp"].
Proof.
  unfold SUPPORTED_FORMATS.
  rewrite !elem_of_union, !elem_of_singleton, !elem_of_cons, elem_of_nil. tauto.
Qed.

Lemma select_images_supported (listing : list WalkEntry) (p : Path) :
  p ∈ select_images listing ->
  supported p = true /\
  exists root dirs files file,
    (root, dirs, files) ∈ listing /\ file ∈ files /\ p = PurePath.div root file.
Proof.
  unfold select_images. rewrite list_elem_of_In. intros Hin.
  apply in_flat_map in Hin as ([[root dirs] files] & Hl & Hin).
  apply in_flat_map in Hin as (file & Hf & Hin).
  destruct (supported (PurePath.div root file)) eqn:Hs; [|inversion Hin].
  destruct Hin as [<-|[]]. split; [exact Hs|].
  exists root, dirs, files, file. rewrite !list_elem_of_In. auto.
Qed.

(** C10.  Every path that [find_images] returns has a lowercased extension
    in the allow-list, which is the listed eight extensions and does not
    contain [.jxl]; so no returned path is the output path of a conversion. *)
Theorem find_images_never_selects_outputs {W : Type} (h : Handler W)
    (self : ImageConverter) (w : W) (images : list Path) :
  (exec h (find_images self) w).1 = Returned images ->
  forall p : Path, p ∈ images ->
    (PyStr.lower (PurePath.suffix p) ∈ SUPPORTED_FORMATS) /\
    (PyStr.lower (PurePath.suffix p)
       ∈ [".jpg"; ".jpeg"; ".png"; ".bmp"; ".gif"; ".tiff"; ".tif"; ".webp"]) /\
    (".jxl" ∉ SUPPORTED_FORMATS) /\
    PyStr.lower (PurePath.suffix p) <> ".jxl" /\
    forall original : Path, PurePath.with_suffix original ".jxl" <> Ok p.
Proof.
  unfold find_images. cbn.
  destruct (h _ (OsWalk (root_dir self) None) w) as [[listing|e] w1]; cbn; [|discriminate].
  intros [= <-] p Hp.
  apply select_images_supported in Hp as [Hs _].
  unfold supported in Hs. apply bool_decide_eq_true in Hs.
  assert (Hne : PyStr.lower (PurePath.suffix p) <> ".jxl").
  { intros Heq. rewrite Heq in Hs. exact (jxl_not_supported Hs). }
  repeat split.
  - exact Hs.
  - apply supported_formats_listed. exact Hs.
  - exact jxl_not_supported.
  - exact Hne.
  - intros original Hout. apply output_suffix in Hout.
    apply Hne. rewrite Hout. reflexivity.
Qed.

Lemma find_images_never_selects_outputs_witness :
  let p := ["pics"; "c.bmp"] in
  (PyStr.lower (PurePath.suffix p) ∈ SUPPORTED_FORMATS) /\
  (PyStr.lower (PurePath.suffix p)
     ∈ [".jpg"; ".jpeg"; ".png"; ".bmp"; ".gif"; ".tiff"; ".tif"; ".webp"]) /\
  (".jxl" ∉ SUPPORTED_FORMATS) /\
  PyStr.lower (PurePath.suffix p) <> ".jxl" /\
  forall original : Path, PurePath.with_suffix original ".jxl" <> Ok p.
Proof.
  apply (find_images_never_selects_outputs
           (Posix.handler (Scenario.machine Scenario.judge)) (Scenario.converter 2 7)
           (Scenario.at_start Scenario.pics)
           [["pics"; "a.png"]; ["pics"; "b.jpg"]; ["pics"; "c.bmp"]; ["pics"; "d.gif"]]).
  - reflexivity.
  - apply list_elem_of_In. cbn. auto.
Defined.

(** *** Directories that cannot be listed *)

Lemma Node_nested_ind (P : Posix.Node -> Prop) :
  (forall sz, P (Posix.File sz)) ->
  (forall r w x es, Forall (fun e => P e.2) es -> P (Posix.Dir r w x es)) ->
  forall n, P n.
Proof.
  intros HF HD. fix IH 1. intros [sz|r w x es]; [apply HF|].
  apply HD. induction es as [|[nm c] es IHes]; constructor; [apply IH | apply IHes].
Qed.

Lemma select_images_app (l1 l2 : list WalkEntry) :
  select_images (l1 ++ l2) = select_images l1 ++ select_images l2.
Proof. unfold select_images. apply flat_map_app. Qed.

Lemma as_if_empty_is_dir (e : string * Posix.Node) :
  Posix.is_dir (e.1, Posix.as_if_empty e.2) = Posix.is_dir e.
Proof. destruct e as [nm [sz|[] w x es]]; reflexivity. Qed.

Lemma emptied_is_dir (e : string * Posix.Node) :
  Posix.is_dir (e.1, Posix.emptied e.2) = Posix.is_dir e.
Proof. destruct e as [nm [sz|r w x es]]; reflexivity. Qed.

Lemma as_if_empty_names (g : Posix.Node -> Posix.Node)
    (f : string * Posix.Node -> bool) (es : list (string * Posix.Node)) :
  (forall e, f (e.1, g e.2) = f e) ->
  map fst (List.filter f (map (fun e => (e.1, g e.2)) es))
  = map fst (List.filter f es).
Proof.
  intros Hf. induction es as [|e es IH]; [reflexivity|].
  cbn [map List.filter]. rewrite Hf. destruct (f e); cbn [map]; rewrite IH; reflexivity.
Qed.

Lemma walk_entries_cons (rec : string -> Posix.Node -> Result (list WalkEntry))
    (nm : string) (child : Posix.Node) (es : list (string * Posix.Node)) :
  Posix.walk_entries rec ((nm, child) :: es) =
    if Posix.is_dir (nm, child)
    then match rec nm child with
         | Ok l1 =>
             match Posix.walk_entries rec es with
             | Ok l2 => Ok (l1 ++ l2)
             | Err e => Err e
             end
         | Err e => Err e
         end
    else Posix.walk_entries rec es.
Proof. destruct child; reflexivity. Qed.

Lemma walk_entries_refused (es : list (string * Posix.Node)) :
  Posix.walk_entries (fun _ _ => Posix.scandir_failed None Posix.EACCES) es = Ok [].
Proof.
  induction es as [|[nm child] es IH]; [reflexivity|].
  rewrite walk_entries_cons, IH. destruct (Posix.is_dir (nm, child)); reflexivity.
Qed.

(** With [onerror=None] the walk never raises, and finds the same images as
    in the tree where the unlistable directories are empty. *)
Lemma os_walk_ignores_errors (n : Posix.Node) :
  forall top : Path,
  exists l l' : list WalkEntry,
    Posix.os_walk None top n = Ok l /\
    Posix.os_walk None top (Posix.as_if_empty n) = Ok l' /\
    select_images l = select_images l'.
Proof.
  induction n as [sz|r w x es IH] using Node_nested_ind; intros top.
  - exists [], []. repeat split.
  - destruct r.
    2: { exists [], [(top, [], [])]. repeat split. }
    destruct x.
    2: { cbn [Posix.os_walk Posix.as_if_empty].
         rewrite (as_if_empty_names Posix.emptied Posix.is_dir) by apply emptied_is_dir.
         rewrite (as_if_empty_names Posix.emptied (fun e => negb (Posix.is_dir e)))
           by (intros e; rewrite emptied_is_dir; reflexivity).
         rewrite !walk_entries_refused. eexists _, _. repeat split. }
    cbn [Posix.os_walk Posix.as_if_empty].
    rewrite (as_if_empty_names Posix.as_if_empty Posix.is_dir)
      by apply as_if_empty_is_dir.
    rewrite (as_if_empty_names Posix.as_if_empty (fun e => negb (Posix.is_dir e)))
      by (intros e; rewrite as_if_empty_is_dir; reflexivity).
    set (rec := fun nm child => Posix.os_walk None (top ++ [nm]) child).
    assert (Hbelow : exists l l' : list WalkEntry,
               Posix.walk_entries rec es = Ok l /\
               Posix.walk_entries rec
                 (map (fun e => (e.1, Posix.as_if_empty e.2)) es) = Ok l' /\
               select_images l = select_images l').
    { induction IH as [|[nm child] es Hchild _ IHes].
      - exists [], []. repeat split.
      - destruct IHes as (l2 & l2' & H2 & H2' & Hsel2).
        cbn [map fst snd]. rewrite !walk_entries_cons.
        pose proof (as_if_empty_is_dir (nm, child)) as Hd. cbn [fst snd] in Hd.
        rewrite Hd. destruct (Posix.is_dir (nm, child)).
        + destruct (Hchild (top ++ [nm])) as (l1 & l1' & H1 & H1' & Hsel1).
          cbn [snd] in *.
          exists (l1 ++ l2), (l1' ++ l2'). subst rec. cbn beta.
          rewrite H1, H1', H2, H2'. split; [reflexivity|]. split; [reflexivity|].
          rewrite !select_images_app, Hsel1, Hsel2. reflexivity.
        + exists l2, l2'. repeat split; assumption. }
    destruct Hbelow as (l & l' & Hl & Hl' & Hsel).
    rewrite Hl, Hl'. eexists _, _. split; [reflexivity|]. split; [reflexivity|].
    change (?e :: ?t) with ([e] ++ t). rewrite !select_images_app, Hsel. reflexivity.
Qed.

(** C6, as amended.  In the POSIX world [find_images] never raises and
    leaves the world as it is: a directory that cannot be listed is passed
    over by [os.walk], and the images returned are those of the tree in which
    every such directory is empty. *)
Theorem find_images_skips_unlistable (m : Posix.Machine) (self : ImageConverter)
    (w : Posix.World) :
  exists images : list Path,
    exec (Posix.handler m) (find_images self) w = (Returned images, w) /\
    forall n : Posix.Node,
      Posix.resolve (Posix.fs w) (root_dir self) = Ok (Some n) ->
      exists l' : list WalkEntry,
        Posix.os_walk None (root_dir self) (Posix.as_if_empty n) = Ok l' /\
        images = select_images l'.
Proof.
  unfold find_images. cbn. unfold Posix.walk.
  destruct (Posix.resolve (Posix.fs w) (root_dir self)) as [[n|]|e] eqn:Hres.
  - destruct (os_walk_ignores_errors n (root_dir self)) as (l & l' & Hl & Hl' & Hsel).
    rewrite Hl. cbn. eexists. split; [reflexivity|].
    intros n' [= <-]. exists l'. split; [exact Hl' | exact Hsel].
  - cbn. eexists. split; [reflexivity|]. discriminate.
  - cbn. eexists. split; [reflexivity|]. discriminate.
Qed.

Lemma find_images_skips_unlistable_witness :
  let w := Scenario.at_start Scenario.guarded in
  exists images : list Path,
    exec (Posix.handler (Scenario.machine Scenario.judge))
      (find_images (Scenario.converter 2 7)) w = (Returned images, w) /\
    exists l' : list WalkEntry,
      Posix.os_walk None ["pics"]
        (Posix.as_if_empty
           (Posix.Dir true true true
              [("a.png", Posix.File 1000);
               ("private", Posix.Dir false true true [("secret.png", Posix.File 10)])]))
        = Ok l' /\
      images = select_images l'.
Proof.
  intros w.
  destruct (find_images_skips_unlistable (Scenario.machine Scenario.judge)
              (Scenario.converter 2 7) w) as (images & Hrun & Hsame).
  exists images. split; [exact Hrun|]. apply Hsame. reflexivity.
Defined.

(** Below a directory that can be listed but not searched nothing is
    reached: its own files are found, those of its subdirectories are not. *)
Example find_images_stops_at_unsearchable :
  let w := Scenario.at_start Scenario.closed in
  let h := Posix.handler (Scenario.machine Scenario.judge) in
  Posix.walk None (Posix.fs w) ["pics"] = Ok [(["pics"], ["sub"], ["a.png"])] /\
  Posix.walk (Some (fun e => Err e)) (Posix.fs w) ["pics"] = Err Posix.EACCES /\
  exec h (find_images (Scenario.converter 2 7)) w = (Returned [["pics"; "a.png"]], w).
Proof. cbv zeta. repeat split. Qed.

(** C6 as stated does not hold: [pics/private] cannot be listed (a raising
    [onerror] would be given the error), it holds the image [secret.png],
    and [find_images] returns normally a list without it. *)
Lemma unlistable_subdirectory_is_not_fatal :
  let w := Scenario.at_start Scenario.guarded in
  let h := Posix.handler (Scenario.machine Scenario.judge) in
  let secret := ["pics"; "private"; "secret.png"] in
  Posix.walk (Some (fun e => Err e)) (Posix.fs w) ["pics"] = Err Posix.EACCES /\
  Posix.exists_ (Posix.fs w) secret = Ok true /\
  supported secret = true /\
  (exec h (find_images (Scenario.converter 2 7)) w).1 = Returned [["pics"; "a.png"]] /\
  secret ∉ [["pics"; "a.png"]].
Proof.
  cbv zeta. repeat split; try reflexivity.
  intros Hin%list_elem_of_singleton. discriminate.
Qed.

(** ** Runs of the pool *)

Lemma map_fst_insert (l : list (Path * TaskState)) (i : nat) (img : Path)
    (st st' : TaskState) :
  l !! i = Some (img, st) -> map fst (<[i := (img, st')]> l) = map fst l.
Proof.
  revert i. induction l as [|t l IH]; intros [|i] Hl; try discriminate.
  - cbn in *. inversion Hl; subst. reflexivity.
  - cbn in *. f_equal. apply IH. exact Hl.
Qed.

Lemma collected_insert_same (l : list (Path * TaskState)) (i : nat) (img : Path)
    (st st' : TaskState) :
  l !! i = Some (img, st) ->
  is_collected (img, st) = false -> is_collected (img, st') = false ->
  collected (<[i := (img, st')]> l) = collected l.
Proof.
  unfold collected. revert i. induction l as [|t l IH]; intros [|i] Hl Hst Hst';
    try discriminate.
  - cbn in Hl. inversion Hl; subst. cbn [list_insert insert List.filter].
    change (<[0%nat:=(img, st')]> ((img, st) :: l)) with ((img, st') :: l).
    cbn [List.filter]. rewrite Hst, Hst'. reflexivity.
  - change (<[S i:=(img, st')]> (t :: l)) with (t :: <[i:=(img, st')]> l).
    cbn [List.filter]. cbn in Hl.
    destruct (is_collected t); cbn [map]; rewrite (IH i Hl Hst Hst'); reflexivity.
Qed.

Lemma collected_insert_new (l : list (Path * TaskState)) (i : nat) (img : Path)
    (st : TaskState) :
  l !! i = Some (img, st) -> is_collected (img, st) = false ->
  collected (<[i := (img, Collected)]> l) ≡ₚ img :: collected l.
Proof.
  unfold collected. revert i. induction l as [|t l IH]; intros [|i] Hl Hst;
    try discriminate.
  - cbn in Hl. inversion Hl; subst.
    change (<[0%nat:=(img, Collected)]> ((img, st) :: l)) with ((img, Collected) :: l).
    cbn [List.filter]. rewrite Hst. reflexivity.
  - change (<[S i:=(img, Collected)]> (t :: l)) with (t :: <[i:=(img, Collected)]> l).
    cbn [List.filter]. cbn in Hl.
    destruct (is_collected t); cbn [map]; rewrite (IH i Hl Hst); [|reflexivity].
    apply Permutation_swap.
Qed.

Lemma all_collected_paths (l : list (Path * TaskState)) :
  forallb is_collected l = true -> collected l = map fst l.
Proof.
  unfold collected. induction l as [|t l IH]; [reflexivity|].
  cbn. intros [Ht Hl]%andb_true_iff. rewrite Ht. cbn. f_equal. apply IH, Hl.
Qed.

(** The loop body on one result: which list grows. *)
Lemma loop_body_result {W : Type} (h : Handler W) (total : nat) (start_time : Q)
    (success : bool) (original : Path) (new_path : option Path) (error : string)
    (self self' : ImageConverter) (completed completed' : nat) (w w' : W) :
  exec h (loop_body total start_time (success, original, new_path, error)
            (self, completed)) w = (Returned (self', completed'), w') ->
  completed' = S completed /\
  effort self' = effort self /\ max_workers self' = max_workers self /\
  root_dir self' = root_dir self /\
  (if success
   then converted_files self' = converted_files self ++ [(original, new_path)] /\
        failed_files self' = failed_files self
   else converted_files self' = converted_files self /\
        failed_files self' = failed_files self ++ [(original, error)]).
Proof.
  unfold loop_body. cbn [exec bind perform].
  set (w1 := (h _ TimeTime w).2). set (now := (h _ TimeTime w).1).
  destruct (truediv (now - start_time) (Q_of_nat (S completed))) as [avg|e]; cbn;
    [|discriminate].
  destruct success; cbn.
  - destruct (h _ (PathStatSize original) w1) as [[osz|e] w2]; cbn; [|discriminate].
    destruct new_path as [new|]; cbn; [|discriminate].
    destruct (h _ (PathStatSize new) w2) as [[nsz|e] w3]; cbn; [|discriminate].
    destruct (ratio_of _ _) as [ratio|e]; cbn; [|discriminate].
    destruct (h _ (PrintText _) w3) as [[[]|e] w4]; cbn; [|discriminate].
    intros [= <- <- <-]. repeat split.
  - destruct (negb (String.eqb error skip_message)); cbn;
      (destruct (h _ (PrintText _) w1) as [[[]|e] w2]; cbn; [|discriminate]);
      intros [= <- <- <-]; repeat split.
Qed.

Lemma loop_body_harmless (total : nat) (start_time : Q) (r : ConvResult)
    (vars : ImageConverter * nat) :
  harmless (loop_body total start_time r vars).
Proof.
  destruct r as [[[success original] new_path] error], vars as [self completed].
  unfold loop_body. cbn. split; [intros x; split; reflexivity|]. intros now.
  destruct (truediv _ _) as [avg|e]; cbn; [|exact I].
  destruct success; cbn.
  - split; [intros x; split; reflexivity|]. intros [osz|e]; cbn; [|exact I].
    destruct new_path as [new|]; cbn; [|exact I].
    split; [intros x; split; reflexivity|]. intros [nsz|e]; cbn; [|exact I].
    destruct (ratio_of _ _) as [ratio|e]; cbn; [|exact I].
    split; [intros x; split; reflexivity|]. intros [[]|e]; exact I.
  - destruct (negb (String.eqb error skip_message)); cbn;
      (split; [intros x; split; reflexivity|]); intros [[]|e]; exact I.
Qed.

Section RunInvariant.

Context {W : Type}.
Variable h : Handler W.
Variable stable : W -> Prop.
Variable kept : Path -> Prop.

Hypothesis stable_step :
  forall (X : Type) (e : Eff X) (w : W),
    unlinked_of (Ev e (h _ e w).1) = [] -> stable w -> stable (h _ e w).2.

Hypothesis kept_exists :
  forall (w : W) (out : Path),
    stable w -> kept out -> (h _ (PathExists out) w).1 = Ok true.

Lemma harmless_exec {R : Type} (p : Prog R) (w : W) :
  harmless p -> stable w ->
  stable (exec h p w).2 /\ spawned (trace h p w) = [] /\ unlinked (trace h p w) = [].
Proof.
  revert w. induction p as [r|e|X e k IH]; intros w Hp Hw; cbn [exec trace snd];
    try (repeat split; assumption).
  destruct Hp as [He Hk]. destruct (He (h _ e w).1) as [Hu Hs].
  destruct (IH (h _ e w).1 (h _ e w).2 (Hk _) (stable_step _ e w Hu Hw)) as (H1 & H2 & H3).
  split; [exact H1|]. unfold spawned, unlinked in *. cbn [flat_map].
  rewrite Hs, Hu, H2, H3. split; reflexivity.
Qed.

Variable self0 : ImageConverter.

(** A call of [convert_image] meets what the invariant asks of a worker. *)
Lemma convert_image_leads (self : ImageConverter) (img : Path) :
  effort self = effort self0 ->
  leads h stable (worker_event kept self0 img) (worker_result kept img)
    (convert_image self img).
Proof.
  intros Heff. unfold convert_image.
  destruct (PurePath.with_suffix img ".jxl") as [out|e] eqn:Hout.
  2: { destruct e; cbn; (split; [reflexivity|]); (split; [discriminate|]);
       intros out' Ho; rewrite Hout in Ho; discriminate. }
  assert (Hsame : forall out' (r : ConvResult),
             PurePath.with_suffix img ".jxl" = Ok out' -> kept out' ->
             ~ kept out -> r = (false, img, Some out', skip_message)).
  { intros out' r Ho Hk' Hk. rewrite Hout in Ho. inversion Ho; subst. contradiction. }
  cbn. intros w Hw. split.
  { split; [reflexivity|]. intros cmd Hin. inversion Hin. }
  destruct (h _ (PathExists out) w) as [a1 w1] eqn:H1. cbn [fst].
  assert (Hnk : a1 <> Ok true -> ~ kept out).
  { intros Hne Hk. apply Hne. pose proof (kept_exists w out Hw Hk) as Hx.
    rewrite H1 in Hx. exact Hx. }
  destruct a1 as [[|]|e1]; cbn.
  - split; [reflexivity|]. split; [discriminate|].
    intros out' Ho _. rewrite Hout in Ho. inversion Ho; subst. reflexivity.
  - assert (Hk : ~ kept out) by (apply Hnk; discriminate).
    intros w2 Hw2. split.
    { split; [reflexivity|]. intros cmd Hin%list_elem_of_singleton. subst cmd.
      exists out. split; [exact Hout|]. split; [exact Hk|].
      unfold cjxl_command. rewrite Heff. reflexivity. }
    destruct (h _ (SubprocessRun _ true true 300) w2) as [[result|e2] w3]; cbn.
    + destruct (returncode result =? 0); cbn.
      * intros w4 Hw4. split.
        { split; [reflexivity|]. intros cmd Hin. inversion Hin. }
        destruct (h _ (PathExists out) w4) as [[[|]|e3] w5]; cbn.
        -- split; [reflexivity|]. split.
           ++ intros _. exists out. split; [exact Hout|]. split; [exact Hk|reflexivity].
           ++ intros out' Ho Hk'. apply Hsame; assumption.
        -- split; [reflexivity|]. split; [discriminate|].
           intros out' Ho Hk'. apply Hsame; assumption.
        -- destruct e3; cbn; (split; [reflexivity|]); (split; [discriminate|]);
             intros out' Ho Hk'; apply Hsame; assumption.
      * split; [reflexivity|]. split; [discriminate|].
        intros out' Ho Hk'. apply Hsame; assumption.
    + destruct e2; cbn; (split; [reflexivity|]); (split; [discriminate|]);
        intros out' Ho Hk'; apply Hsame; assumption.
  - assert (Hk : ~ kept out) by (apply Hnk; discriminate).
    destruct e1; cbn; (split; [reflexivity|]); (split; [discriminate|]);
      intros out' Ho Hk'; apply Hsame; assumption.
Qed.

Variable images : list Path.
Variable evs0 : list Event.
Variable total : nat.
Variable start_time : Q.

Abbreviation Invariant := (Inv h stable kept self0 images evs0).

Lemma start_inv (i : nat) (b b' : Batch W) :
  Invariant b -> step h total start_time (Start i) b = Next b' -> Invariant b'.
Proof.
  intros HI. cbn [step].
  destruct (tasks b !! i) as [[img [| | |]]|] eqn:Hi; try discriminate.
  destruct (_ && _); [|discriminate]. intros [= <-].
  destruct HI. constructor; unfold new_converted, new_failed in *;
    cbn [world tasks this done log set_task]; try assumption.
  - rewrite (map_fst_insert _ _ _ _ _ Hi). assumption.
  - apply Forall_insert; [assumption|].
    apply convert_image_leads. assumption.
  - rewrite (collected_insert_same _ _ _ _ _ Hi); [assumption|reflexivity..].
  - rewrite (collected_insert_same _ _ _ _ _ Hi); [assumption|reflexivity..].
  - rewrite app_nil_r. assumption.
  - rewrite app_nil_r. assumption.
Qed.

Lemma work_inv (i : nat) (b b' : Batch W) :
  Invariant b -> step h total start_time (Work i) b = Next b' -> Invariant b'.
Proof.
  intros HI. cbn [step].
  destruct (tasks b !! i) as [[img [|[r|e|X e k]| |]]|] eqn:Hi; try discriminate;
    intros [= <-].
  - (* the worker delivers its result *)
    pose proof (inv_tasks _ _ _ _ _ _ _ HI) as Ht.
    rewrite Forall_lookup in Ht. specialize (Ht _ _ Hi). cbn in Ht.
    destruct HI. constructor; unfold new_converted, new_failed in *;
      cbn [world tasks this done log set_task]; try assumption.
    + rewrite (map_fst_insert _ _ _ _ _ Hi). assumption.
    + apply Forall_insert; [assumption|]. exists r. split; [reflexivity|exact Ht].
    + rewrite (collected_insert_same _ _ _ _ _ Hi); [assumption|reflexivity..].
    + rewrite (collected_insert_same _ _ _ _ _ Hi); [assumption|reflexivity..].
    + rewrite app_nil_r. assumption.
    + rewrite app_nil_r. assumption.
  - (* a worker never raises *)
    pose proof (inv_tasks _ _ _ _ _ _ _ HI) as Ht.
    rewrite Forall_lookup in Ht. specialize (Ht _ _ Hi). cbn in Ht. contradiction.
  - (* the worker performs its next effect *)
    pose proof (inv_tasks _ _ _ _ _ _ _ HI) as Ht.
    rewrite Forall_lookup in Ht. specialize (Ht _ _ Hi). cbn in Ht.
    destruct (Ht (world b) (inv_stable _ _ _ _ _ _ _ HI)) as [[Hun Hsp] Hk].
    pose proof (list_elem_of_lookup_2 _ _ _ Hi) as Himg.
    destruct HI. constructor; unfold new_converted, new_failed in *;
      cbn [world tasks this done log set_task]; try assumption.
    + apply stable_step; assumption.
    + rewrite (map_fst_insert _ _ _ _ _ Hi). assumption.
    + apply Forall_insert; [assumption|]. exact Hk.
    + rewrite (collected_insert_same _ _ _ _ _ Hi); [assumption|reflexivity..].
    + rewrite (collected_insert_same _ _ _ _ _ Hi); [assumption|reflexivity..].
    + intros cmd. rewrite spawned_app. intros [Hin|Hin]%elem_of_app.
      * apply inv_log0. exact Hin.
      * right. unfold spawned in Hin. cbn [flat_map] in Hin. rewrite app_nil_r in Hin.
        destruct (Hsp cmd Hin) as (out & Hout & Hk' & Hcmd).
        exists img, out. split; [|auto].
        rewrite <- inv_images0. apply (list_elem_of_fmap_2 fst _ _ Himg).
    + rewrite unlinked_app. unfold unlinked at 2. cbn [flat_map].
      rewrite Hun, !app_nil_r. assumption.
Qed.

Lemma drop_extended {A : Type} (l0 n l x : list A) :
  l = l0 ++ n -> drop (length l0) (l ++ x) = n ++ x.
Proof. intros ->. rewrite <- app_assoc. apply drop_app_length. Qed.

Lemma collect_inv (i : nat) (b b' : Batch W) :
  Invariant b -> step h total start_time (Collect i) b = Next b' -> Invariant b'.
Proof.
  intros HI. cbn [step].
  destruct (tasks b !! i) as [[img [| |[r|e]|]]|] eqn:Hi; try discriminate.
  destruct (harmless_exec _ (world b) (loop_body_harmless total start_time
              r (this b, done b))
              (inv_stable _ _ _ _ _ _ _ HI)) as (Hst & Hsp & Hun).
  remember (trace h (loop_body total start_time r (this b, done b)) (world b))
    as evs eqn:Hevs.
  destruct (exec h (loop_body total start_time r (this b, done b)) (world b))
    as [[[self completed]|e] w] eqn:Hrun; [|discriminate].
  intros Hb'. inversion Hb' as [Hb]. clear Hb'. subst b'.
  pose proof (inv_tasks _ _ _ _ _ _ _ HI) as Ht.
  rewrite Forall_lookup in Ht. specialize (Ht _ _ Hi). cbn in Ht.
  destruct Ht as (r0 & Hr0 & Horig & Hsucc & Hskip).
  inversion Hr0; subst r0. clear Hr0.
  destruct r as [[[success original] new_path] error]. cbn in Horig, Hsucc. subst original.
  destruct (loop_body_result _ _ _ _ _ _ _ _ _ _ _ _ _ Hrun)
    as (Hdone & Heff & Hwork & _ & Hlists).
  cbn [snd] in Hst.
  pose proof (collected_insert_new _ _ _ _ Hi eq_refl) as Hperm.
  destruct HI.
  assert (Hnew : if success
            then drop (length (converted_files self0)) (converted_files self)
                 = new_converted self0 b ++ [(img, new_path)] /\
                 drop (length (failed_files self0)) (failed_files self)
                 = new_failed self0 b
            else drop (length (converted_files self0)) (converted_files self)
                 = new_converted self0 b /\
                 drop (length (failed_files self0)) (failed_files self)
                 = new_failed self0 b ++ [(img, error)]).
  { destruct success; destruct Hlists as [-> ->]; split;
      solve [ apply drop_extended; assumption | reflexivity ]. }
  constructor; unfold new_converted, new_failed in *;
    cbn [world tasks this done log]; try assumption.
  - rewrite (map_fst_insert _ _ _ _ _ Hi). assumption.
  - apply Forall_insert; [assumption|]. exact I.
  - congruence.
  - congruence.
  - rewrite Hdone, inv_done0. apply Permutation_length in Hperm.
    rewrite Hperm. reflexivity.
  - destruct success; destruct Hnew as [-> _]; destruct Hlists as [-> _].
    + rewrite inv_converted0 at 1. rewrite app_assoc. reflexivity.
    + assumption.
  - destruct success; destruct Hnew as [_ ->]; destruct Hlists as [_ ->].
    + assumption.
    + rewrite inv_failed0 at 1. rewrite app_assoc. reflexivity.
  - rewrite Hperm, <- inv_recorded0.
    destruct success; destruct Hnew as [-> ->].
    + rewrite map_app. cbn [map fst]. rewrite <- app_assoc. cbn [app].
      symmetry. apply Permutation_middle.
    + rewrite map_app. cbn [map fst]. rewrite app_assoc.
      symmetry. apply Permutation_cons_append.
  - destruct success; destruct Hnew as [-> _]; [|assumption].
    intros original new' [Hin|Hin%list_elem_of_singleton]%elem_of_app.
    + apply inv_success0. exact Hin.
    + inversion Hin; subst. destruct (Hsucc eq_refl) as (out & Hout & Hk & Hr).
      inversion Hr; subst. exists out. auto.
  - destruct success; destruct Hnew as [_ ->]; [assumption|].
    intros original error' out [Hin|Hin%list_elem_of_singleton]%elem_of_app Hout Hk.
    + eapply inv_skipped0; eassumption.
    + inversion Hin; subst. specialize (Hskip out Hout Hk). inversion Hskip. reflexivity.
  - intros cmd. rewrite spawned_app, Hsp, app_nil_r. apply inv_log0.
  - rewrite unlinked_app, Hun, app_nil_r. assumption.
Qed.

Lemma run_inv (sched : list Action) :
  forall b b' : Batch W,
    Invariant b -> run h total start_time sched b = Next b' -> Invariant b'.
Proof.
  induction sched as [|a sched IH]; intros b b' HI; cbn [run].
  - intros [= <-]. exact HI.
  - destruct (step h total start_time a b) as [|b1|e b1] eqn:Hstep; try discriminate.
    apply IH. destruct a as [i|i|i].
    + exact (start_inv i b b1 HI Hstep).
    + exact (work_inv i b b1 HI Hstep).
    + exact (collect_inv i b b1 HI Hstep).
Qed.

(** The batch at submission satisfies the invariant. *)
Lemma submit_all_inv (w : W) :
  stable w -> Invariant (submit_all self0 images w evs0).
Proof.
  intros Hw.
  assert (Hnone : collected (map (fun img : Path => (img, Queued)) images) = []).
  { unfold collected. induction images as [|img l IH]; [reflexivity|exact IH]. }
  constructor; unfold new_converted, new_failed;
    cbn [world tasks this done log submit_all]; rewrite ?drop_all, ?app_nil_r;
    try reflexivity; try assumption.
  - rewrite map_map. cbn. apply map_id.
  - apply Forall_forall. intros t [img [-> _]]%list_elem_of_fmap. exact I.
  - rewrite Hnone. reflexivity.
  - rewrite Hnone. reflexivity.
  - intros ? ? Hin. inversion Hin.
  - intros ? ? ? Hin. inversion Hin.
  - intros cmd Hin. left. exact Hin.
Qed.

End RunInvariant.

Section BatchReturns.

Context {W : Type}.
Variable h : Handler W.
Variable stable : W -> Prop.
Variable kept : Path -> Prop.

Hypothesis stable_step :
  forall (X : Type) (e : Eff X) (w : W),
    unlinked_of (Ev e (h _ e w).1) = [] -> stable w -> stable (h _ e w).2.

Hypothesis kept_exists :
  forall (w : W) (out : Path),
    stable w -> kept out -> (h _ (PathExists out) w).1 = Ok true.

Variable self0 : ImageConverter.

Lemma harmless_bind {A B : Type} (p : Prog A) (f : A -> Prog B) :
  harmless p -> (forall a, harmless (f a)) -> harmless (bind p f).
Proof.
  intros Hp Hf. induction p as [a|e|X e k IH]; cbn; [apply Hf | exact I |].
  destruct Hp as [He Hk]. split; [exact He|]. intros x. apply IH, Hk.
Qed.

Lemma harmless_for_each {A S : Type} (l : list A) (body : A -> S -> Prog S) :
  (forall a s, harmless (body a s)) -> forall s, harmless (for_each l body s).
Proof.
  intros Hbody. induction l as [|a l IH]; intros s; cbn [for_each]; [exact I|].
  apply harmless_bind; [apply Hbody | apply IH].
Qed.

Lemma harmless_print (m : Msg) : harmless (print m).
Proof. cbn. split; [intros x; split; reflexivity | intros x; exact I]. Qed.

Lemma harmless_lift {A : Type} (r : Result A) : harmless (lift r).
Proof. destruct r; exact I. Qed.

Lemma harmless_stat_size (p : option Path) : harmless (stat_size p).
Proof.
  destruct p as [q|]; cbn; [|exact I].
  split; [intros x; split; reflexivity | intros x; apply harmless_lift].
Qed.

Lemma harmless_sum_sizes {A : Type} (f : A -> option Path) (files : list A) :
  harmless (sum_sizes f files).
Proof.
  unfold sum_sizes. apply harmless_for_each. intros a acc.
  apply harmless_bind; [apply harmless_stat_size | intros sz; exact I].
Qed.

Lemma size_report_harmless (self : ImageConverter) (t : Q) :
  harmless (size_report self t).
Proof.
  unfold size_report.
  apply harmless_bind; [apply harmless_lift | intros avg].
  apply harmless_bind; [apply harmless_print | intros _].
  apply harmless_bind; [apply harmless_sum_sizes | intros total_original].
  apply harmless_bind; [apply harmless_sum_sizes | intros total_new].
  apply harmless_bind; [apply harmless_lift | intros ratio].
  apply harmless_bind; [apply harmless_print | intros _].
  apply harmless_print.
Qed.

Lemma summary_harmless (self : ImageConverter) (t0 : Q) : harmless (summary self t0).
Proof.
  unfold summary. cbn [bind perform].
  split; [intros x; split; reflexivity|]. intros now.
  repeat (apply harmless_bind; [apply harmless_print | intros _]).
  apply harmless_bind; [|intros _; apply harmless_print].
  destruct (converted_files self) as [|f files]; [exact I|].
  apply size_report_harmless.
Qed.

Lemma prologue_harmless (self : ImageConverter) : harmless (prologue self).
Proof.
  unfold prologue, find_images. cbn [bind attempt].
  split; [intros x; split; reflexivity|]. intros [listing|e]; cbn [lift bind]; [|exact I].
  destruct (select_images listing) as [|img l].
  - apply harmless_bind; [apply harmless_print | intros _; exact I].
  - repeat (apply harmless_bind; [apply harmless_print | intros _]).
    cbn. split; [intros x; split; reflexivity | intros x; exact I].
Qed.

(** A call of [convert_all] that returns: either nothing was found, or the
    pool ran to the end from a batch that satisfies the invariant. *)
Lemma convert_all_returns (sched : list Action) (w w' : W) (self' : ImageConverter)
    (evs' : list Event) :
  stable w ->
  convert_all h self0 sched w = Some (Returned self', w', evs') ->
  exists found : list Path,
    (exec h (find_images self0) w).1 = Returned found /\
    ((found = [] /\ self' = self0 /\ spawned evs' = [] /\ unlinked evs' = []) \/
     (exists (b : Batch W) (pro fin : list Event),
         Inv h stable kept self0 found pro b /\
         all_collected b = true /\ self' = this b /\
         evs' = log b ++ fin /\
         spawned pro = [] /\ unlinked pro = [] /\
         spawned fin = [] /\ unlinked fin = [] /\
         0 < max_workers self0)).
Proof.
  intros Hw. unfold convert_all.
  destruct (harmless_exec h stable stable_step (prologue self0) w
              (prologue_harmless self0) Hw)
    as (Hw1 & Hsp & Hun).
  remember (trace h (prologue self0) w) as pro eqn:Hpro.
  assert (Hfound : forall o w1, exec h (prologue self0) w = (Returned o, w1) ->
             exists found, (exec h (find_images self0) w).1 = Returned found /\
               match o with
               | None => found = []
               | Some (imgs, _) => found = imgs
               end).
  { unfold prologue. rewrite exec_bind.
    destruct (exec h (find_images self0) w) as [[found|e] w0]; [|discriminate].
    intros o w1. destruct found as [|img l]; cbn.
    - intros [= <- _]. exists []. split; reflexivity.
    - intros [= <- _]. exists (img :: l). split; reflexivity. }
  destruct (exec h (prologue self0) w) as [[[[found start]|]|e] w1] eqn:Hrun;
    [| |discriminate].
  - destruct (Hfound _ _ eq_refl) as (found' & Hf & ->).
    destruct (Z.leb_spec (max_workers self0) 0) as [|Hworkers]; [discriminate|].
    destruct (run h (length found) start sched (submit_all self0 found w1 pro))
      as [|b|e b] eqn:Hsched; try discriminate.
    destruct (all_collected b) eqn:Hall; [|discriminate].
    pose proof (run_inv h stable kept stable_step kept_exists self0 found pro
                  (length found) start sched _ _
                  (submit_all_inv h stable kept self0 found pro w1 Hw1) Hsched) as HI.
    destruct (harmless_exec h stable stable_step (summary (this b) start) (world b)
                (summary_harmless _ _) (inv_stable _ _ _ _ _ _ _ HI))
      as (_ & Hsp' & Hun').
    destruct (exec h (summary (this b) start) (world b)) as [[[]|e] w2];
      [|discriminate].
    intros [= <- <- <-]. exists found. split; [exact Hf|]. right.
    exists b, pro, (trace h (summary (this b) start) (world b)).
    split; [exact HI|]. split; [exact Hall|]. split; [reflexivity|].
    split; [reflexivity|]. repeat split; assumption.
  - destruct (Hfound _ _ eq_refl) as (found' & Hf & ->).
    intros [= <- <- <-]. exists []. split; [exact Hf|]. left. repeat split; assumption.
Qed.

End BatchReturns.

(** ** What ends a batch early *)

Lemma ratio_of_answers (new original : Q) : exists q : Q, ratio_of new original = Ok q.
Proof.
  unfold ratio_of. destruct (Qpositive original) eqn:Hpos; [|eexists; reflexivity].
  unfold truediv. rewrite (Qpositive_nonzero _ Hpos). eexists; reflexivity.
Qed.

Lemma truediv_by_count (a : Q) (n : nat) :
  truediv a (Q_of_nat (S n)) = Ok (a / Q_of_nat (S n))%Q.
Proof. reflexivity. Qed.

Section Raises.

Context {W : Type}.
Variable h : Handler W.

(** The loop body raises only when a call of [stat] did, or when standard
    output refused its line. *)
Lemma loop_body_raises (total : nat) (start_time : Q) (success : bool)
    (original : Path) (new_path : option Path) (error : string)
    (vars : ImageConverter * nat) (e : Exn) (w w' : W)
    (body := loop_body total start_time (success, original, new_path, error) vars) :
  (success = true -> exists new, new_path = Some new) ->
  exec h body w = (Raised e, w') ->
  exists ev, ev ∈ trace h body w /\ raising ev.
Proof.
  subst body. destruct vars as [self completed]. intros Hnew.
  unfold loop_body. cbn [exec trace bind perform fst snd].
  rewrite truediv_by_count. cbn [lift bind].
  set (w1 := (h _ TimeTime w).2).
  destruct success.
  - destruct (Hnew eq_refl) as [new ->].
    cbn [bind attempt exec trace fst snd stat_size].
    destruct (h _ (PathStatSize original) w1) as [[osz|err] w2] eqn:H1;
      cbn [lift bind exec trace fst snd attempt].
    + destruct (h _ (PathStatSize new) w2) as [[nsz|err] w3] eqn:H2;
        cbn [lift bind exec trace fst snd].
      * destruct (ratio_of_answers (mebibytes (Q_of_N nsz)) (mebibytes (Q_of_N osz)))
          as [ratio ->].
        cbn [lift bind print_text attempt exec trace fst snd].
        match goal with
        | |- context [h _ (PrintText ?m) w3] =>
            destruct (h _ (PrintText m) w3) as [[[]|err] w4] eqn:H3;
              cbn [lift bind exec trace fst snd]; [discriminate|];
              intros _; exists (Ev (PrintText m) (Err err))
        end.
        split; [|exists err; reflexivity].
        apply list_elem_of_In. cbn. auto 10.
      * intros _. exists (Ev (PathStatSize new) (Err err)).
        split; [|exists err; reflexivity].
        apply list_elem_of_In. cbn. right. right. left. reflexivity.
    + intros _. exists (Ev (PathStatSize original) (Err err)).
      split; [|exists err; reflexivity].
      apply list_elem_of_In. cbn. right. left. reflexivity.
  - destruct (negb (String.eqb error skip_message));
      cbn [lift bind print_text attempt exec trace fst snd];
      match goal with
      | |- context [h _ (PrintText ?m) w1] =>
          destruct (h _ (PrintText m) w1) as [[[]|err] w2] eqn:H3;
            cbn [lift bind exec trace fst snd]; [discriminate|];
            intros _; exists (Ev (PrintText m) (Err err))
      end;
      (split; [|exists err; reflexivity]); apply list_elem_of_In; cbn; auto 10.
Qed.

Lemma sum_sizes_raises {A : Type} (f : A -> option Path) (files : list A) :
  forall (acc : N) (e : Exn) (w w' : W),
    let loop := for_each files
                  (fun x acc => let! sz := stat_size (f x) in Ret (acc + sz)%N) acc in
    (forall x, x ∈ files -> exists q, f x = Some q) ->
    exec h loop w = (Raised e, w') ->
    exists ev, ev ∈ trace h loop w /\ raising ev.
Proof.
  induction files as [|a files IH]; intros acc e w w' loop Hf; subst loop.
  - cbn. discriminate.
  - cbn [for_each]. rewrite exec_bind, trace_bind.
    destruct (Hf a) as [q Hq]; [left|]. rewrite Hq.
    cbn [stat_size bind attempt exec trace fst snd].
    destruct (h _ (PathStatSize q) w) as [[sz|err] w1] eqn:H1;
      cbn [lift bind exec trace fst snd].
    + intros Hrun. destruct (IH _ _ _ _ (fun x Hx => Hf x (list_elem_of_further _ _ _ Hx)) Hrun)
        as (ev & Hin & Hev).
      exists ev. split; [|exact Hev]. cbn [app]. right. exact Hin.
    + intros _. exists (Ev (PathStatSize q) (Err err)).
      split; [left|]. exists err. reflexivity.
Qed.

Lemma summary_raises (self : ImageConverter) (start_time : Q) (e : Exn) (w w' : W)
    (fin := summary self start_time) :
  (forall original new_path, (original, new_path) ∈ converted_files self ->
                             exists q, new_path = Some q) ->
  exec h fin w = (Raised e, w') ->
  exists ev, ev ∈ trace h fin w /\ raising ev.
Proof.
  subst fin. intros Hnew. unfold summary.
  cbn [bind perform print exec trace fst snd].
  set (w5 := (h _ (Print (MsgFailCount _)) _).2).
  set (total_time := ((h _ TimeTime w).1 - start_time)%Q).
  rewrite exec_bind, trace_bind.
  assert (Hreport : forall e' w6, converted_files self <> [] ->
             exec h (size_report self total_time) w5 = (Raised e', w6) ->
             exists ev, ev ∈ trace h (size_report self total_time) w5 /\ raising ev).
  { unfold size_report. intros e' w7 Hne.
    destruct (length (converted_files self)) as [|n] eqn:Hlen.
    { destruct (converted_files self); [contradiction|discriminate]. }
    rewrite truediv_by_count.
    cbn [lift bind print perform exec trace fst snd].
    set (w6 := (h _ (Print (MsgAvgSpeed _)) w5).2).
    rewrite exec_bind, trace_bind.
    destruct (exec h (sum_sizes (fun f => Some f.1) (converted_files self)) w6)
      as [[total_original|e1] w8] eqn:Horig.
    2: { intros _.
         destruct (sum_sizes_raises (fun f => Some f.1) (converted_files self) _ _ _ _
                     (fun x _ => ex_intro _ x.1 eq_refl) Horig) as (ev & Hin & Hev).
         exists ev. split; [|exact Hev]. right. rewrite app_nil_r. exact Hin. }
    rewrite exec_bind, trace_bind.
    destruct (exec h (sum_sizes (fun f => f.2) (converted_files self)) w8)
      as [[total_new|e2] w9] eqn:Hnew'.
    2: { intros _.
         destruct (sum_sizes_raises (fun f => f.2) (converted_files self) _ _ _ _
                     (fun x Hx => Hnew x.1 x.2 ltac:(destruct x; exact Hx)) Hnew')
           as (ev & Hin & Hev).
         exists ev. split; [|exact Hev].
         right. apply elem_of_app. right. rewrite app_nil_r. exact Hin. }
    destruct (ratio_of_answers (Q_of_N total_new) (Q_of_N total_original)) as [ratio ->].
    cbn. discriminate. }
  destruct (converted_files self) as [|c l] eqn:Hconv; [cbn; discriminate|].
  destruct (exec h (size_report self total_time) w5) as [[u|e'] w6] eqn:Hrep.
  - cbn. discriminate.
  - intros _. destruct (Hreport _ _ ltac:(discriminate) eq_refl) as (ev & Hin & Hev).
    exists ev. split; [|exact Hev].
    do 5 right. apply elem_of_app. left. exact Hin.
Qed.

Lemma prologue_raises (self : ImageConverter) (e : Exn) (w w' : W) :
  exec h (prologue self) w = (Raised e, w') ->
  exists ev, ev ∈ trace h (prologue self) w /\ raising ev.
Proof.
  unfold prologue, find_images. cbn [bind attempt exec trace fst snd].
  destruct (h _ (OsWalk (root_dir self) None) w) as [[listing|err] w1] eqn:H1;
    cbn [lift bind exec trace fst snd].
  - destruct (select_images listing); cbn; discriminate.
  - intros _. exists (Ev (OsWalk (root_dir self) None) (Err err)).
    split; [left|]. exists err. reflexivity.
Qed.

End Raises.

Section AbortCause.

Context {W : Type}.
Variable h : Handler W.
Variable self0 : ImageConverter.
Variable images : list Path.
Variable evs0 : list Event.
Variable total : nat.
Variable start_time : Q.

Abbreviation Plain := (Inv h (fun _ => True) (fun _ => False) self0 images evs0).

Lemma plain_step (a : Action) (b b' : Batch W) :
  Plain b -> step h total start_time a b = Next b' -> Plain b'.
Proof.
  intros HI Hstep.
  apply (run_inv h (fun _ => True) (fun _ => False) (fun _ _ _ _ _ => I)
           (fun _ _ _ (F : False) => match F with end)
           self0 images evs0 total start_time [a] b b' HI).
  cbn [run]. rewrite Hstep. reflexivity.
Qed.

(** The main thread is stopped only by a call that raised. *)
Lemma step_aborted (a : Action) (b b' : Batch W) (e : Exn) :
  Plain b -> step h total start_time a b = Aborted e b' ->
  exists ev, ev ∈ log b' /\ raising ev.
Proof.
  intros HI. destruct a as [i|i|i]; cbn [step].
  - destruct (tasks b !! i) as [[img [| | |]]|]; try discriminate.
    destruct (_ && _); discriminate.
  - destruct (tasks b !! i) as [[img [|[r|e'|X e' k]| |]]|]; discriminate.
  - destruct (tasks b !! i) as [[img [| |[r|e']|]]|] eqn:Hi; try discriminate.
    + pose proof (inv_tasks _ _ _ _ _ _ _ HI) as Ht.
      rewrite Forall_lookup in Ht. specialize (Ht _ _ Hi). cbn in Ht.
      destruct Ht as (r0 & Hr0 & _ & Hsucc & _). inversion Hr0; subst r0. clear Hr0.
      destruct r as [[[success original] new_path] error]. cbn in Hsucc.
      destruct (exec h (loop_body total start_time (success, original, new_path, error)
                          (this b, done b)) (world b))
        as [[[self completed]|e'] w] eqn:Hrun; [discriminate|].
      intros Hb. inversion Hb; subst. clear Hb.
      assert (Hnew : success = true -> exists new, new_path = Some new).
      { intros Hs. destruct (Hsucc Hs) as (out & _ & _ & Hr). inversion Hr. eauto. }
      destruct (loop_body_raises h total start_time success original new_path error
                  (this b, done b) e (world b) w Hnew Hrun) as (ev & Hin & Hev).
      exists ev. split; [|exact Hev]. cbn [log]. apply elem_of_app. right. exact Hin.
    + pose proof (inv_tasks _ _ _ _ _ _ _ HI) as Ht.
      rewrite Forall_lookup in Ht. specialize (Ht _ _ Hi). cbn in Ht.
      destruct Ht as (r0 & Hr0 & _). discriminate.
Qed.

Lemma run_aborted (sched : list Action) :
  forall (b b' : Batch W) (e : Exn),
    Plain b -> run h total start_time sched b = Aborted e b' ->
    exists ev, ev ∈ log b' /\ raising ev.
Proof.
  induction sched as [|a sched IH]; intros b b' e HI; cbn [run]; [discriminate|].
  destruct (step h total start_time a b) as [|b1|e1 b1] eqn:Hstep; [discriminate| |].
  - apply IH. exact (plain_step a b b1 HI Hstep).
  - intros Hb. inversion Hb; subst. exact (step_aborted a b b' e HI Hstep).
Qed.

End AbortCause.

(** A call of [convert_all] on a fresh converter with at least one worker
    raises only when a call it made raised: no division by zero and no
    missing [new_path] stops it. *)
Lemma convert_all_raises {W : Type} (h : Handler W) (self : ImageConverter)
    (sched : list Action) (w w' : W) (e : Exn) (evs : list Event) :
  converted_files self = [] -> 0 < max_workers self ->
  convert_all h self sched w = Some (Raised e, w', evs) ->
  exists ev, ev ∈ evs /\ raising ev.
Proof.
  intros Hc Hworkers. unfold convert_all.
  destruct (exec h (prologue self) w) as [[[[found start]|]|e0] w1] eqn:Hpro.
  - destruct (Z.leb_spec (max_workers self) 0) as [|_]; [lia|].
    pose proof (submit_all_inv h (fun _ => True) (fun _ => False) self found
                  (trace h (prologue self) w) w1 I) as HI0.
    destruct (run h (length found) start sched _) as [|b|e1 b] eqn:Hrun; [discriminate| |].
    + destruct (all_collected b); [|discriminate].
      pose proof (run_inv h (fun _ => True) (fun _ => False) (fun _ _ _ _ _ => I)
                    (fun _ _ _ (F : False) => match F with end)
                    self found _ (length found) start sched _ _ HI0 Hrun) as HI.
      destruct (exec h (summary (this b) start) (world b)) as [[u|e1] w2] eqn:Hfin;
        [discriminate|].
      intros Hb. inversion Hb; subst. clear Hb.
      assert (Hnew : forall original new_path,
                 (original, new_path) ∈ converted_files (this b) ->
                 exists q, new_path = Some q).
      { intros original new_path Hin.
        rewrite (inv_converted _ _ _ _ _ _ _ HI), Hc in Hin. cbn [app] in Hin.
        destruct (inv_success _ _ _ _ _ _ _ HI _ _ Hin) as (out & _ & _ & ->). eauto. }
      destruct (summary_raises h (this b) start e (world b) w' Hnew Hfin)
        as (ev & Hin & Hev).
      exists ev. split; [|exact Hev]. apply elem_of_app. right. exact Hin.
    + intros Hb. inversion Hb; subst. clear Hb.
      exact (run_aborted h self found _ (length found) start sched _ _ _ HI0 Hrun).
  - discriminate.
  - intros Hb. inversion Hb; subst. clear Hb.
    exact (prologue_raises h self _ _ _ Hpro).
Qed.

(** ** The pool runs to the end *)

Section PoolCompletes.

Context {W : Type}.
Variable h : Handler W.
Variable total : nat.
Variable start_time : Q.

Lemma run_app (s1 s2 : list Action) (b : Batch W) :
  run h total start_time (s1 ++ s2) b =
    match run h total start_time s1 b with
    | Next b' => run h total start_time s2 b'
    | r => r
    end.
Proof.
  revert b. induction s1 as [|a s1 IH]; intros b; cbn [run app]; [reflexivity|].
  destruct (step h total start_time a b); auto.
Qed.

Lemma no_active_filter (ts : list (Path * TaskState)) :
  Forall (fun t => is_active t = false) ts -> List.filter is_active ts = [].
Proof.
  induction 1 as [|t ts Ht _ IH]; [reflexivity|]. cbn. rewrite Ht. exact IH.
Qed.

(** No deadlock: while a future is outstanding some thread can take a step. *)
Lemma pool_progress (b : Batch W) :
  0 < max_workers (this b) -> all_collected b = false ->
  exists a : Action, step h total start_time a b <> Disabled.
Proof.
  intros Hworkers Hall.
  destruct (decide (Exists (fun t => is_active t = true) (tasks b))) as [Hact|Hact].
  { apply Exists_exists in Hact as ([img st] & Hin & Ha).
    apply list_elem_of_lookup in Hin as [i Hi].
    exists (Work i). cbn [step]. rewrite Hi.
    destruct st as [|[r|e|X e k]| |]; cbn in Ha |- *; congruence. }
  destruct (decide (Exists (fun t => is_finished t = true) (tasks b))) as [Hfin|Hfin].
  { apply Exists_exists in Hfin as ([img st] & Hin & Hf).
    apply list_elem_of_lookup in Hin as [i Hi].
    exists (Collect i). cbn [step]. rewrite Hi.
    destruct st as [| |[r|e]|]; cbn in Hf |- *; try congruence.
    destruct (exec h _ (world b)) as [[[self completed]|e] w]; congruence. }
  destruct (list_find (fun t => is_queued t = true) (tasks b)) as [[i [img st]]|] eqn:Hq.
  { apply list_find_Some in Hq as (Hi & Hst & Hmin).
    exists (Start i). cbn [step]. rewrite Hi.
    destruct st; cbn in Hst; try discriminate.
    assert (Hbefore : forallb (fun t => negb (is_queued t)) (take i (tasks b)) = true).
    { apply forallb_forall. intros t Hin%list_elem_of_In.
      apply elem_of_take in Hin as (j & Hj & Hlt).
      specialize (Hmin j t Hj Hlt). destruct (is_queued t); [contradiction|reflexivity]. }
    rewrite Hbefore, no_active_filter.
    - cbn [length andb]. change (Z.of_nat 0) with 0.
      destruct (Z.ltb_spec 0 (max_workers (this b))); [discriminate|lia].
    - apply Forall_forall. intros t Hin.
      destruct (is_active t) eqn:Ha; [|reflexivity].
      exfalso. apply Hact. apply Exists_exists. eauto. }
  exfalso. apply list_find_None in Hq.
  assert (Htrue : all_collected b = true); [|congruence].
  unfold all_collected. apply forallb_forall. intros [img st] Hin%list_elem_of_In.
  rewrite Forall_forall in Hq. specialize (Hq _ Hin).
  destruct st; try reflexivity.
  - exfalso. apply Hq. reflexivity.
  - exfalso. apply Hact. apply Exists_exists. eexists; split; [exact Hin|reflexivity].
  - exfalso. apply Hfin. apply Exists_exists. eexists; split; [exact Hin|reflexivity].
Qed.

(** A worker that has taken a task delivers a result after finitely many
    steps. *)
Lemma worker_finishes (k : Prog ConvResult) :
  forall (b : Batch W) (i : nat) (img : Path),
    tasks b !! i = Some (img, Active k) ->
    exists (n : nat) (o : Outcome ConvResult) (b' : Batch W),
      run h total start_time (repeat (Work i) n) b = Next b' /\
      tasks b' = <[i := (img, Finished o)]> (tasks b) /\
      this b' = this b /\ done b' = done b.
Proof.
  induction k as [r|e|X e k IH]; intros b i img Hi.
  - exists 1%nat, (Returned r). eexists. cbn [repeat run step]. rewrite Hi.
    repeat split.
  - exists 1%nat, (Raised e). eexists. cbn [repeat run step]. rewrite Hi.
    repeat split.
  - set (b1 := set_task b i img (Active (k (h _ e (world b)).1)) (h _ e (world b)).2
                 [Ev e (h _ e (world b)).1]).
    assert (Hi1 : tasks b1 !! i = Some (img, Active (k (h _ e (world b)).1))).
    { cbn. apply list_lookup_insert_eq. eapply lookup_lt_Some. exact Hi. }
    destruct (IH _ b1 i img Hi1) as (n & o & b' & Hrun & Htasks & Hthis & Hdone).
    exists (S n), o, b'. cbn [repeat run step]. rewrite Hi. fold b1.
    split; [exact Hrun|]. split; [|split; assumption].
    rewrite Htasks. cbn. apply list_insert_insert_eq.
Qed.

Lemma all_collected_done (imgs : list Path) :
  forallb is_collected (map (fun img : Path => (img, Collected)) imgs) = true.
Proof. induction imgs as [|img l IH]; [reflexivity|exact IH]. Qed.

Lemma none_active (done_imgs rest : list Path) :
  List.filter is_active
    (map (fun img : Path => (img, Collected)) done_imgs
     ++ map (fun img : Path => (img, Queued)) rest) = [].
Proof.
  apply no_active_filter, Forall_app. split; apply Forall_forall;
    intros t [img [-> _]]%list_elem_of_fmap; reflexivity.
Qed.

(** Taking the tasks one after the other is a complete run of the pool:
    it ends with every future handed over, or with an exception in the main
    thread. *)
Lemma sequential_run (rest : list Path) :
  forall (done_imgs : list Path) (b : Batch W),
    tasks b = map (fun img => (img, Collected)) done_imgs
              ++ map (fun img => (img, Queued)) rest ->
    0 < max_workers (this b) ->
    exists sched : list Action,
      (exists b', run h total start_time sched b = Next b' /\ all_collected b' = true) \/
      (exists e b', run h total start_time sched b = Aborted e b').
Proof.
  induction rest as [|img rest IH]; intros done_imgs b Htasks Hworkers.
  - exists []. left. exists b. split; [reflexivity|].
    unfold all_collected. rewrite Htasks, app_nil_r. apply all_collected_done.
  - set (i := length done_imgs).
    assert (Hlen : length (map (fun img : Path => (img, Collected)) done_imgs) = i)
      by apply length_map.
    assert (Hi : tasks b !! i = Some (img, Queued)).
    { rewrite Htasks, lookup_app_r by lia. rewrite Hlen, Nat.sub_diag. reflexivity. }
    set (b1 := set_task b i img (Active (convert_image (this b) img)) (world b) []).
    assert (Hstart : step h total start_time (Start i) b = Next b1).
    { cbn [step]. rewrite Hi.
      rewrite Htasks at 1. rewrite (take_app_length' _ _ i) by (symmetry; exact Hlen).
      rewrite Htasks at 1. rewrite none_active.
      replace (forallb _ _) with true.
      - cbn [length andb]. change (Z.of_nat 0) with 0.
        destruct (Z.ltb_spec 0 (max_workers (this b))); [reflexivity|lia].
      - symmetry. apply forallb_forall.
        intros t [img' [-> _]]%list_elem_of_In%list_elem_of_fmap. reflexivity. }
    assert (Hi1 : tasks b1 !! i = Some (img, Active (convert_image (this b) img))).
    { cbn. apply list_lookup_insert_eq. eapply lookup_lt_Some. exact Hi. }
    destruct (worker_finishes _ b1 i img Hi1) as (n & o & b2 & Hwork & Htasks2 & Hthis2 & Hdone2).
    assert (Hi2 : tasks b2 !! i = Some (img, Finished o)).
    { rewrite Htasks2. apply list_lookup_insert_eq. eapply lookup_lt_Some. exact Hi1. }
    assert (Hprefix : forall tail,
               run h total start_time (Start i :: repeat (Work i) n ++ tail) b
               = run h total start_time tail b2).
    { intros tail. cbn [run]. rewrite Hstart, run_app, Hwork. reflexivity. }
    destruct o as [r|e].
    2: { exists (Start i :: repeat (Work i) n ++ [Collect i]). right.
         exists e, b2. rewrite Hprefix. cbn [run step]. rewrite Hi2. reflexivity. }
    destruct (exec h (loop_body total start_time r (this b2, done b2)) (world b2))
      as [[[self completed]|e] w] eqn:Hbody.
    2: { exists (Start i :: repeat (Work i) n ++ [Collect i]). right.
         eexists e, _. rewrite Hprefix. cbn [run step]. rewrite Hi2, Hbody. reflexivity. }
    set (b3 := {| world := w; tasks := <[i := (img, Collected)]> (tasks b2);
                  this := self; done := completed;
                  log := log b2 ++ trace h (loop_body total start_time r
                                               (this b2, done b2)) (world b2) |}).
    assert (Hcollect : step h total start_time (Collect i) b2 = Next b3).
    { cbn [step]. rewrite Hi2, Hbody. reflexivity. }
    destruct r as [[[success original] new_path] error].
    destruct (loop_body_result _ _ _ _ _ _ _ _ _ _ _ _ _ Hbody) as (_ & _ & Hw & _).
    destruct (IH (done_imgs ++ [img]) b3) as [sched Hsched].
    { cbn [tasks b3]. rewrite Htasks2. cbn [tasks b1 set_task].
      rewrite !list_insert_insert_eq, Htasks.
      rewrite insert_app_r_alt by lia. rewrite Hlen, Nat.sub_diag.
      rewrite map_app, <- app_assoc. reflexivity. }
    { cbn [this b3]. rewrite Hw, Hthis2. exact Hworkers. }
    exists (Start i :: repeat (Work i) n ++ Collect i :: sched).
    rewrite Hprefix. cbn [run]. rewrite Hcollect. exact Hsched.
Qed.

End PoolCompletes.

(** With at least one worker, [convert_all] has a complete run from every
    world. *)
Lemma convert_all_has_a_run {W : Type} (h : Handler W) (self : ImageConverter) (w : W) :
  0 < max_workers self ->
  exists (sched : list Action) (ending : Ending W),
    convert_all h self sched w = Some ending.
Proof.
  intros Hworkers. unfold convert_all.
  destruct (exec h (prologue self) w) as [[[[found start]|]|e] w1];
    try (exists []; eexists; reflexivity).
  destruct (Z.leb_spec (max_workers self) 0) as [|_]; [lia|].
  destruct (sequential_run h (length found) start found []
              (submit_all self found w1 (trace h (prologue self) w)) eq_refl Hworkers)
    as [sched [(b' & Hrun & Hall)|(e & b' & Hrun)]]; exists sched; rewrite Hrun.
  - rewrite Hall. destruct (exec h (summary (this b') start) (world b')) as [[u|e] w2];
      eexists; reflexivity.
  - eexists; reflexivity.
Qed.

(** ** The batch accounts for every image *)

(** C1.  Every image found is submitted as one task.  With at least one
    worker the pool never deadlocks while a future is outstanding,
    [convert_all] has a complete run from every world, and a complete run
    ends in an exception only when a call it made raised: a call of the
    file system or of the subprocess, or the [print] of a progress line
    that standard output refused.  When
    [convert_all], called on a fresh converter, returns, every discovered
    image has exactly one entry in [converted_files] or [failed_files]: the
    originals recorded are a permutation of the images found, so the two
    lengths add up to their number. *)
Theorem convert_all_accounts_for_every_image {W : Type} (h : Handler W)
    (self : ImageConverter) (w : W) (images : list Path) :
  converted_files self = [] -> failed_files self = [] ->
  (exec h (find_images self) w).1 = Returned images ->
  (forall (w1 : W) (evs : list Event),
      map fst (tasks (submit_all self images w1 evs)) = images) /\
  (forall (total : nat) (start_time : Q) (b : Batch W),
      0 < max_workers (this b) -> all_collected b = false ->
      exists a : Action, step h total start_time a b <> Disabled) /\
  (0 < max_workers self ->
   exists (sched : list Action) (ending : Ending W),
     convert_all h self sched w = Some ending) /\
  (forall (sched : list Action) (self' : ImageConverter) (w' : W) (evs : list Event),
      convert_all h self sched w = Some (Returned self', w', evs) ->
      (length (converted_files self') + length (failed_files self') = length images)%nat /\
      map fst (converted_files self') ++ map fst (failed_files self') ≡ₚ images) /\
  (forall (sched : list Action) (e : Exn) (w' : W) (evs : list Event),
      0 < max_workers self ->
      convert_all h self sched w = Some (Raised e, w', evs) ->
      exists ev, ev ∈ evs /\ raising ev).
Proof.
  intros Hc Hf Himages.
  split; [|split; [|split; [|split]]].
  - intros w1 evs. cbn. rewrite map_map. apply map_id.
  - intros total start_time b. apply pool_progress.
  - apply convert_all_has_a_run.
  - intros sched self' w' evs Hrun.
    destruct (convert_all_returns h (fun _ => True) (fun _ => False)
                (fun _ _ _ _ _ => I) (fun _ _ _ (F : False) => match F with end)
                self sched w w' self' evs I Hrun) as (found & Hfound & Hcases).
    rewrite Himages in Hfound. inversion Hfound; subst found. clear Hfound.
    assert (Hperm : map fst (converted_files self') ++ map fst (failed_files self')
                    ≡ₚ images).
    { destruct Hcases as [(-> & -> & _)|(b & pro & fin & HI & Hall & -> & _)].
      - rewrite Hc, Hf. reflexivity.
      - pose proof (inv_recorded _ _ _ _ _ _ _ HI) as Hrec.
        unfold new_converted, new_failed in Hrec. rewrite Hc, Hf in Hrec.
        cbn [length drop] in Hrec.
        rewrite Hrec, (all_collected_paths _ Hall).
        rewrite (inv_images _ _ _ _ _ _ _ HI). reflexivity. }
    split; [|exact Hperm].
    apply Permutation_length in Hperm. rewrite length_app, !length_map in Hperm.
    exact Hperm.
  - intros sched e w' evs Hworkers Hrun.
    exact (convert_all_raises h self sched w w' e evs Hc Hworkers Hrun).
Qed.

Lemma convert_all_accounts_for_every_image_witness :
  let h := Posix.handler (Scenario.machine Scenario.judge) in
  exists (self' : ImageConverter) (w' : Posix.World) (evs : list Event),
    convert_all h (Scenario.converter 2 7) Scenario.interleaved
      (Scenario.at_start Scenario.pics) = Some (Returned self', w', evs) /\
    (length (converted_files self') + length (failed_files self') = 4)%nat /\
    map fst (converted_files self') ++ map fst (failed_files self')
      ≡ₚ [["pics"; "a.png"]; ["pics"; "b.jpg"]; ["pics"; "c.bmp"]; ["pics"; "d.gif"]].
Proof.
  intros h.
  destruct (convert_all h (Scenario.converter 2 7) Scenario.interleaved
              (Scenario.at_start Scenario.pics)) as [[[[self'|e] w'] evs]|] eqn:Hrun;
    try (vm_compute in Hrun; discriminate).
  exists self', w', evs. split; [reflexivity|].
  exact (proj1 (proj2 (proj2 (proj2
           (convert_all_accounts_for_every_image h (Scenario.converter 2 7)
              (Scenario.at_start Scenario.pics)
              [["pics"; "a.png"]; ["pics"; "b.jpg"]; ["pics"; "c.bmp"]; ["pics"; "d.gif"]]
              eq_refl eq_refl eq_refl))))
           Scenario.interleaved self' w' evs Hrun).
Defined.

(** The scenario of the specification, run under two workers. *)
(** A progress line that standard output refuses ends the batch: the
    image is converted, its line carries its name, the terminal does not
    take the name, and [convert_all] ends in the exception of that [print]
    with nothing returned. *)
Example batch_ends_on_a_refused_line :
  let h := Posix.handler (Scenario.terminal Scenario.judge_odd) in
  exists (w' : Posix.World) (evs : list Event) (m : Msg),
    convert_all h (Scenario.converter 2 7) (Scenario.one_by_one 0 [4]%nat)
      (Scenario.at_start Scenario.odd_image)
    = Some (Raised (Exc Posix.unencodable), w', evs) /\
    last evs = Some (Ev (PrintText m) (Err Posix.unencodable)) /\
    progress_of m = [(1, 1)]%nat /\
    Posix.exists_ (Posix.fs w') ["pics"; Scenario.odd_name +:+ ".jxl"] = Ok true /\
    Posix.console w' = [MsgFound 1; MsgWorkers 2; MsgEffort 7].
Proof.
  intros h.
  destruct (convert_all h (Scenario.converter 2 7) (Scenario.one_by_one 0 [4]%nat)
              (Scenario.at_start Scenario.odd_image)) as [[[[self'|e] w'] evs]|] eqn:Hrun;
    try (vm_compute in Hrun; discriminate).
  vm_compute in Hrun. injection Hrun as <- <- <-. eexists _, _, _. repeat split.
Qed.

Example scenario_counts :
  match convert_all (Posix.handler (Scenario.machine Scenario.judge))
          (Scenario.converter 2 7) Scenario.interleaved (Scenario.at_start Scenario.pics)
  with
  | Some (Returned self', _, _) =>
      converted_files self' = [(["pics"; "a.png"], Some ["pics"; "a.jxl"])] /\
      failed_files self' = [(["pics"; "b.jpg"], skip_message); (["pics"; "c.bmp"], "boom");
                            (["pics"; "d.gif"], "bad input")]
  | _ => False
  end.
Proof. vm_compute. split; reflexivity. Qed.

(** A directory without images: the report, and no pool. *)
Example nothing_found :
  convert_all (Posix.handler (Scenario.machine Scenario.judge)) (Scenario.converter 2 7)
    [] (Scenario.at_start Scenario.bare)
  = Some (Returned (Scenario.converter 2 7),
          {| Posix.fs := Scenario.bare; Posix.clock := 0; Posix.console := [MsgNoImages] |},
          [Ev (OsWalk ["pics"] None) (Ok [(["pics"], [], ["notes.txt"])]);
           Ev (Print MsgNoImages) tt]).
Proof. reflexivity. Qed.

(** ** Running the batch again *)

(** C3, as amended.  A call of [convert_image] whose output exists returns
    the skip tuple and starts no subprocess.  In a batch over worlds in which
    the outputs [kept] stay in existence, every discovered image whose output
    is kept is recorded as skipped and is not converted, and the encoder is
    started only for images whose output is not kept; when the output of
    every discovered image is kept, the batch has no success and starts no
    subprocess. *)
Theorem rerun_skips_kept_outputs {W : Type} (h : Handler W) (stable : W -> Prop)
    (kept : Path -> Prop) (self self' : ImageConverter) (sched : list Action)
    (w w' : W) (evs : list Event) :
  (forall (X : Type) (e : Eff X) (w : W),
      unlinked_of (Ev e (h _ e w).1) = [] -> stable w -> stable (h _ e w).2) ->
  (forall (w : W) (out : Path),
      stable w -> kept out -> (h _ (PathExists out) w).1 = Ok true) ->
  stable w ->
  converted_files self = [] -> failed_files self = [] ->
  convert_all h self sched w = Some (Returned self', w', evs) ->
  (forall (img out : Path) (w0 : W),
      PurePath.with_suffix img ".jxl" = Ok out ->
      (h _ (PathExists out) w0).1 = Ok true ->
      (exec h (convert_image self img) w0).1 = Returned (false, img, Some out, skip_message) /\
      spawned (trace h (convert_image self img) w0) = []) /\
  exists images : list Path,
    (exec h (find_images self) w).1 = Returned images /\
    (forall img out : Path,
        img ∈ images -> PurePath.with_suffix img ".jxl" = Ok out -> kept out ->
        ((img, skip_message) ∈ failed_files self') /\
        (img ∉ map fst (converted_files self')) /\
        forall error, (img, error) ∈ failed_files self' -> error = skip_message) /\
    (forall cmd, cmd ∈ spawned evs ->
       exists img out, img ∈ images /\ PurePath.with_suffix img ".jxl" = Ok out /\
                       ~ kept out /\ cmd = cjxl_command self img out) /\
    ((forall img, img ∈ images ->
        exists out, PurePath.with_suffix img ".jxl" = Ok out /\ kept out) ->
     converted_files self' = [] /\ spawned evs = []).
Proof.
  intros Hstep Hkept Hw Hc Hf Hrun. split.
  { intros img out w0. apply convert_image_skips_existing. }
  destruct (convert_all_returns h stable kept Hstep Hkept self sched w w' self' evs Hw Hrun)
    as (images & Hfound & Hcases).
  exists images. split; [exact Hfound|].
  destruct Hcases as [(-> & -> & Hsp & _)|(b & pro & fin & HI & Hall & -> & -> & Hcase)].
  { rewrite Hsp, Hc. repeat split; intros; exfalso; eapply not_elem_of_nil; eassumption. }
  destruct Hcase as (Hpro & _ & Hfin & _).
  pose proof (inv_recorded _ _ _ _ _ _ _ HI) as Hrec.
  pose proof (inv_success _ _ _ _ _ _ _ HI) as Hsuccess.
  pose proof (inv_skipped _ _ _ _ _ _ _ HI) as Hskipped.
  unfold new_converted, new_failed in Hrec, Hsuccess, Hskipped.
  rewrite Hc, Hf in *. cbn [length drop] in Hrec, Hsuccess, Hskipped.
  rewrite (all_collected_paths _ Hall), (inv_images _ _ _ _ _ _ _ HI) in Hrec.
  assert (Hnot : forall img out, PurePath.with_suffix img ".jxl" = Ok out -> kept out ->
                   img ∉ map fst (converted_files (this b))).
  { intros img out Hout Hk [[o n] [Ho Hin]]%list_elem_of_fmap. cbn in Ho. subst o.
    destruct (Hsuccess _ _ Hin) as (out' & Hout' & Hk' & _).
    rewrite Hout in Hout'. inversion Hout'; subst. contradiction. }
  split; [|split].
  - intros img out Himg Hout Hk. split; [|split].
    + rewrite <- Hrec in Himg. apply elem_of_app in Himg as [Himg|Himg].
      * exfalso. exact (Hnot img out Hout Hk Himg).
      * apply list_elem_of_fmap in Himg as ([o error] & Ho & Hin). cbn in Ho. subst o.
        rewrite <- (Hskipped _ _ _ Hin Hout Hk). exact Hin.
    + exact (Hnot img out Hout Hk).
    + intros error Hin. exact (Hskipped _ _ _ Hin Hout Hk).
  - intros cmd. rewrite spawned_app, Hfin, app_nil_r. intros Hin.
    destruct (inv_log _ _ _ _ _ _ _ HI cmd Hin) as [Hin'|Hin'].
    + rewrite Hpro in Hin'. inversion Hin'.
    + exact Hin'.
  - intros Hall_kept.
    assert (Hnone : converted_files (this b) = []).
    { destruct (converted_files (this b)) as [|[o n] l] eqn:Hl; [reflexivity|]. exfalso.
      assert (Ho : o ∈ images).
      { rewrite <- Hrec. apply elem_of_app. left. cbn. left. }
      destruct (Hall_kept o Ho) as (out & Hout & Hk).
      apply (Hnot o out Hout Hk). try rewrite Hl. cbn. left. }
    split; [exact Hnone|].
    rewrite spawned_app, Hfin, app_nil_r.
    destruct (spawned (log b)) as [|cmd l] eqn:Hl; [reflexivity|]. exfalso.
    destruct (inv_log _ _ _ _ _ _ _ HI cmd) as [Hin'|(img & out & Himg & Hout & Hk & _)].
    + try rewrite Hl. left.
    + rewrite Hpro in Hin'. inversion Hin'.
    + destruct (Hall_kept img Himg) as (out' & Hout' & Hk').
      rewrite Hout in Hout'. inversion Hout'; subst. contradiction.
Qed.

Lemma refuse_leaves_tree (X : Type) (e : Eff X) (w : Posix.World) :
  unlinked_of (Ev e (Posix.handler (Scenario.machine Scenario.refuse) _ e w).1) = [] ->
  Posix.fs w = Scenario.pics ->
  Posix.fs (Posix.handler (Scenario.machine Scenario.refuse) _ e w).2 = Scenario.pics.
Proof.
  intros Hu Hw. destruct e; cbn in *; try assumption; try discriminate.
  unfold Posix.subprocess_run. cbn.
  destruct cmd as [|c0 [|c1 [|c2 cmd]]]; cbn;
    match goal with |- context [Qle_bool ?a ?b] => destruct (Qle_bool a b) end;
    cbn; assumption.
Qed.

Lemma pics_has_b_jxl (w : Posix.World) (out : Path) :
  Posix.fs w = Scenario.pics -> out = ["pics"; "b.jxl"] ->
  (Posix.handler (Scenario.machine Scenario.refuse) _ (PathExists out) w).1 = Ok true.
Proof. intros Hw ->. cbn. rewrite Hw. reflexivity. Qed.

Lemma rerun_skips_kept_outputs_witness :
  let h := Posix.handler (Scenario.machine Scenario.refuse) in
  exists (self' : ImageConverter) (w' : Posix.World) (evs : list Event),
    convert_all h (Scenario.converter 2 7) (Scenario.one_by_one 0 [3; 2; 3; 3]%nat)
      (Scenario.at_start Scenario.pics) = Some (Returned self', w', evs) /\
    ((["pics"; "b.jpg"], skip_message) ∈ failed_files self') /\
    (["pics"; "b.jpg"] ∉ map fst (converted_files self')).
Proof.
  intros h.
  destruct (convert_all h (Scenario.converter 2 7)
              (Scenario.one_by_one 0 [3; 2; 3; 3]%nat)
              (Scenario.at_start Scenario.pics)) as [[[[self'|e] w'] evs]|] eqn:Hrun;
    try (vm_compute in Hrun; discriminate).
  exists self', w', evs. split; [reflexivity|].
  destruct (rerun_skips_kept_outputs h (fun w => Posix.fs w = Scenario.pics)
              (fun out => out = ["pics"; "b.jxl"]) (Scenario.converter 2 7) self'
              (Scenario.one_by_one 0 [3; 2; 3; 3]%nat)
              (Scenario.at_start Scenario.pics) w' evs
              refuse_leaves_tree pics_has_b_jxl eq_refl eq_refl eq_refl Hrun)
    as (_ & images & Himages & Hskip & _).
  vm_compute in Himages. inversion Himages; subst images.
  destruct (Hskip ["pics"; "b.jpg"] ["pics"; "b.jxl"]) as (H1 & H2 & _).
  - apply list_elem_of_In. cbn. auto.
  - reflexivity.
  - reflexivity.
  - split; assumption.
Defined.

(** C3 as stated does not hold: the encoder of [big.png] does not finish
    within the timeout on the first run, which records a failure and leaves
    the directory as it was; the second run on the same directory converts
    the image. *)
Lemma failed_conversion_succeeds_on_rerun :
  let h := Posix.handler (Scenario.machine Scenario.busy) in
  let w0 := Scenario.at_start Scenario.large in
  exists (s1 s2 : ImageConverter) (w1 w2 : Posix.World) (e1 e2 : list Event),
    convert_all h (Scenario.converter 2 7) (Scenario.one_by_one 0 [3%nat]) w0
      = Some (Returned s1, w1, e1) /\
    converted_files s1 = [] /\
    failed_files s1 = [(["pics"; "big.png"], timeout_message)] /\
    Posix.fs w1 = Posix.fs w0 /\
    convert_all h (Scenario.converter 2 7) (Scenario.one_by_one 0 [4%nat]) w1
      = Some (Returned s2, w2, e2) /\
    converted_files s2 = [(["pics"; "big.png"], Some ["pics"; "big.jxl"])] /\
    failed_files s2 = [].
Proof.
  cbv zeta. eexists _, _, _, _, _, _.
  split; [vm_compute; reflexivity|].
  split; [reflexivity|]. split; [reflexivity|]. split; [reflexivity|].
  split; [vm_compute; reflexivity|].
  split; reflexivity.
Qed.

(** The second run over [pics] after the first: the image converted by the
    first run is now skipped, the two that failed are attempted again. *)
Example second_run_of_scenario :
  let h := Posix.handler (Scenario.machine Scenario.judge) in
  match convert_all h (Scenario.converter 2 7) Scenario.interleaved
          (Scenario.at_start Scenario.pics) with
  | Some (Returned _, w1, _) =>
      match convert_all h (Scenario.converter 2 7)
              (Scenario.one_by_one 0 [2; 2; 3; 3]%nat) w1 with
      | Some (Returned s2, _, evs) =>
          converted_files s2 = [] /\
          failed_files s2 = [(["pics"; "a.png"], skip_message);
                             (["pics"; "b.jpg"], skip_message);
                             (["pics"; "c.bmp"], "boom");
                             (["pics"; "d.gif"], "bad input")] /\
          map (fun cmd => nth 1 cmd "") (spawned evs) = ["pics/c.bmp"; "pics/d.gif"]
      | _ => False
      end
  | _ => False
  end.
Proof. vm_compute. repeat split. Qed.

(** ** Where the sizes come from *)

Lemma stated_app (t1 t2 : list Event) : stated (t1 ++ t2) = stated t1 ++ stated t2.
Proof. unfold stated. apply flat_map_app. Qed.

Lemma sizes_read_app (t1 t2 : list Event) :
  sizes_read (t1 ++ t2) = sizes_read t1 ++ sizes_read t2.
Proof. unfold sizes_read. apply flat_map_app. Qed.

Lemma sum_N_app (l1 l2 : list N) : sum_N (l1 ++ l2) = (sum_N l1 + sum_N l2)%N.
Proof.
  unfold sum_N. induction l1 as [|a l1 IH]; cbn [fold_right app]; [reflexivity|].
  rewrite IH. lia.
Qed.

Section Sizes.

Context {W : Type}.
Variable h : Handler W.

(** The loop body on a success: two calls of [stat], whose answers are
    the sizes printed. *)
Lemma loop_body_reads_sizes (total : nat) (start_time : Q) (self : ImageConverter)
    (completed : nat) (original new_path : Path) (error : string)
    (vars' : ImageConverter * nat) (w w' : W)
    (body := loop_body total start_time (true, original, Some new_path, error)
               (self, completed)) :
  exec h body w = (Returned vars', w') ->
  stated (trace h body w) = [original; new_path] /\
  exists osz nsz : N,
    sizes_read (trace h body w) = [osz; nsz] /\
    reported_sizes (printed (trace h body w))
      = [(mebibytes (Q_of_N osz), mebibytes (Q_of_N nsz))].
Proof.
  subst body. unfold loop_body. cbn [exec trace bind perform fst snd].
  set (w1 := (h _ TimeTime w).2). set (now := (h _ TimeTime w).1).
  destruct (truediv (now - start_time) (Q_of_nat (S completed))) as [avg|e];
    cbn [lift bind exec trace attempt]; [|discriminate].
  destruct (h _ (PathStatSize original) w1) as [[osz|e] w2];
    cbn [lift bind exec trace fst snd stat_size attempt]; [|discriminate].
  destruct (h _ (PathStatSize new_path) w2) as [[nsz|e] w3];
    cbn [lift bind exec trace fst snd]; [|discriminate].
  destruct (ratio_of _ _) as [ratio|e];
    cbn [lift bind exec trace fst snd print_text attempt]; [|discriminate].
  destruct (h _ (PrintText _) w3) as [[[]|e] w4]; cbn [lift bind exec trace fst snd];
    [|discriminate].
  intros _. split; [reflexivity|]. exists osz, nsz. split; reflexivity.
Qed.

Lemma sum_sizes_reads {A : Type} (f : A -> option Path) (files : list A) :
  forall (acc total : N) (w w' : W),
    let loop := for_each files
                  (fun x acc => let! sz := stat_size (f x) in Ret (acc + sz)%N) acc in
    exec h loop w = (Returned total, w') ->
    map Some (stated (trace h loop w)) = map f files /\
    printed (trace h loop w) = [] /\
    length (sizes_read (trace h loop w)) = length files /\
    total = (acc + sum_N (sizes_read (trace h loop w)))%N.
Proof.
  induction files as [|a files IH]; intros acc total w w' loop; subst loop.
  - cbn. intros [= <- <-]. repeat split. lia.
  - cbn [for_each]. rewrite exec_bind, trace_bind.
    destruct (f a) as [q|] eqn:Hf; cbn [stat_size bind attempt exec trace fst snd];
      [|discriminate].
    destruct (h _ (PathStatSize q) w) as [[sz|e] w1] eqn:H1;
      cbn [lift bind exec trace fst snd]; [|discriminate].
    intros Hrun. destruct (IH _ _ _ _ Hrun) as (Hst & Hpr & Hlen & Htot).
    change (Ev ?e ?x :: [] ++ ?t) with ([Ev e x] ++ t).
    rewrite stated_app, printed_app, sizes_read_app, map_app, length_app, sum_N_app.
    cbn [map]. rewrite Hf, Hst, Hpr, Hlen, Htot.
    cbn. repeat split. lia.
Qed.

(** The size report of the summary: every path of [converted_files] is
    given to [stat] again, and the totals printed are the sums of the
    answers. *)
Lemma size_report_reads_sizes (self : ImageConverter) (total_time : Q) (w w' : W)
    (u : unit) (rep := size_report self total_time) :
  exec h rep w = (Returned u, w') ->
  map Some (stated (trace h rep w))
    = map (fun f => Some f.1) (converted_files self) ++ map snd (converted_files self) /\
  exists originals news : list N,
    sizes_read (trace h rep w) = originals ++ news /\
    length originals = length (converted_files self) /\
    length news = length (converted_files self) /\
    summary_sizes (printed (trace h rep w))
      = [(mebibytes (Q_of_N (sum_N originals)), mebibytes (Q_of_N (sum_N news)))].
Proof.
  subst rep. unfold size_report. set (files := converted_files self).
  destruct (truediv _ _) as [avg|e]; cbn [lift bind exec trace fst snd print perform];
    [|discriminate].
  set (w1 := (h _ (Print (MsgAvgSpeed avg)) w).2).
  rewrite exec_bind, trace_bind.
  destruct (exec h (sum_sizes (fun f => Some f.1) files) w1) as [[total_original|e] w2]
    eqn:Horig; [|discriminate].
  destruct (sum_sizes_reads (fun f => Some f.1) files _ _ _ _ Horig)
    as (Hst1 & Hpr1 & Hlen1 & Htot1).
  rewrite exec_bind, trace_bind.
  destruct (exec h (sum_sizes (fun f => f.2) files) w2) as [[total_new|e] w3]
    eqn:Hnew; [|discriminate].
  destruct (sum_sizes_reads (fun f => f.2) files _ _ _ _ Hnew)
    as (Hst2 & Hpr2 & Hlen2 & Htot2).
  destruct (ratio_of _ _) as [ratio|e]; cbn [lift bind exec trace fst snd print perform];
    [|discriminate].
  intros _.
  fold (sum_sizes (fun f : Path * option Path => Some f.1) files) in Hst1, Hpr1, Hlen1, Htot1.
  fold (sum_sizes (fun f : Path * option Path => f.2) files) in Hst2, Hpr2, Hlen2, Htot2.
  set (t1 := trace h (sum_sizes (fun f => Some f.1) files) w1) in *.
  set (t2 := trace h (sum_sizes (fun f => f.2) files) w2) in *.
  change (Ev ?e ?x :: t1 ++ t2 ++ ?t) with ([Ev e x] ++ t1 ++ t2 ++ t).
  rewrite !stated_app, !sizes_read_app, !printed_app.
  cbn [stated stated_of sizes_read size_read_of printed printed_of flat_map app].
  rewrite !app_nil_r, Hpr1, Hpr2. cbn [app].
  split.
  - rewrite map_app, Hst1, Hst2. reflexivity.
  - exists (sizes_read t1), (sizes_read t2).
    split; [reflexivity|]. split; [exact Hlen1|]. split; [exact Hlen2|].
    rewrite Htot1, Htot2. reflexivity.
Qed.

Lemma summary_reads_sizes (self : ImageConverter) (start_time : Q) (w w' : W)
    (u : unit) (fin := summary self start_time) :
  converted_files self <> [] ->
  exec h fin w = (Returned u, w') ->
  map Some (stated (trace h fin w))
    = map (fun f => Some f.1) (converted_files self) ++ map snd (converted_files self) /\
  exists originals news : list N,
    sizes_read (trace h fin w) = originals ++ news /\
    length originals = length (converted_files self) /\
    length news = length (converted_files self) /\
    summary_sizes (printed (trace h fin w))
      = [(mebibytes (Q_of_N (sum_N originals)), mebibytes (Q_of_N (sum_N news)))].
Proof.
  subst fin. unfold summary. intros Hne.
  cbn [bind perform print exec trace fst snd].
  set (w5 := (h _ (Print (MsgFailCount _)) _).2).
  set (total_time := ((h _ TimeTime w).1 - start_time)%Q).
  rewrite exec_bind, trace_bind.
  destruct (converted_files self) as [|c l] eqn:Hconv; [contradiction|].
  rewrite <- Hconv.
  destruct (exec h (size_report self total_time) w5) as [[u'|e] w6] eqn:Hrep;
    [|discriminate].
  destruct (size_report_reads_sizes self total_time w5 w6 u' Hrep)
    as (Hst & originals & news & Hsz & Hlo & Hln & Hsum).
  intros _. set (t := trace h (size_report self total_time) w5) in *.
  cbn [exec trace perform print].
  repeat match goal with
         | |- context [Ev ?e ?x :: ?l ++ ?r] =>
             change (Ev e x :: l ++ r) with ([Ev e x] ++ l ++ r)
         | |- context [Ev ?e ?x :: Ev ?e' ?x' :: ?r] =>
             change (Ev e x :: Ev e' x' :: r) with ([Ev e x] ++ Ev e' x' :: r)
         end.
  rewrite !stated_app, !sizes_read_app, !printed_app.
  cbn [stated stated_of sizes_read size_read_of printed printed_of flat_map app].
  rewrite !app_nil_r.
  split; [exact Hst|]. exists originals, news.
  split; [exact Hsz|]. split; [exact Hlo|]. split; [exact Hln|].
  unfold summary_sizes in *. cbn [flat_map totals_of app].
  rewrite flat_map_app, Hsum. reflexivity.
Qed.

End Sizes.

(** C7, as amended.  A conversion reads no size and its result tuple holds
    none.  The sizes printed for a converted file are the answers of two
    calls of [stat] made when the main thread handles the result; and the
    summary gives every path of [converted_files] to [stat] again, its totals
    being the sums of those answers. *)
Theorem sizes_are_read_by_stat {W : Type} (h : Handler W) (start_time : Q) :
  (forall (self : ImageConverter) (image_path : Path) (w : W),
      stated (trace h (convert_image self image_path) w) = []) /\
  (forall (total completed : nat) (self : ImageConverter) (original new_path : Path)
          (error : string) (vars' : ImageConverter * nat) (w w' : W),
      let body := loop_body total start_time (true, original, Some new_path, error)
                    (self, completed) in
      exec h body w = (Returned vars', w') ->
      stated (trace h body w) = [original; new_path] /\
      exists osz nsz : N,
        sizes_read (trace h body w) = [osz; nsz] /\
        reported_sizes (printed (trace h body w))
          = [(mebibytes (Q_of_N osz), mebibytes (Q_of_N nsz))]) /\
  (forall (self : ImageConverter) (w w' : W) (u : unit),
      let fin := summary self start_time in
      converted_files self <> [] ->
      exec h fin w = (Returned u, w') ->
      map Some (stated (trace h fin w))
        = map (fun f => Some f.1) (converted_files self)
          ++ map snd (converted_files self) /\
      exists originals news : list N,
        sizes_read (trace h fin w) = originals ++ news /\
        length originals = length (converted_files self) /\
        length news = length (converted_files self) /\
        summary_sizes (printed (trace h fin w))
          = [(mebibytes (Q_of_N (sum_N originals)), mebibytes (Q_of_N (sum_N news)))]).
Proof.
  split; [|split].
  - intros self image_path w. rewrite convert_image_trace.
    destruct (PurePath.with_suffix image_path ".jxl") as [out|e]; [|reflexivity].
    cbn zeta. destruct (h _ (PathExists out) w) as [[[|]|e] w1]; cbn [fst snd];
      try reflexivity.
    destruct (h _ (SubprocessRun _ true true 300) w1) as [[result|e] w2]; cbn [fst snd];
      [destruct (returncode result =? 0)|]; reflexivity.
  - intros total completed self original new_path error vars' w w' body.
    apply loop_body_reads_sizes.
  - intros self w w' u fin. apply summary_reads_sizes.
Qed.

Lemma sizes_are_read_by_stat_witness :
  let h := Posix.handler (Scenario.machine Scenario.judge) in
  let w := Scenario.at_start Scenario.pics in
  let body := loop_body 4 0 (true, ["pics"; "b.jpg"], Some ["pics"; "b.jxl"], "")
                (Scenario.converter 2 7, 0%nat) in
  let fin := summary (Scenario.with_success ["pics"; "b.jpg"] ["pics"; "b.jxl"]) 0 in
  (stated (trace h body w) = [["pics"; "b.jpg"]; ["pics"; "b.jxl"]] /\
   exists osz nsz : N,
     sizes_read (trace h body w) = [osz; nsz] /\
     reported_sizes (printed (trace h body w))
       = [(mebibytes (Q_of_N osz), mebibytes (Q_of_N nsz))]) /\
  (map Some (stated (trace h fin w)) = [Some ["pics"; "b.jpg"]; Some ["pics"; "b.jxl"]] /\
   exists originals news : list N,
     sizes_read (trace h fin w) = originals ++ news /\
     length originals = 1%nat /\ length news = 1%nat /\
     summary_sizes (printed (trace h fin w))
       = [(mebibytes (Q_of_N (sum_N originals)), mebibytes (Q_of_N (sum_N news)))]).
Proof.
  intros h w body fin.
  destruct (sizes_are_read_by_stat h 0) as (_ & HA & HB). split.
  - destruct (exec h body w) as [[vars'|e] w'] eqn:Hrun;
      [|vm_compute in Hrun; discriminate].
    exact (HA 4%nat 0%nat (Scenario.converter 2 7) ["pics"; "b.jpg"] ["pics"; "b.jxl"] ""
              vars' w w' Hrun).
  - destruct (exec h fin w) as [[u|e] w'] eqn:Hrun;
      [|vm_compute in Hrun; discriminate].
    apply (HB (Scenario.with_success ["pics"; "b.jpg"] ["pics"; "b.jxl"]) w w' u);
      [discriminate | exact Hrun].
Defined.

(** C7 as stated does not hold.  [a.png] and [a.jpg] are both converted to
    [a.jxl] by two workers.  Under the first schedule the sizes printed for
    the two files are 400 and 700 bytes, and the summary, which asks [stat]
    again, counts 700 twice.  Under the second schedule [a.jxl] has 400 bytes
    when the conversion of [a.png] returns, and the size printed for it is
    700, read when the result is handled. *)
Lemma summary_sizes_are_read_again :
  let h := Posix.handler (Scenario.machine Scenario.judge_twins) in
  let self := Scenario.converter 2 7 in
  let w0 := Scenario.at_start Scenario.twins in
  let size (n : Z) := mebibytes (inject_Z n) in
  (exists self' w' evs,
      convert_all h self Scenario.report_then_overwrite w0 = Some (Returned self', w', evs) /\
      converted_files self' = [(["pics"; "a.png"], Some ["pics"; "a.jxl"]);
                               (["pics"; "a.jpg"], Some ["pics"; "a.jxl"])] /\
      reported_sizes (printed evs) = [(size 1000, size 400); (size 2000, size 700)] /\
      summary_sizes (printed evs) = [(size 3000, size 1400)] /\
      (400 + 700 <> 1400)%N) /\
  (exists b,
      run h 2 0 Scenario.first_returned
        (submit_all self [["pics"; "a.png"]; ["pics"; "a.jpg"]]
           (exec h (prologue self) w0).2 [])
        = Next b /\
      tasks b !! 0%nat
        = Some (["pics"; "a.png"],
                Finished (Returned (true, ["pics"; "a.png"], Some ["pics"; "a.jxl"], ""))) /\
      Posix.stat_size (Posix.fs (world b)) ["pics"; "a.jxl"] = Ok 400%N) /\
  (exists self' w' evs,
      convert_all h self Scenario.overwrite_then_report w0 = Some (Returned self', w', evs) /\
      reported_sizes (printed evs) = [(size 1000, size 700); (size 2000, size 700)]).
Proof.
  cbv zeta. split; [|split].
  - eexists _, _, _. split; [vm_compute; reflexivity|].
    split; [reflexivity|]. split; [vm_compute; reflexivity|].
    split; [vm_compute; reflexivity|]. discriminate.
  - eexists. split; [vm_compute; reflexivity|]. split; reflexivity.
  - eexists _, _, _. split; [vm_compute; reflexivity|]. vm_compute. reflexivity.
Qed.

(** ** The ratio that is reported *)

Section Ratio.

Context {W : Type}.
Variable h : Handler W.

Lemma figures_app (l1 l2 : list Msg) : figures (l1 ++ l2) = figures l1 ++ figures l2.
Proof. apply flat_map_app. Qed.

(** The line of a success: the sizes are the two answers of [stat], and the
    ratio is the guarded expression on them. *)
Lemma loop_body_reports (total : nat) (start_time : Q) (self : ImageConverter)
    (completed : nat) (original new_path : Path) (error : string)
    (vars' : ImageConverter * nat) (w w' : W)
    (body := loop_body total start_time (true, original, Some new_path, error)
               (self, completed)) :
  exec h body w = (Returned vars', w') ->
  exists (osz nsz : N) (ratio : Q),
    sizes_read (trace h body w) = [osz; nsz] /\
    figures (printed (trace h body w))
    = [(mebibytes (Q_of_N osz), mebibytes (Q_of_N nsz), ratio)] /\
    ratio_of (mebibytes (Q_of_N nsz)) (mebibytes (Q_of_N osz)) = Ok ratio.
Proof.
  subst body. unfold loop_body. cbn [exec trace bind perform fst snd].
  set (w1 := (h _ TimeTime w).2). set (now := (h _ TimeTime w).1).
  destruct (truediv (now - start_time) (Q_of_nat (S completed))) as [avg|e];
    cbn [lift bind exec trace attempt]; [|discriminate].
  destruct (h _ (PathStatSize original) w1) as [[osz|e] w2];
    cbn [lift bind exec trace fst snd stat_size attempt]; [|discriminate].
  destruct (h _ (PathStatSize new_path) w2) as [[nsz|e] w3];
    cbn [lift bind exec trace fst snd]; [|discriminate].
  destruct (ratio_of _ _) as [ratio|e] eqn:Hratio;
    cbn [lift bind exec trace fst snd print_text attempt]; [|discriminate].
  destruct (h _ (PrintText _) w3) as [[[]|e] w4]; cbn [lift bind exec trace fst snd];
    [|discriminate].
  intros _. exists osz, nsz, ratio.
  split; [reflexivity|]. split; [reflexivity | exact Hratio].
Qed.

(** The line of the totals. *)
Lemma size_report_reports (self : ImageConverter) (total_time : Q) (w w' : W)
    (u : unit) (rep := size_report self total_time) :
  exec h rep w = (Returned u, w') ->
  exists (originals news : list N) (ratio : Q),
    sizes_read (trace h rep w) = originals ++ news /\
    length originals = length (converted_files self) /\
    length news = length (converted_files self) /\
    figures (printed (trace h rep w))
    = [(mebibytes (Q_of_N (sum_N originals)), mebibytes (Q_of_N (sum_N news)), ratio)] /\
    ratio_of (Q_of_N (sum_N news)) (Q_of_N (sum_N originals)) = Ok ratio.
Proof.
  subst rep. unfold size_report. set (files := converted_files self).
  destruct (truediv _ _) as [avg|e]; cbn [lift bind exec trace fst snd print perform];
    [|discriminate].
  set (w1 := (h _ (Print (MsgAvgSpeed avg)) w).2).
  rewrite exec_bind, trace_bind.
  destruct (exec h (sum_sizes (fun f => Some f.1) files) w1) as [[total_original|e] w2]
    eqn:Horig; [|discriminate].
  destruct (sum_sizes_reads h (fun f => Some f.1) files _ _ _ _ Horig)
    as (_ & Hpr1 & Hlen1 & Htot1).
  rewrite exec_bind, trace_bind.
  destruct (exec h (sum_sizes (fun f => f.2) files) w2) as [[total_new|e] w3]
    eqn:Hnew; [|discriminate].
  destruct (sum_sizes_reads h (fun f => f.2) files _ _ _ _ Hnew)
    as (_ & Hpr2 & Hlen2 & Htot2).
  destruct (ratio_of _ _) as [ratio|e] eqn:Hratio;
    cbn [lift bind exec trace fst snd print perform]; [|discriminate].
  intros _.
  fold (sum_sizes (fun f : Path * option Path => Some f.1) files) in Hpr1, Hlen1, Htot1.
  fold (sum_sizes (fun f : Path * option Path => f.2) files) in Hpr2, Hlen2, Htot2.
  set (t1 := trace h (sum_sizes (fun f => Some f.1) files) w1) in *.
  set (t2 := trace h (sum_sizes (fun f => f.2) files) w2) in *.
  change (Ev ?e ?x :: t1 ++ t2 ++ ?t) with ([Ev e x] ++ t1 ++ t2 ++ t).
  rewrite !sizes_read_app, !printed_app.
  cbn [sizes_read size_read_of printed printed_of flat_map app].
  rewrite !app_nil_r, Hpr1, Hpr2. cbn [app].
  exists (sizes_read t1), (sizes_read t2), ratio.
  split; [reflexivity|]. split; [exact Hlen1|]. split; [exact Hlen2|].
  rewrite Htot1, Htot2 in Hratio. cbn [N.add] in Hratio.
  split; [|exact Hratio]. rewrite Htot1, Htot2. reflexivity.
Qed.

Lemma summary_reports (self : ImageConverter) (start_time : Q) (w w' : W)
    (u : unit) (fin := summary self start_time) :
  converted_files self <> [] ->
  exec h fin w = (Returned u, w') ->
  exists (originals news : list N) (ratio : Q),
    sizes_read (trace h fin w) = originals ++ news /\
    length originals = length (converted_files self) /\
    length news = length (converted_files self) /\
    figures (printed (trace h fin w))
    = [(mebibytes (Q_of_N (sum_N originals)), mebibytes (Q_of_N (sum_N news)), ratio)] /\
    ratio_of (Q_of_N (sum_N news)) (Q_of_N (sum_N originals)) = Ok ratio.
Proof.
  subst fin. unfold summary. intros Hne.
  cbn [bind perform print exec trace fst snd].
  set (w5 := (h _ (Print (MsgFailCount _)) _).2).
  set (total_time := ((h _ TimeTime w).1 - start_time)%Q).
  rewrite exec_bind, trace_bind.
  destruct (converted_files self) as [|c l] eqn:Hconv; [contradiction|].
  rewrite <- Hconv.
  destruct (exec h (size_report self total_time) w5) as [[u'|e] w6] eqn:Hrep;
    [|discriminate].
  destruct (size_report_reports self total_time w5 w6 u' Hrep)
    as (originals & news & ratio & Hsz & Hlo & Hln & Hfig & Hratio).
  intros _. set (t := trace h (size_report self total_time) w5) in *.
  cbn [exec trace perform print].
  repeat match goal with
         | |- context [Ev ?e ?x :: ?l ++ ?r] =>
             change (Ev e x :: l ++ r) with ([Ev e x] ++ l ++ r)
         | |- context [Ev ?e ?x :: Ev ?e' ?x' :: ?r] =>
             change (Ev e x :: Ev e' x' :: r) with ([Ev e x] ++ Ev e' x' :: r)
         end.
  rewrite !sizes_read_app, !printed_app, !figures_app.
  cbn [sizes_read size_read_of printed printed_of figures figures_of flat_map app].
  rewrite !app_nil_r.
  exists originals, news, ratio.
  split; [exact Hsz|]. split; [exact Hlo|]. split; [exact Hln|].
  split; [|exact Hratio]. fold (figures (printed t)). exact Hfig.
Qed.

(** A program that relays raises the exception of its last call. *)
Lemma relays_exec {R : Type} (p : Prog R) :
  relays p -> forall (w w' : W) (e : Exn),
    exec h p w = (Raised e, w') ->
    exists (ev : Event) (err : Error),
      last (trace h p w) = Some ev /\ raised_by ev = Some err /\ e = Exc err.
Proof.
  induction p as [r|e0|X e0 k IH]; cbn [exec trace relays]; intros Hp w w' e.
  - discriminate.
  - destruct Hp.
  - specialize (Hp (h _ e0 w).1).
    destruct (raised_by (Ev e0 (h _ e0 w).1)) as [err|] eqn:Hraised.
    + destruct Hp as [Hk|Hk].
      * rewrite Hk. cbn. intros [= <- _]. exists (Ev e0 (h _ e0 w).1), err.
        repeat split. exact Hraised.
      * intros Hrun. destruct (IH _ Hk _ _ _ Hrun) as (ev & err' & Hlast & Hev & ->).
        exists ev, err'. split; [|split; [exact Hev | reflexivity]].
        rewrite last_cons, Hlast. reflexivity.
    + intros Hrun. destruct (IH _ Hp _ _ _ Hrun) as (ev & err' & Hlast & Hev & ->).
      exists ev, err'. split; [|split; [exact Hev | reflexivity]].
      rewrite last_cons, Hlast. reflexivity.
Qed.

Lemma relays_bind {A B : Type} (p : Prog A) (f : A -> Prog B) :
  relays p -> (forall a, relays (f a)) -> relays (bind p f).
Proof.
  intros Hp Hf. induction p as [a|e|X e k IH]; cbn [bind relays];
    [apply Hf | destruct Hp |].
  intros x. cbn [relays] in Hp. specialize (Hp x).
  destruct (raised_by (Ev e x)) as [err|].
  - destruct Hp as [Hk|Hk]; [left; rewrite Hk; reflexivity | right; apply IH, Hk].
  - apply IH, Hp.
Qed.

Lemma relays_for_each {A S : Type} (l : list A) (body : A -> S -> Prog S) :
  (forall a s, a ∈ l -> relays (body a s)) -> forall s, relays (for_each l body s).
Proof.
  induction l as [|a l IH]; intros Hbody s; cbn [for_each]; [exact I|].
  apply relays_bind; [apply Hbody; left|].
  apply IH. intros a' s' Hin. apply Hbody. right. exact Hin.
Qed.

Lemma relays_stat (q : Path) : relays (attempt (PathStatSize q)).
Proof. intros [sz|err]; cbn; [exact I | left; reflexivity]. Qed.

Lemma relays_print_text (m : Msg) : relays (print_text m).
Proof. intros [[]|err]; cbn; [exact I | left; reflexivity]. Qed.

Lemma relays_print (m : Msg) : relays (print m).
Proof. intros []. exact I. Qed.

Lemma relays_sum_sizes {A : Type} (f : A -> option Path) (files : list A) :
  (forall x, x ∈ files -> exists q, f x = Some q) -> relays (sum_sizes f files).
Proof.
  intros Hf. unfold sum_sizes. apply relays_for_each. intros a acc Hin.
  destruct (Hf a Hin) as [q ->]. cbn [stat_size].
  apply relays_bind; [apply relays_stat | intros sz; exact I].
Qed.

(** The loop body raises nothing of its own: the count it divides by is
    not zero, and the ratio is guarded. *)
Lemma loop_body_relays (total : nat) (start_time : Q) (success : bool)
    (original : Path) (new_path : option Path) (error : string)
    (vars : ImageConverter * nat) :
  (success = true -> exists new, new_path = Some new) ->
  relays (loop_body total start_time (success, original, new_path, error) vars).
Proof.
  destruct vars as [self completed]. intros Hnew. unfold loop_body.
  apply relays_bind; [intros now; exact I | intros now].
  rewrite truediv_by_count. cbn [lift bind].
  destruct success.
  - destruct (Hnew eq_refl) as [new ->]. cbn [stat_size].
    apply relays_bind; [apply relays_stat | intros osz].
    apply relays_bind; [apply relays_stat | intros nsz].
    destruct (ratio_of_answers (mebibytes (Q_of_N nsz)) (mebibytes (Q_of_N osz)))
      as [ratio ->].
    cbn [lift bind].
    apply relays_bind; [apply relays_print_text | intros _; exact I].
  - apply relays_bind; [|intros _; exact I].
    destruct (negb _); apply relays_print_text.
Qed.

(** Nor do the statistics: the number of successes they divide by is not
    zero where they divide, and the ratio is guarded. *)
Lemma summary_relays (self : ImageConverter) (start_time : Q) :
  (forall original new_path, (original, new_path) ∈ converted_files self ->
                             exists q, new_path = Some q) ->
  relays (summary self start_time).
Proof.
  intros Hnew. unfold summary.
  apply relays_bind; [intros now; exact I | intros now].
  repeat (apply relays_bind; [apply relays_print | intros _]).
  apply relays_bind; [|intros _; apply relays_print].
  destruct (converted_files self) as [|c l] eqn:Hconv; [exact I|].
  unfold size_report. rewrite Hconv. cbn [length]. rewrite truediv_by_count.
  cbn [lift bind].
  apply relays_bind; [apply relays_print | intros _].
  apply relays_bind.
  { apply relays_sum_sizes. intros x _. exists x.1. reflexivity. }
  intros total_original. apply relays_bind.
  { apply relays_sum_sizes. intros [original new_path] Hin. apply (Hnew original).
    exact Hin. }
  intros total_new.
  destruct (ratio_of_answers (Q_of_N total_new) (Q_of_N total_original)) as [ratio ->].
  cbn [lift bind].
  apply relays_bind; [apply relays_print | intros _]. apply relays_print.
Qed.

End Ratio.

(** C9.  The ratio shown for a file is the size read for the output by the
    size read for the original, times 100, and it is 0 when the original
    has no bytes; the ratio shown for the batch is the same expression on
    the two sums of the sizes read for the statistics.  No division stops
    the loop or the statistics: when either ends in an exception, the call
    of the library it made last has raised it. *)
Theorem ratio_never_divides_by_zero {W : Type} (h : Handler W) :
  (forall (total : nat) (start_time : Q) (self : ImageConverter) (completed : nat)
          (original new_path : Path) (error : string) (vars' : ImageConverter * nat)
          (w w' : W),
      let body := loop_body total start_time (true, original, Some new_path, error)
                    (self, completed) in
      exec h body w = (Returned vars', w') ->
      exists (osz nsz : N) (ratio : Q),
        sizes_read (trace h body w) = [osz; nsz] /\
        figures (printed (trace h body w))
        = [(mebibytes (Q_of_N osz), mebibytes (Q_of_N nsz), ratio)] /\
        (osz = 0%N -> ratio = 0%Q) /\
        (osz <> 0%N -> (ratio == Q_of_N nsz / Q_of_N osz * 100)%Q)) /\
  (forall (self : ImageConverter) (start_time : Q) (u : unit) (w w' : W),
      let fin := summary self start_time in
      converted_files self <> [] ->
      exec h fin w = (Returned u, w') ->
      exists (originals news : list N) (ratio : Q),
        sizes_read (trace h fin w) = originals ++ news /\
        length originals = length (converted_files self) /\
        length news = length (converted_files self) /\
        figures (printed (trace h fin w))
        = [(mebibytes (Q_of_N (sum_N originals)), mebibytes (Q_of_N (sum_N news)),
            ratio)] /\
        (sum_N originals = 0%N -> ratio = 0%Q) /\
        (sum_N originals <> 0%N ->
         (ratio == Q_of_N (sum_N news) / Q_of_N (sum_N originals) * 100)%Q)) /\
  (forall (total : nat) (start_time : Q) (self : ImageConverter) (completed : nat)
          (original new_path : Path) (error : string) (e : Exn) (w w' : W),
      let body := loop_body total start_time (true, original, Some new_path, error)
                    (self, completed) in
      exec h body w = (Raised e, w') ->
      exists (ev : Event) (err : Error),
        last (trace h body w) = Some ev /\ raised_by ev = Some err /\ e = Exc err) /\
  (forall (self : ImageConverter) (start_time : Q) (e : Exn) (w w' : W),
      let fin := summary self start_time in
      (forall original new_path, (original, new_path) ∈ converted_files self ->
                                 exists q, new_path = Some q) ->
      exec h fin w = (Raised e, w') ->
      exists (ev : Event) (err : Error),
        last (trace h fin w) = Some ev /\ raised_by ev = Some err /\ e = Exc err).
Proof.
  assert (Hguard : forall (n o : N) (ratio : Q),
             (ratio_of (mebibytes (Q_of_N n)) (mebibytes (Q_of_N o)) = Ok ratio \/
              ratio_of (Q_of_N n) (Q_of_N o) = Ok ratio) ->
             (o = 0%N -> ratio = 0%Q) /\
             (o <> 0%N -> (ratio == Q_of_N n / Q_of_N o * 100)%Q)).
  { intros n o ratio Hratio. destruct (ratio_of_sizes n o) as [Hzero Hpos]. split.
    - intros Ho. destruct (Hzero Ho) as [H1 H2].
      destruct Hratio as [Hr|Hr]; congruence.
    - intros Ho. destruct (Hpos Ho) as (q1 & q2 & H1 & H2 & Hq1 & Hq2).
      destruct Hratio as [Hr|Hr]; [rewrite H1 in Hr | rewrite H2 in Hr];
        injection Hr as <-; assumption. }
  split; [|split; [|split]].
  - intros total start_time self completed original new_path error vars' w w' body Hrun.
    destruct (loop_body_reports h total start_time self completed original new_path
                error vars' w w' Hrun) as (osz & nsz & ratio & Hsz & Hfig & Hratio).
    exists osz, nsz, ratio. split; [exact Hsz|]. split; [exact Hfig|].
    apply (Hguard nsz osz). left. exact Hratio.
  - intros self start_time u w w' fin Hne Hrun.
    destruct (summary_reports h self start_time w w' u Hne Hrun)
      as (originals & news & ratio & Hsz & Hlo & Hln & Hfig & Hratio).
    exists originals, news, ratio.
    split; [exact Hsz|]. split; [exact Hlo|]. split; [exact Hln|]. split; [exact Hfig|].
    apply (Hguard (sum_N news) (sum_N originals)). right. exact Hratio.
  - intros total start_time self completed original new_path error e w w' body Hrun.
    apply (relays_exec h body) with (w' := w'); [|exact Hrun].
    apply loop_body_relays. intros _. exists new_path. reflexivity.
  - intros self start_time e w w' fin Hnew Hrun.
    apply (relays_exec h fin) with (w' := w'); [|exact Hrun].
    apply summary_relays. exact Hnew.
Qed.

Lemma ratio_never_divides_by_zero_witness :
  let h := Posix.handler (Scenario.machine Scenario.judge) in
  let self := Scenario.with_success ["pics"; "z.png"] ["pics"; "z.jxl"] in
  (exists ratio : Q,
      figures (printed (trace h (loop_body 4 0 (true, ["pics"; "b.jpg"],
                                               Some ["pics"; "b.jxl"], "")
                                   (Scenario.converter 2 7, 0%nat))
                          (Scenario.at_start Scenario.pics)))
      = [(mebibytes (Q_of_N 2000), mebibytes (Q_of_N 900), ratio)] /\
      (ratio == 45)%Q) /\
  (exists ratio : Q,
      figures (printed (trace h (loop_body 1 0 (true, ["pics"; "z.png"],
                                               Some ["pics"; "z.jxl"], "")
                                   (Scenario.converter 2 7, 0%nat))
                          (Scenario.at_start Scenario.hollow)))
      = [(mebibytes (Q_of_N 0), mebibytes (Q_of_N 10), ratio)] /\ ratio = 0%Q) /\
  (exists ratio : Q,
      figures (printed (trace h (summary self 0) (Scenario.at_start Scenario.hollow)))
      = [(mebibytes (Q_of_N 0), mebibytes (Q_of_N 10), ratio)] /\ ratio = 0%Q).
Proof.
  intros h self.
  destruct (ratio_never_divides_by_zero h) as (Hfile & Hbatch & _ & _).
  split; [|split].
  - destruct (exec h (loop_body 4 0 (true, ["pics"; "b.jpg"], Some ["pics"; "b.jxl"], "")
                        (Scenario.converter 2 7, 0%nat))
                (Scenario.at_start Scenario.pics)) as [[vars'|e] w'] eqn:Hrun;
      [|vm_compute in Hrun; discriminate].
    destruct (Hfile _ _ _ _ _ _ _ _ _ _ Hrun) as (osz & nsz & ratio & Hsz & Hfig & _ & Hpos).
    assert (Hread : osz = 2000%N /\ nsz = 900%N).
    { vm_compute in Hsz. injection Hsz as <- <-. split; reflexivity. }
    destruct Hread as [-> ->]. exists ratio. split; [exact Hfig|].
    rewrite (Hpos ltac:(discriminate)). reflexivity.
  - destruct (exec h (loop_body 1 0 (true, ["pics"; "z.png"], Some ["pics"; "z.jxl"], "")
                        (Scenario.converter 2 7, 0%nat))
                (Scenario.at_start Scenario.hollow)) as [[vars'|e] w'] eqn:Hrun;
      [|vm_compute in Hrun; discriminate].
    destruct (Hfile _ _ _ _ _ _ _ _ _ _ Hrun) as (osz & nsz & ratio & Hsz & Hfig & Hz & _).
    assert (Hread : osz = 0%N /\ nsz = 10%N).
    { vm_compute in Hsz. injection Hsz as <- <-. split; reflexivity. }
    destruct Hread as [-> ->]. exists ratio. split; [exact Hfig | exact (Hz eq_refl)].
  - destruct (exec h (summary self 0) (Scenario.at_start Scenario.hollow))
      as [[u|e] w'] eqn:Hrun; [|vm_compute in Hrun; discriminate].
    destruct (Hbatch self 0%Q u _ _ ltac:(discriminate) Hrun)
      as (originals & news & ratio & Hsz & Hlo & Hln & Hfig & Hz & _).
    assert (Hread : originals = [0%N] /\ news = [10%N]).
    { destruct originals as [|o [|? ?]]; try discriminate.
      destruct news as [|n [|? ?]]; try discriminate.
      vm_compute in Hsz. injection Hsz as <- <-. split; reflexivity. }
    destruct Hread as [-> ->]. exists ratio. split; [exact Hfig | exact (Hz eq_refl)].
Defined.

(** * Further properties of the batch *)

(** ** Edge cases of [convert_all] *)

(** X1.  When discovery finds nothing, [convert_all] prints the notice and
    returns: whatever the schedule and the worker count, the converter is
    unchanged and no other call is made after the walk. *)
Theorem convert_all_nothing_found {W : Type} (h : Handler W) (self : ImageConverter)
    (sched : list Action) (w : W) :
  (exec h (find_images self) w).1 = Returned [] ->
  exists (w' : W) (listing : Result (list WalkEntry)),
    convert_all h self sched w
    = Some (Returned self, w',
            [Ev (OsWalk (root_dir self) None) listing; Ev (Print MsgNoImages) tt]).
Proof.
  unfold convert_all, prologue, find_images. cbn [bind attempt exec trace fst snd].
  destruct (h _ (OsWalk (root_dir self) None) w) as [[listing|e] w1] eqn:H1;
    cbn [lift bind exec trace fst snd]; [|discriminate].
  intros [= Hnone]. rewrite Hnone. cbn [bind print perform exec trace fst snd].
  destruct (h _ (Print MsgNoImages) w1) as [[] w2].
  eexists _, _. reflexivity.
Qed.

Lemma convert_all_nothing_found_witness :
  exists (w' : Posix.World) (listing : Result (list WalkEntry)),
    convert_all (Posix.handler (Scenario.machine Scenario.judge))
      (Scenario.converter 0 7) Scenario.interleaved (Scenario.at_start Scenario.bare)
    = Some (Returned (Scenario.converter 0 7), w',
            [Ev (OsWalk ["pics"] None) listing; Ev (Print MsgNoImages) tt]).
Proof.
  exact (convert_all_nothing_found (Posix.handler (Scenario.machine Scenario.judge))
           (Scenario.converter 0 7) Scenario.interleaved
           (Scenario.at_start Scenario.bare) eq_refl).
Defined.

(** X2.  With a worker count below 1 and at least one image found,
    [convert_all] prints the three header lines and raises the [ValueError]
    of the executor: no task is started and nothing is recorded. *)
Theorem convert_all_without_workers {W : Type} (h : Handler W) (self : ImageConverter)
    (sched : list Action) (w : W) (images : list Path) :
  max_workers self <= 0 ->
  (exec h (find_images self) w).1 = Returned images -> images <> [] ->
  exists (w' : W) (evs : list Event),
    convert_all h self sched w
    = Some (Raised (Exc (OtherError "max_workers must be greater than 0")), w', evs) /\
    printed evs = [MsgFound (length images); MsgWorkers (max_workers self);
                   MsgEffort (effort self)] /\
    spawned evs = [] /\ stated evs = [] /\ unlinked evs = [].
Proof.
  intros Hworkers. unfold convert_all, prologue, find_images.
  cbn [bind attempt exec trace fst snd].
  destruct (h _ (OsWalk (root_dir self) None) w) as [[listing|e] w1] eqn:H1;
    cbn [lift bind exec trace fst snd]; [|discriminate].
  intros [= <-] Hne. destruct (select_images listing) as [|img l] eqn:Hsel; [congruence|].
  cbn [bind print perform exec trace fst snd].
  destruct (Z.leb_spec (max_workers self) 0) as [_|]; [|lia].
  eexists _, _. split; [reflexivity|]. repeat split.
Qed.

Lemma convert_all_without_workers_witness :
  exists (w' : Posix.World) (evs : list Event),
    convert_all (Posix.handler (Scenario.machine Scenario.judge))
      (Scenario.converter 0 7) Scenario.interleaved (Scenario.at_start Scenario.pics)
    = Some (Raised (Exc (OtherError "max_workers must be greater than 0")), w', evs) /\
    printed evs = [MsgFound 4; MsgWorkers 0; MsgEffort 7] /\
    spawned evs = [] /\ stated evs = [] /\ unlinked evs = [].
Proof.
  apply (convert_all_without_workers (Posix.handler (Scenario.machine Scenario.judge))
           (Scenario.converter 0 7) Scenario.interleaved (Scenario.at_start Scenario.pics)
           [["pics"; "a.png"]; ["pics"; "b.jpg"]; ["pics"; "c.bmp"]; ["pics"; "d.gif"]]).
  - cbn. lia.
  - reflexivity.
  - discriminate.
Defined.

(** ** What a batch never does, and what it keeps *)

Section Untouched.

Context {W : Type}.
Variable h : Handler W.
Variable self0 : ImageConverter.
Variable images : list Path.
Variable evs0 : list Event.
Variable total : nat.
Variable start_time : Q.

Abbreviation Sound := (Inv h (fun _ => True) (fun _ => False) self0 images evs0).

Lemma sound_run (sched : list Action) (b b' : Batch W) :
  Sound b -> run h total start_time sched b = Next b' -> Sound b'.
Proof.
  apply (run_inv h (fun _ => True) (fun _ => False) (fun _ _ _ _ _ => I)
           (fun _ _ _ (F : False) => match F with end)).
Qed.

Lemma aborted_log (a : Action) (b b' : Batch W) (e : Exn) :
  Sound b -> step h total start_time a b = Aborted e b' ->
  unlinked (log b') = unlinked evs0 /\
  forall cmd, cmd ∈ spawned (log b') -> cmd ∈ spawned (log b).
Proof.
  intros HI. destruct a as [i|i|i]; cbn [step].
  - destruct (tasks b !! i) as [[img [| | |]]|]; try discriminate.
    destruct (_ && _); discriminate.
  - destruct (tasks b !! i) as [[img [|[r|e'|X e' k]| |]]|]; discriminate.
  - destruct (tasks b !! i) as [[img [| |[r|e']|]]|] eqn:Hi; try discriminate.
    + destruct (harmless_exec h (fun _ => True) (fun _ _ _ _ _ => I) _ (world b)
                  (loop_body_harmless total start_time r (this b, done b)) I)
        as (_ & Hsp & Hun).
      remember (trace h (loop_body total start_time r (this b, done b)) (world b))
        as evs eqn:Hevs.
      destruct (exec h (loop_body total start_time r (this b, done b)) (world b))
        as [[[self completed]|e'] w]; [discriminate|].
      intros Hb. inversion Hb; subst b'. cbn [log].
      rewrite unlinked_app, spawned_app, Hun, Hsp, !app_nil_r.
      split; [exact (inv_unlinked _ _ _ _ _ _ _ HI) | auto].
    + intros Hb. inversion Hb; subst.
      split; [exact (inv_unlinked _ _ _ _ _ _ _ HI) | auto].
Qed.

Lemma run_aborted_log (sched : list Action) :
  forall (b b' : Batch W) (e : Exn),
    Sound b -> run h total start_time sched b = Aborted e b' ->
    unlinked (log b') = unlinked evs0.
Proof.
  induction sched as [|a sched IH]; intros b b' e HI; cbn [run]; [discriminate|].
  destruct (step h total start_time a b) as [|b1|e1 b1] eqn:Hstep; [discriminate| |].
  - apply IH. apply (sound_run [a] b b1 HI). cbn [run]. rewrite Hstep. reflexivity.
  - intros Hb. inversion Hb; subst. exact (proj1 (aborted_log a b b' e HI Hstep)).
Qed.

Lemma run_aborted_spawned (sched : list Action) :
  forall (b b' : Batch W) (e : Exn),
    Sound b -> run h total start_time sched b = Aborted e b' ->
    exists b0 : Batch W, Sound b0 /\
      forall cmd, cmd ∈ spawned (log b') -> cmd ∈ spawned (log b0).
Proof.
  induction sched as [|a sched IH]; intros b b' e HI; cbn [run]; [discriminate|].
  destruct (step h total start_time a b) as [|b1|e1 b1] eqn:Hstep; [discriminate| |].
  - apply IH. apply (sound_run [a] b b1 HI). cbn [run]. rewrite Hstep. reflexivity.
  - intros Hb. inversion Hb; subst. exists b. split; [exact HI|].
    exact (proj2 (aborted_log a b b' e HI Hstep)).
Qed.

End Untouched.

(** X3.  [convert_all] attempts no deletion: in every complete run, whether
    it returns or raises, no call of [unlink] is made. *)
Theorem convert_all_never_unlinks {W : Type} (h : Handler W) (self : ImageConverter)
    (sched : list Action) (w w' : W) (o : Outcome ImageConverter) (evs : list Event) :
  convert_all h self sched w = Some (o, w', evs) -> unlinked evs = [].
Proof.
  unfold convert_all.
  destruct (harmless_exec h (fun _ => True) (fun _ _ _ _ _ => I) (prologue self) w
              (prologue_harmless self) I) as (_ & _ & Hun).
  set (pro := trace h (prologue self) w) in *.
  destruct (exec h (prologue self) w) as [[[[found start]|]|e0] w1].
  - destruct (max_workers self <=? 0); [intros [= <- <- <-]; exact Hun|].
    pose proof (submit_all_inv h (fun _ => True) (fun _ => False) self found pro w1 I)
      as HI0.
    destruct (run h (length found) start sched _) as [|b|e1 b] eqn:Hrun; [discriminate| |].
    + destruct (all_collected b); [|discriminate].
      pose proof (sound_run h self found pro (length found) start sched _ _ HI0 Hrun)
        as HI.
      destruct (harmless_exec h (fun _ => True) (fun _ _ _ _ _ => I)
                  (summary (this b) start) (world b) (summary_harmless _ _) I)
        as (_ & _ & Hun').
      assert (Hlog : unlinked (log b ++ trace h (summary (this b) start) (world b)) = []).
      { rewrite unlinked_app, Hun', app_nil_r, (inv_unlinked _ _ _ _ _ _ _ HI).
        exact Hun. }
      destruct (exec h (summary (this b) start) (world b)) as [[u|e1] w2];
        intros [= <- <- <-]; exact Hlog.
    + intros [= <- <- <-].
      rewrite (run_aborted_log h self found pro (length found) start sched _ _ _ HI0 Hrun).
      exact Hun.
  - intros [= <- <- <-]. exact Hun.
  - intros [= <- <- <-]. exact Hun.
Qed.

Lemma convert_all_never_unlinks_witness :
  let h := Posix.handler (Scenario.machine Scenario.judge) in
  exists (o : Outcome ImageConverter) (w' : Posix.World) (evs : list Event),
    convert_all h (Scenario.converter 2 7) Scenario.interleaved
      (Scenario.at_start Scenario.pics) = Some (o, w', evs) /\
    unlinked evs = [].
Proof.
  intros h.
  destruct (convert_all h (Scenario.converter 2 7) Scenario.interleaved
              (Scenario.at_start Scenario.pics)) as [[[o w'] evs]|] eqn:Hrun;
    [|vm_compute in Hrun; discriminate].
  exists o, w', evs. split; [reflexivity|].
  exact (convert_all_never_unlinks h (Scenario.converter 2 7) Scenario.interleaved
           (Scenario.at_start Scenario.pics) w' o evs Hrun).
Defined.

(** ** What a batch adds to the converter *)

(** The entries a returning call has added, whatever the converter held
    before. *)
Lemma convert_all_appended {W : Type} (h : Handler W) (self : ImageConverter)
    (sched : list Action) (w w' : W) (self' : ImageConverter) (evs : list Event)
    (images : list Path) :
  (exec h (find_images self) w).1 = Returned images ->
  convert_all h self sched w = Some (Returned self', w', evs) ->
  exists (added : list (Path * option Path)) (refused : list (Path * string)),
    converted_files self' = converted_files self ++ added /\
    failed_files self' = failed_files self ++ refused /\
    map fst added ++ map fst refused ≡ₚ images /\
    (forall original new_path, (original, new_path) ∈ added ->
       exists out, PurePath.with_suffix original ".jxl" = Ok out /\ new_path = Some out) /\
    effort self' = effort self /\ max_workers self' = max_workers self.
Proof.
  intros Himages Hrun.
  destruct (convert_all_returns h (fun _ => True) (fun _ => False)
              (fun _ _ _ _ _ => I) (fun _ _ _ (F : False) => match F with end)
              self sched w w' self' evs I Hrun) as (found & Hfound & Hcases).
  rewrite Himages in Hfound. inversion Hfound; subst found. clear Hfound.
  destruct Hcases as [(-> & -> & _)|(b & pro & fin & HI & Hall & -> & _)].
  - exists [], []. rewrite !app_nil_r. repeat split; try reflexivity.
    intros original new_path Hin. inversion Hin.
  - exists (new_converted self b), (new_failed self b).
    split; [exact (inv_converted _ _ _ _ _ _ _ HI)|].
    split; [exact (inv_failed _ _ _ _ _ _ _ HI)|].
    split.
    { rewrite (inv_recorded _ _ _ _ _ _ _ HI), (all_collected_paths _ Hall).
      rewrite (inv_images _ _ _ _ _ _ _ HI). reflexivity. }
    split.
    { intros original new_path Hin.
      destruct (inv_success _ _ _ _ _ _ _ HI original new_path Hin) as (out & Ho & _ & Hn).
      exists out. split; assumption. }
    split; [exact (inv_effort _ _ _ _ _ _ _ HI) | exact (inv_workers _ _ _ _ _ _ _ HI)].
Qed.

(** X4.  [convert_all] only appends: when it returns, the entries the
    converter held before the call are still there, in the same order and
    in front, the entries added after them stand for the images found, one
    each, and the effort and the worker count are unchanged.  A second call
    on the same converter therefore adds to the counts of the first. *)
Theorem convert_all_appends {W : Type} (h : Handler W) (self : ImageConverter)
    (sched : list Action) (w w' : W) (self' : ImageConverter) (evs : list Event)
    (images : list Path) :
  (exec h (find_images self) w).1 = Returned images ->
  convert_all h self sched w = Some (Returned self', w', evs) ->
  take (length (converted_files self)) (converted_files self') = converted_files self /\
  take (length (failed_files self)) (failed_files self') = failed_files self /\
  map fst (drop (length (converted_files self)) (converted_files self')) ++
  map fst (drop (length (failed_files self)) (failed_files self')) ≡ₚ images /\
  (length (converted_files self') + length (failed_files self')
   = length (converted_files self) + length (failed_files self) + length images)%nat /\
  effort self' = effort self /\ max_workers self' = max_workers self.
Proof.
  intros Himages Hrun.
  destruct (convert_all_appended h self sched w w' self' evs images Himages Hrun)
    as (added & refused & Hc & Hf & Hperm & _ & Heff & Hworkers).
  rewrite Hc, Hf, !take_app_length, !drop_app_length.
  split; [reflexivity|]. split; [reflexivity|]. split; [exact Hperm|].
  split; [|split; assumption].
  apply Permutation_length in Hperm.
  rewrite length_app, !length_map in Hperm. rewrite !length_app. lia.
Qed.

Lemma convert_all_appends_witness :
  let h := Posix.handler (Scenario.machine Scenario.judge) in
  let self := Scenario.with_success ["pics"; "b.jpg"] ["pics"; "b.jxl"] in
  exists (self' : ImageConverter) (w' : Posix.World) (evs : list Event),
    convert_all h self Scenario.interleaved (Scenario.at_start Scenario.pics)
    = Some (Returned self', w', evs) /\
    take 1 (converted_files self') = [(["pics"; "b.jpg"], Some ["pics"; "b.jxl"])] /\
    (length (converted_files self') + length (failed_files self') = 5)%nat.
Proof.
  intros h self.
  destruct (convert_all h self Scenario.interleaved (Scenario.at_start Scenario.pics))
    as [[[[self'|e] w'] evs]|] eqn:Hrun; try (vm_compute in Hrun; discriminate).
  exists self', w', evs. split; [reflexivity|].
  destruct (convert_all_appends h self Scenario.interleaved
              (Scenario.at_start Scenario.pics) w' self' evs
              [["pics"; "a.png"]; ["pics"; "b.jpg"]; ["pics"; "c.bmp"]; ["pics"; "d.gif"]]
              eq_refl Hrun) as (Hc & _ & _ & Hlen & _).
  split; [exact Hc | exact Hlen].
Defined.

(** X5.  Every success that a returning [convert_all] records is a pair of
    an image found in this call and that image's path with the suffix
    [.jxl]: the output path of a recorded success is never [None], so the
    size report and [delete_originals] always have a path to work on. *)
Theorem convert_all_records_outputs {W : Type} (h : Handler W) (self : ImageConverter)
    (sched : list Action) (w w' : W) (self' : ImageConverter) (evs : list Event)
    (images : list Path) :
  (exec h (find_images self) w).1 = Returned images ->
  convert_all h self sched w = Some (Returned self', w', evs) ->
  forall original new_path,
    (original, new_path) ∈ drop (length (converted_files self)) (converted_files self') ->
    original ∈ images /\
    exists out, PurePath.with_suffix original ".jxl" = Ok out /\ new_path = Some out.
Proof.
  intros Himages Hrun original new_path.
  destruct (convert_all_appended h self sched w w' self' evs images Himages Hrun)
    as (added & refused & Hc & _ & Hperm & Hout & _).
  rewrite Hc, drop_app_length. intros Hin. split; [|exact (Hout _ _ Hin)].
  rewrite <- Hperm. apply elem_of_app. left.
  exact (list_elem_of_fmap_2 fst _ _ Hin).
Qed.

Lemma convert_all_records_outputs_witness :
  let h := Posix.handler (Scenario.machine Scenario.judge) in
  exists (self' : ImageConverter) (w' : Posix.World) (evs : list Event),
    convert_all h (Scenario.converter 2 7) Scenario.interleaved
      (Scenario.at_start Scenario.pics) = Some (Returned self', w', evs) /\
    (["pics"; "a.png"], Some ["pics"; "a.jxl"]) ∈ converted_files self' /\
    exists out, PurePath.with_suffix ["pics"; "a.png"] ".jxl" = Ok out /\
                Some ["pics"; "a.jxl"] = Some out.
Proof.
  intros h.
  destruct (convert_all h (Scenario.converter 2 7) Scenario.interleaved
              (Scenario.at_start Scenario.pics)) as [[[[self'|e] w'] evs]|] eqn:Hrun;
    try (vm_compute in Hrun; discriminate).
  assert (Hin : (["pics"; "a.png"], Some ["pics"; "a.jxl"]) ∈ converted_files self').
  { vm_compute in Hrun. injection Hrun as <- _ _. apply elem_of_cons. left. reflexivity. }
  exists self', w', evs. split; [reflexivity|]. split; [exact Hin|].
  exact (proj2 (convert_all_records_outputs h (Scenario.converter 2 7)
                  Scenario.interleaved (Scenario.at_start Scenario.pics) w' self' evs
                  [["pics"; "a.png"]; ["pics"; "b.jpg"]; ["pics"; "c.bmp"]; ["pics"; "d.gif"]]
                  eq_refl Hrun ["pics"; "a.png"] (Some ["pics"; "a.jxl"]) Hin)).
Defined.

(** ** The subprocesses of a batch *)

Lemma prologue_found {W : Type} (h : Handler W) (self : ImageConverter) (w w1 : W)
    (found : list Path) (start : Q) :
  exec h (prologue self) w = (Returned (Some (found, start)), w1) ->
  (exec h (find_images self) w).1 = Returned found.
Proof.
  unfold prologue. rewrite exec_bind.
  destruct (exec h (find_images self) w) as [[images|e] w0]; [|discriminate].
  destruct images as [|img l]; cbn; [discriminate|].
  intros [= <- _]. reflexivity.
Qed.

(** X6.  The only subprocesses of [convert_all] are encoder runs on the
    images found: in every complete run, returning or raising, each command
    started is the [cjxl] command line of [convert_image] for an image of
    [find_images], with that image's [.jxl] path as output and the
    converter's effort. *)
Theorem convert_all_spawns_only_encoders {W : Type} (h : Handler W)
    (self : ImageConverter) (sched : list Action) (w w' : W)
    (o : Outcome ImageConverter) (evs : list Event) (cmd : list string) :
  convert_all h self sched w = Some (o, w', evs) ->
  cmd ∈ spawned evs ->
  exists (images : list Path) (img out : Path),
    (exec h (find_images self) w).1 = Returned images /\
    img ∈ images /\
    PurePath.with_suffix img ".jxl" = Ok out /\
    cmd = cjxl_command self img out.
Proof.
  unfold convert_all.
  destruct (harmless_exec h (fun _ => True) (fun _ _ _ _ _ => I) (prologue self) w
              (prologue_harmless self) I) as (_ & Hsp & _).
  set (pro := trace h (prologue self) w) in *.
  assert (Hpro : forall c, c ∈ spawned pro -> False).
  { intros c. rewrite Hsp. apply not_elem_of_nil. }
  destruct (exec h (prologue self) w) as [[[[found start]|]|e0] w1] eqn:Hex.
  2-3: intros [= <- <- <-] Hin; destruct (Hpro _ Hin).
  destruct (max_workers self <=? 0); [intros [= <- <- <-] Hin; destruct (Hpro _ Hin)|].
  pose proof (prologue_found h self w w1 found start Hex) as Hfound.
  pose proof (submit_all_inv h (fun _ => True) (fun _ => False) self found pro w1 I)
    as HI0.
  assert (Hlog : forall b : Batch W,
             Inv h (fun _ => True) (fun _ => False) self found pro b ->
             cmd ∈ spawned (log b) ->
             exists (images : list Path) (img out : Path),
               (exec h (find_images self) w).1 = Returned images /\
               img ∈ images /\ PurePath.with_suffix img ".jxl" = Ok out /\
               cmd = cjxl_command self img out).
  { intros b HI Hin.
    destruct (inv_log _ _ _ _ _ _ _ HI cmd Hin) as [Hc|(img & out & Himg & Hout & _ & ->)];
      [destruct (Hpro _ Hc)|].
    exists found, img, out. repeat split; assumption. }
  destruct (run h (length found) start sched _) as [|b|e1 b] eqn:Hrun; [discriminate| |].
  - destruct (all_collected b); [|discriminate].
    pose proof (sound_run h self found pro (length found) start sched _ _ HI0 Hrun) as HI.
    destruct (harmless_exec h (fun _ => True) (fun _ _ _ _ _ => I)
                (summary (this b) start) (world b) (summary_harmless _ _) I)
      as (_ & Hsp' & _).
    assert (Hall : cmd ∈ spawned (log b ++ trace h (summary (this b) start) (world b)) ->
                   cmd ∈ spawned (log b)).
    { rewrite spawned_app, Hsp', app_nil_r. auto. }
    destruct (exec h (summary (this b) start) (world b)) as [[u|e1] w2];
      intros [= <- <- <-] Hin; exact (Hlog b HI (Hall Hin)).
  - intros [= <- <- <-] Hin.
    destruct (run_aborted_spawned h self found pro (length found) start sched _ _ _
                HI0 Hrun) as (b0 & HI & Hsub).
    exact (Hlog b0 HI (Hsub _ Hin)).
Qed.

Lemma convert_all_spawns_only_encoders_witness :
  let h := Posix.handler (Scenario.machine Scenario.judge) in
  exists (o : Outcome ImageConverter) (w' : Posix.World) (evs : list Event),
    convert_all h (Scenario.converter 2 7) Scenario.interleaved
      (Scenario.at_start Scenario.pics) = Some (o, w', evs) /\
    ["cjxl"; "pics/a.png"; "pics/a.jxl"; "-d"; "0"; "-e"; "7"; "--num_threads=1"]
      ∈ spawned evs /\
    exists (images : list Path) (img out : Path),
      (exec h (find_images (Scenario.converter 2 7)) (Scenario.at_start Scenario.pics)).1
      = Returned images /\
      img ∈ images /\
      PurePath.with_suffix img ".jxl" = Ok out /\
      ["cjxl"; "pics/a.png"; "pics/a.jxl"; "-d"; "0"; "-e"; "7"; "--num_threads=1"]
      = cjxl_command (Scenario.converter 2 7) img out.
Proof.
  intros h.
  destruct (convert_all h (Scenario.converter 2 7) Scenario.interleaved
              (Scenario.at_start Scenario.pics)) as [[[o w'] evs]|] eqn:Hrun;
    [|vm_compute in Hrun; discriminate].
  assert (Hin : ["cjxl"; "pics/a.png"; "pics/a.jxl"; "-d"; "0"; "-e"; "7";
                 "--num_threads=1"] ∈ spawned evs).
  { vm_compute in Hrun. injection Hrun as _ _ <-. vm_compute.
    apply elem_of_cons. left. reflexivity. }
  exists o, w', evs. split; [reflexivity|]. split; [exact Hin|].
  exact (convert_all_spawns_only_encoders h (Scenario.converter 2 7) Scenario.interleaved
           (Scenario.at_start Scenario.pics) w' o evs _ Hrun Hin).
Defined.

(** ** Deleting after a batch *)

(** A supported path is not the output path of a conversion. *)
Lemma supported_not_output (p original : Path) :
  supported p = true -> PurePath.with_suffix original ".jxl" <> Ok p.
Proof.
  unfold supported. intros Hs%bool_decide_eq_true Hout.
  apply output_suffix in Hout. rewrite Hout in Hs. exact (jxl_not_supported Hs).
Qed.

(** X7.  Deleting after a batch spares the outputs.  After a call of
    [convert_all] on a fresh converter has returned, [delete_originals], in
    whatever world it is called later and however it ends, calls [unlink]
    only on originals of the recorded successes, in their order: each of
    them is an image that [find_images] had returned, with a supported
    extension, and none of them is the [.jxl] output recorded for any
    success.  It starts no subprocess.  When it returns, every recorded
    original was attempted, and the images that failed or were skipped
    account for the rest of the images found. *)
Theorem delete_after_convert_spares_outputs {W : Type} (h : Handler W)
    (self : ImageConverter) (sched : list Action) (w w' w2 : W)
    (self' : ImageConverter) (evs : list Event) (images : list Path) :
  converted_files self = [] -> failed_files self = [] ->
  (exec h (find_images self) w).1 = Returned images ->
  convert_all h self sched w = Some (Returned self', w', evs) ->
  let t := trace h (delete_originals self') w2 in
  unlinked t `prefix_of` map fst (converted_files self') /\
  spawned t = [] /\
  ((exec h (delete_originals self') w2).1 = Returned tt ->
   unlinked t = map fst (converted_files self') /\
   (length (unlinked t) + length (failed_files self') = length images)%nat) /\
  forall p : Path, p ∈ unlinked t ->
    p ∈ images /\ supported p = true /\
    (exists out, (p, Some out) ∈ converted_files self' /\
                 PurePath.with_suffix p ".jxl" = Ok out) /\
    forall original out, (original, Some out) ∈ converted_files self' -> p <> out.
Proof.
  intros Hc Hf Himages Hrun t.
  destruct (delete_originals_turns h self' w2) as (Hpre & Hsp & _ & Hcases).
  cbv zeta in Hpre, Hsp, Hcases. fold t in Hpre, Hsp, Hcases.
  destruct (convert_all_appended h self sched w w' self' evs images Himages Hrun)
    as (added & skipped & Hc' & Hf' & Hperm & Hout & _).
  rewrite Hc in Hc'. rewrite Hf in Hf'. cbn [app] in Hc', Hf'.
  split; [exact Hpre|]. split; [exact Hsp|]. split.
  { intros Ho. rewrite Ho in Hcases. destruct Hcases as [Hun _].
    split; [exact Hun|]. rewrite Hun, Hc', Hf'. apply Permutation_length in Hperm.
    rewrite length_app, !length_map in Hperm. rewrite length_map. exact Hperm. }
  intros p Hp.
  assert (Hp' : p ∈ map fst added).
  { rewrite <- Hc'. destruct Hpre as [rest ->]. apply elem_of_app. left. exact Hp. }
  assert (Himg : p ∈ images).
  { rewrite <- Hperm. apply elem_of_app. left. exact Hp'. }
  assert (Hs : supported p = true).
  { revert Himages. unfold find_images. cbn.
    destruct (h _ (OsWalk (root_dir self) None) w) as [[listing|e] w1]; cbn;
      [|discriminate].
    intros [= <-]. exact (proj1 (select_images_supported listing p Himg)). }
  split; [exact Himg|]. split; [exact Hs|]. split.
  - apply list_elem_of_fmap in Hp' as ([original new_path] & -> & Hin). cbn.
    destruct (Hout _ _ Hin) as (out & Ho & ->).
    exists out. rewrite Hc'. split; assumption.
  - intros original out Hin <-. rewrite Hc' in Hin.
    destruct (Hout _ _ Hin) as (out & Ho & [= <-]).
    exact (supported_not_output p original Hs Ho).
Qed.

Lemma delete_after_convert_spares_outputs_witness :
  let h := Posix.handler (Scenario.machine Scenario.judge) in
  exists (self' : ImageConverter) (w' : Posix.World) (evs : list Event),
    convert_all h (Scenario.converter 2 7) Scenario.interleaved
      (Scenario.at_start Scenario.pics) = Some (Returned self', w', evs) /\
    (exec h (delete_originals self') w').1 = Returned tt /\
    unlinked (trace h (delete_originals self') w') = map fst (converted_files self') /\
    (length (unlinked (trace h (delete_originals self') w'))
     + length (failed_files self') = 4)%nat.
Proof.
  intros h.
  destruct (convert_all h (Scenario.converter 2 7) Scenario.interleaved
              (Scenario.at_start Scenario.pics)) as [[[[self'|e] w'] evs]|] eqn:Hrun;
    try (vm_compute in Hrun; discriminate).
  exists self', w', evs. split; [reflexivity|].
  assert (Hex : (exec h (delete_originals self') w').1 = Returned tt).
  { vm_compute in Hrun. injection Hrun as <- <- _. vm_compute. reflexivity. }
  destruct (delete_after_convert_spares_outputs h (Scenario.converter 2 7)
              Scenario.interleaved (Scenario.at_start Scenario.pics) w' w' self' evs
              [["pics"; "a.png"]; ["pics"; "b.jpg"]; ["pics"; "c.bmp"]; ["pics"; "d.gif"]]
              eq_refl eq_refl eq_refl Hrun) as (_ & _ & Hret & _).
  split; [exact Hex|]. exact (Hret Hex).
Defined.

(** ** The console during a batch *)

Section Console.

Context {W : Type}.
Variable h : Handler W.

Lemma always_trace {R : Type} (Q : Event -> Prop) (p : Prog R) :
  always Q p -> forall w : W, Forall Q (trace h p w).
Proof.
  induction p as [r|e|X e k IH]; cbn [trace always]; intros Hp w;
    [constructor | constructor |].
  destruct Hp as [He Hk]. constructor; [apply He | apply IH, Hk].
Qed.

Lemma always_bind {A B : Type} (Q : Event -> Prop) (p : Prog A) (f : A -> Prog B) :
  always Q p -> (forall a, always Q (f a)) -> always Q (bind p f).
Proof.
  intros Hp Hf. induction p as [a|e|X e k IH]; cbn; [apply Hf | exact I |].
  destruct Hp as [He Hk]. split; [exact He|]. intros x. apply IH, Hk.
Qed.

Lemma always_try_except {R : Type} (Q : Event -> Prop) (p : Prog R)
    (handle : Error -> Prog R) :
  always Q p -> (forall e, always Q (handle e)) -> always Q (try_except p handle).
Proof.
  intros Hp Hh. induction p as [a|[e|c]|X e k IH]; cbn; [exact I | apply Hh | exact I |].
  destruct Hp as [He Hk]. split; [exact He|]. intros x. apply IH, Hk.
Qed.

Lemma always_for_each {A S : Type} (Q : Event -> Prop) (l : list A)
    (body : A -> S -> Prog S) :
  (forall a s, always Q (body a s)) -> forall s, always Q (for_each l body s).
Proof.
  intros Hbody. induction l as [|a l IH]; intros s; cbn [for_each]; [exact I|].
  apply always_bind; [apply Hbody | exact IH].
Qed.

Lemma always_lift {A : Type} (Q : Event -> Prop) (r : Result A) : always Q (lift r).
Proof. destruct r; exact I. Qed.

Lemma always_attempt {A : Type} (Q : Event -> Prop) (e : Eff (Result A)) :
  (forall x, Q (Ev e x)) -> always Q (attempt e).
Proof. intros He. split; [exact He | intros x; apply always_lift]. Qed.

Lemma always_perform {X : Type} (Q : Event -> Prop) (e : Eff X) :
  (forall x, Q (Ev e x)) -> always Q (perform e).
Proof. intros He. split; [exact He | intros x; exact I]. Qed.

Lemma silent_printed (t : list Event) : Forall silent t -> printed t = [].
Proof.
  induction 1 as [|ev t Hev _ IH]; [reflexivity|].
  unfold printed in *. cbn [flat_map]. rewrite Hev, IH. reflexivity.
Qed.

Lemma progress_app (l1 l2 : list Msg) : progress (l1 ++ l2) = progress l1 ++ progress l2.
Proof. apply flat_map_app. Qed.

Lemma off_loop_lines (t : list Event) :
  Forall off_loop t ->
  progress (printed t) = [] /\
  List.filter is_tick (printed t) = [] /\ List.filter is_cross (printed t) = [].
Proof.
  induction 1 as [|ev t Hev _ (IH1 & IH2 & IH3)]; [repeat split|].
  change (ev :: t) with ([ev] ++ t).
  rewrite !printed_app, progress_app, !List.filter_app, IH1, IH2, IH3, !app_nil_r.
  unfold off_loop in Hev. unfold printed. cbn [flat_map]. rewrite !app_nil_r.
  destruct ev as [X e x]. destruct e; try (repeat split; fail).
  - destruct m; try discriminate; repeat split.
  - destruct x as [[]|err]; [|repeat split].
    destruct m; try discriminate; repeat split.
Qed.

(** A worker prints nothing. *)
Lemma convert_image_silent (self : ImageConverter) (image_path : Path) :
  always silent (convert_image self image_path).
Proof.
  unfold convert_image. apply always_try_except; [|intros [|text]; exact I].
  apply always_bind; [apply always_lift | intros out].
  apply always_bind; [apply always_attempt; intros x; reflexivity | intros [|]];
    [exact I|].
  apply always_bind; [apply always_attempt; intros x; reflexivity | intros result].
  apply always_bind; [|intros [|]; exact I].
  destruct (returncode result =? 0); [apply always_attempt; intros x; reflexivity|].
  exact I.
Qed.

(** The header and the statistics hold no progress line. *)
Lemma prologue_off_loop (self : ImageConverter) : always off_loop (prologue self).
Proof.
  unfold prologue, find_images.
  apply always_bind.
  { apply always_bind; [apply always_attempt; intros x; reflexivity | intros l; exact I]. }
  intros [|img l].
  - apply always_bind; [apply always_perform; intros x; reflexivity | intros _; exact I].
  - repeat (apply always_bind; [apply always_perform; intros x; reflexivity | intros _]).
    apply always_bind; [apply always_perform; intros x; reflexivity | intros t; exact I].
Qed.

Lemma stat_size_off_loop (p : option Path) : always off_loop (stat_size p).
Proof.
  destruct p as [q|]; [apply always_attempt; intros x; reflexivity | exact I].
Qed.

Lemma summary_off_loop (self : ImageConverter) (start_time : Q) :
  always off_loop (summary self start_time).
Proof.
  unfold summary.
  apply always_bind; [apply always_perform; intros x; reflexivity | intros now].
  repeat (apply always_bind; [apply always_perform; intros x; reflexivity | intros _]).
  apply always_bind; [|intros _; apply always_perform; intros x; reflexivity].
  destruct (converted_files self) as [|f files]; [exact I|].
  unfold size_report.
  apply always_bind; [apply always_lift | intros avg].
  apply always_bind; [apply always_perform; intros x; reflexivity | intros _].
  apply always_bind.
  { apply always_for_each. intros a acc.
    apply always_bind; [apply stat_size_off_loop | intros sz; exact I]. }
  intros total_original. apply always_bind.
  { apply always_for_each. intros a acc.
    apply always_bind; [apply stat_size_off_loop | intros sz; exact I]. }
  intros total_new.
  apply always_bind; [apply always_lift | intros ratio].
  apply always_bind; [apply always_perform; intros x; reflexivity | intros _].
  apply always_perform; intros x; reflexivity.
Qed.

(** The loop body prints one line, with the counter after the increment. *)
Lemma loop_body_prints (total : nat) (start_time : Q) (success : bool) (original : Path)
    (new_path : option Path) (error : string) (self : ImageConverter) (completed : nat)
    (vars' : ImageConverter * nat) (w w' : W)
    (body := loop_body total start_time (success, original, new_path, error)
               (self, completed)) :
  exec h body w = (Returned vars', w') ->
  exists m : Msg,
    printed (trace h body w) = [m] /\
    progress_of m = [(S completed, total)] /\
    is_tick m = success /\ is_cross m = negb success.
Proof.
  subst body. unfold loop_body. cbn [exec trace bind perform fst snd].
  set (w1 := (h _ TimeTime w).2). set (now := (h _ TimeTime w).1).
  destruct (truediv (now - start_time) (Q_of_nat (S completed))) as [avg|e];
    cbn [lift bind exec trace attempt]; [|discriminate].
  destruct success; cbn [lift bind exec trace fst snd attempt].
  - destruct (h _ (PathStatSize original) w1) as [[osz|e] w2];
      cbn [lift bind exec trace fst snd stat_size attempt]; [|discriminate].
    destruct new_path as [new|]; cbn [lift bind exec trace fst snd stat_size attempt];
      [|discriminate].
    destruct (h _ (PathStatSize new) w2) as [[nsz|e] w3];
      cbn [lift bind exec trace fst snd]; [|discriminate].
    destruct (ratio_of _ _) as [ratio|e];
      cbn [lift bind exec trace fst snd print_text attempt]; [|discriminate].
    destruct (h _ (PrintText _) w3) as [[[]|e] w4]; cbn [lift bind exec trace fst snd];
      [|discriminate].
    intros _. eexists. split; [reflexivity|]. repeat split.
  - destruct (negb (String.eqb error skip_message));
      cbn [lift bind exec trace fst snd print_text attempt];
      (destruct (h _ (PrintText _) w1) as [[[]|e] w2]; cbn [lift bind exec trace fst snd];
       [|discriminate]);
      intros _; eexists; (split; [reflexivity|]); repeat split.
Qed.

Variable total : nat.
Variable start_time : Q.
Variable self0 : ImageConverter.

Lemma told_insert (b : Batch W) (i : nat) (img : Path) (t : TaskState) :
  Forall quiet_task (tasks b) -> quiet_task (img, t) ->
  Forall quiet_task (<[i := (img, t)]> (tasks b)).
Proof. intros Hall Ht. apply Forall_insert; assumption. Qed.

Lemma told_step (a : Action) (b b' : Batch W) :
  Told total self0 b -> step h total start_time a b = Next b' -> Told total self0 b'.
Proof.
  intros [Hq Hp Ht Hc]. destruct a as [i|i|i]; cbn [step].
  - destruct (tasks b !! i) as [[img [| | |]]|]; try discriminate.
    destruct (_ && _); [|discriminate]. intros [= <-].
    split; cbn [set_task tasks log done this]; rewrite ?app_nil_r; try assumption.
    apply told_insert; [exact Hq | apply convert_image_silent].
  - destruct (tasks b !! i) as [[img [|[r|e'|X e' k]| |]]|] eqn:Hi; try discriminate.
    + intros [= <-].
      split; cbn [set_task tasks log done this]; rewrite ?app_nil_r; try assumption.
      apply told_insert; [exact Hq | exact I].
    + intros [= <-].
      split; cbn [set_task tasks log done this]; rewrite ?app_nil_r; try assumption.
      apply told_insert; [exact Hq | exact I].
    + intros [= <-].
      pose proof Hq as Hk. rewrite Forall_lookup in Hk. specialize (Hk _ _ Hi).
      destruct Hk as [He Hk].
      assert (Hnone : printed [Ev e' (h _ e' (world b)).1] = []).
      { unfold printed. cbn [flat_map]. rewrite (He _). reflexivity. }
      split; cbn [set_task tasks log done this];
        rewrite ?printed_app, ?Hnone, ?app_nil_r; try assumption.
      apply told_insert; [exact Hq | apply Hk].
  - destruct (tasks b !! i) as [[img [| |[[[[success original] new_path] error]|e']|]]|];
      try discriminate.
    pose proof (loop_body_prints total start_time success original new_path error
                  (this b) (done b)) as Hprints.
    pose proof (loop_body_result h total start_time success original new_path error
                  (this b)) as Hresult.
    remember (trace h (loop_body total start_time (success, original, new_path, error)
                         (this b, done b)) (world b)) as evs eqn:Hevs.
    destruct (exec h (loop_body total start_time (success, original, new_path, error)
                        (this b, done b)) (world b))
      as [[[self completed]|e'] w1] eqn:Hex; [|discriminate].
    intros [= <-].
    destruct (Hprints _ _ _ Hex) as (m & Hm & Hpm & Htick & Hcross).
    rewrite <- Hevs in Hm.
    destruct (Hresult _ _ _ _ _ Hex) as (-> & _ & _ & _ & Hlists).
    split; cbn [tasks log done this]; rewrite ?printed_app, ?Hm.
    + apply told_insert; [exact Hq | exact I].
    + rewrite progress_app, Hp, seq_S, map_app. unfold progress. cbn [flat_map].
      rewrite Hpm. reflexivity.
    + rewrite List.filter_app, length_app. cbn [List.filter]. rewrite Htick.
      destruct success; destruct Hlists as [H1 H2]; rewrite ?H1, ?H2, ?length_app;
        cbn [length negb]; lia.
    + rewrite List.filter_app, length_app. cbn [List.filter]. rewrite Hcross.
      destruct success; destruct Hlists as [H1 H2]; rewrite ?H1, ?H2, ?length_app;
        cbn [length negb]; lia.
Qed.

Lemma told_run (sched : list Action) :
  forall b b' : Batch W,
    Told total self0 b -> run h total start_time sched b = Next b' -> Told total self0 b'.
Proof.
  induction sched as [|a sched IH]; intros b b' HT; cbn [run].
  - intros [= <-]. exact HT.
  - destruct (step h total start_time a b) as [|b1|e b1] eqn:Hstep; try discriminate.
    apply IH. exact (told_step a b b1 HT Hstep).
Qed.

End Console.

(** X8.  The progress lines of a batch.  When [convert_all] returns, the
    lines it printed from the loop carry the counters [1/N], [2/N], ...,
    [N/N] in this order, [N] being the number of images found, whatever the
    order in which the workers finished: one line for each image, none from
    a worker thread.  The lines of a success are as many as the entries
    added to [converted_files], the lines of a failure or a skip as many as
    the entries added to [failed_files]. *)
Theorem convert_all_progress_lines {W : Type} (h : Handler W) (self : ImageConverter)
    (sched : list Action) (w w' : W) (self' : ImageConverter) (evs : list Event)
    (images : list Path) :
  (exec h (find_images self) w).1 = Returned images ->
  convert_all h self sched w = Some (Returned self', w', evs) ->
  progress (printed evs)
  = map (fun k => (k, length images)) (seq 1 (length images)) /\
  (length (converted_files self) + length (List.filter is_tick (printed evs))
   = length (converted_files self'))%nat /\
  (length (failed_files self) + length (List.filter is_cross (printed evs))
   = length (failed_files self'))%nat.
Proof.
  intros Himages. unfold convert_all.
  pose proof (off_loop_lines _ (always_trace h off_loop (prologue self)
                                  (prologue_off_loop self) w)) as (Hp0 & Ht0 & Hc0).
  set (pro := trace h (prologue self) w) in *.
  destruct (exec h (prologue self) w) as [[[[found start]|]|e0] w1] eqn:Hex;
    [| |discriminate].
  - destruct (max_workers self <=? 0); [discriminate|].
    pose proof (prologue_found h self w w1 found start Hex) as Hfound.
    rewrite Himages in Hfound. injection Hfound as ->.
    pose proof (submit_all_inv h (fun _ => True) (fun _ => False) self found pro w1 I)
      as HI0.
    assert (HT0 : Told (length found) self (submit_all self found w1 pro)).
    { split; cbn [submit_all tasks log done this].
      - apply Forall_forall. intros t [img [-> _]]%list_elem_of_fmap. exact I.
      - exact Hp0.
      - rewrite Ht0. cbn [length]. lia.
      - rewrite Hc0. cbn [length]. lia. }
    destruct (run h (length found) start sched _) as [|b|e1 b] eqn:Hrun;
      [discriminate| |discriminate].
    destruct (all_collected b) eqn:Hall; [|discriminate].
    pose proof (sound_run h self found pro (length found) start sched _ _ HI0 Hrun) as HI.
    destruct (told_run h (length found) start self sched _ _ HT0 Hrun)
      as [_ Hp Ht Hc].
    pose proof (off_loop_lines _ (always_trace h off_loop (summary (this b) start)
                                    (summary_off_loop (this b) start) (world b)))
      as (Hp1 & Ht1 & Hc1).
    assert (Hdone : done b = length found).
    { rewrite (inv_done _ _ _ _ _ _ _ HI), (all_collected_paths _ Hall).
      rewrite (inv_images _ _ _ _ _ _ _ HI). reflexivity. }
    remember (trace h (summary (this b) start) (world b)) as fin eqn:Hfin.
    destruct (exec h (summary (this b) start) (world b)) as [[u|e1] w2];
      [|discriminate].
    intros [= <- <- <-].
    rewrite printed_app, progress_app, !List.filter_app, Hp1, Ht1, Hc1, !app_nil_r.
    rewrite Hp, Hdone. split; [reflexivity|]. split; assumption.
  - intros [= <- <- <-].
    assert (Hnone : images = []).
    { revert Hex Himages. unfold prologue. rewrite exec_bind.
      destruct (exec h (find_images self) w) as [[l|e] w0]; [|discriminate].
      destruct l as [|img l]; cbn; [|discriminate]. intros _ [= <-]. reflexivity. }
    subst images. rewrite Hp0, Ht0, Hc0. cbn [length seq map].
    split; [reflexivity|]. split; lia.
Qed.

Lemma convert_all_progress_lines_witness :
  let h := Posix.handler (Scenario.machine Scenario.judge) in
  exists (self' : ImageConverter) (w' : Posix.World) (evs : list Event),
    convert_all h (Scenario.converter 2 7) Scenario.interleaved
      (Scenario.at_start Scenario.pics) = Some (Returned self', w', evs) /\
    progress (printed evs) = [(1, 4); (2, 4); (3, 4); (4, 4)]%nat /\
    length (List.filter is_tick (printed evs)) = length (converted_files self') /\
    length (List.filter is_cross (printed evs)) = length (failed_files self').
Proof.
  intros h.
  destruct (convert_all h (Scenario.converter 2 7) Scenario.interleaved
              (Scenario.at_start Scenario.pics)) as [[[[self'|e] w'] evs]|] eqn:Hrun;
    try (vm_compute in Hrun; discriminate).
  exists self', w', evs. split; [reflexivity|].
  exact (convert_all_progress_lines h (Scenario.converter 2 7) Scenario.interleaved
           (Scenario.at_start Scenario.pics) w' self' evs
           [["pics"; "a.png"]; ["pics"; "b.jpg"]; ["pics"; "c.bmp"]; ["pics"; "d.gif"]]
           eq_refl Hrun).
Defined.

(** * Every effect of a batch *)

Section Everywhere.

Context {W : Type}.
Variable h : Handler W.
Variable good : Event -> Prop.

Hypothesis worker_ok : forall self img, always good (convert_image self img).
Hypothesis loop_ok : forall total start_time r vars,
    always good (loop_body total start_time r vars).

Variable total : nat.
Variable start_time : Q.

Lemma step_always (a : Action) (b : Batch W) :
  Forall good (log b) -> Forall (task_always good) (tasks b) ->
  match step h total start_time a b with
  | Disabled => True
  | Next b' => Forall good (log b') /\ Forall (task_always good) (tasks b')
  | Aborted _ b' => Forall good (log b') /\ Forall (task_always good) (tasks b')
  end.
Proof.
  intros Hlog Htasks. destruct a as [i|i|i]; cbn [step].
  - destruct (tasks b !! i) as [[img [| | |]]|]; try exact I.
    destruct (_ && _); [|exact I]. cbn [set_task log tasks]. rewrite app_nil_r.
    split; [exact Hlog|]. apply Forall_insert; [exact Htasks | apply worker_ok].
  - destruct (tasks b !! i) as [[img [|[r|e'|X e' k]| |]]|] eqn:Hi; try exact I;
      cbn [set_task log tasks]; rewrite ?app_nil_r.
    + split; [exact Hlog|]. apply Forall_insert; [exact Htasks | exact I].
    + split; [exact Hlog|]. apply Forall_insert; [exact Htasks | exact I].
    + pose proof Htasks as Hk. rewrite Forall_lookup in Hk. specialize (Hk _ _ Hi).
      destruct Hk as [He Hk]. split.
      * apply Forall_app. split; [exact Hlog|]. constructor; [apply He | constructor].
      * apply Forall_insert; [exact Htasks | apply Hk].
  - destruct (tasks b !! i) as [[img [| |[r|e']|]]|]; try exact I.
    + pose proof (always_trace h good _ (loop_ok total start_time r (this b, done b))
                    (world b)) as Hbody.
      remember (trace h (loop_body total start_time r (this b, done b)) (world b))
        as evs eqn:Hevs.
      destruct (exec h (loop_body total start_time r (this b, done b)) (world b))
        as [[[self completed]|e'] w1]; cbn [log tasks].
      * split; [apply Forall_app; split; assumption|].
        apply Forall_insert; [exact Htasks | exact I].
      * split; [apply Forall_app; split; assumption | exact Htasks].
    + split; assumption.
Qed.

Lemma run_always (sched : list Action) :
  forall b : Batch W,
    Forall good (log b) -> Forall (task_always good) (tasks b) ->
    match run h total start_time sched b with
    | Disabled => True
    | Next b' => Forall good (log b')
    | Aborted _ b' => Forall good (log b')
    end.
Proof.
  induction sched as [|a sched IH]; intros b Hlog Htasks; cbn [run]; [exact Hlog|].
  pose proof (step_always a b Hlog Htasks) as Hstep.
  destruct (step h total start_time a b) as [|b1|e b1]; [exact I | | exact (proj1 Hstep)].
  apply IH; [exact (proj1 Hstep) | exact (proj2 Hstep)].
Qed.

End Everywhere.

(** What holds of every effect of the workers, of the loop body, of the
    header and of the statistics holds of every effect of a complete run of
    [convert_all]. *)
Lemma convert_all_always {W : Type} (h : Handler W) (good : Event -> Prop)
    (self : ImageConverter) (sched : list Action) (w w' : W)
    (o : Outcome ImageConverter) (evs : list Event) :
  (forall self' img, always good (convert_image self' img)) ->
  (forall total start_time r vars, always good (loop_body total start_time r vars)) ->
  always good (prologue self) ->
  (forall self' start_time, always good (summary self' start_time)) ->
  convert_all h self sched w = Some (o, w', evs) ->
  Forall good evs.
Proof.
  intros Hworker Hloop Hpro Hsum. unfold convert_all.
  pose proof (always_trace h good _ Hpro w) as Hlog0.
  set (pro := trace h (prologue self) w) in *.
  destruct (exec h (prologue self) w) as [[[[found start]|]|e0] w1].
  2-3: intros [= <- <- <-]; exact Hlog0.
  destruct (max_workers self <=? 0); [intros [= <- <- <-]; exact Hlog0|].
  pose proof (run_always h good Hworker Hloop (length found) start sched
                (submit_all self found w1 pro) Hlog0) as Hrun.
  assert (Htasks : Forall (task_always good) (tasks (submit_all self found w1 pro))).
  { cbn. apply Forall_forall. intros t [img [-> _]]%list_elem_of_fmap. exact I. }
  specialize (Hrun Htasks).
  destruct (run h (length found) start sched _) as [|b|e1 b]; [discriminate| |].
  - destruct (all_collected b); [|discriminate].
    pose proof (always_trace h good _ (Hsum (this b) start) (world b)) as Hfin.
    remember (trace h (summary (this b) start) (world b)) as fin eqn:Hfin'.
    destruct (exec h (summary (this b) start) (world b)) as [[u|e1] w2];
      intros [= <- <- <-]; apply Forall_app; split; assumption.
  - intros [= <- <- <-]. exact Hrun.
Qed.

(** * Who leaves the interpreter *)

Section NoExit.

Context {W : Type}.
Variable h : Handler W.

Lemma no_exit_exec {R : Type} (p : Prog R) :
  no_exit p -> forall (w : W) (e : Exn),
    (exec h p w).1 = Raised e -> exists err : Error, e = Exc err.
Proof.
  induction p as [r|e0|X e0 k IH]; cbn [exec no_exit fst]; intros Hp w e.
  - discriminate.
  - intros [= <-]. exact Hp.
  - apply IH, Hp.
Qed.

Lemma no_exit_bind {A B : Type} (p : Prog A) (f : A -> Prog B) :
  no_exit p -> (forall a, no_exit (f a)) -> no_exit (bind p f).
Proof.
  intros Hp Hf. induction p as [a|e|X e k IH]; cbn; [apply Hf | exact Hp |].
  intros x. apply IH, Hp.
Qed.

Lemma no_exit_lift {A : Type} (r : Result A) : no_exit (lift r).
Proof. destruct r as [a|e]; [exact I | exists e; reflexivity]. Qed.

Lemma no_exit_attempt {A : Type} (e : Eff (Result A)) : no_exit (attempt e).
Proof. intros x. apply no_exit_lift. Qed.

Lemma no_exit_perform {X : Type} (e : Eff X) : no_exit (perform e).
Proof. intros x. exact I. Qed.

Lemma no_exit_for_each {A S : Type} (l : list A) (body : A -> S -> Prog S) :
  (forall a s, no_exit (body a s)) -> forall s, no_exit (for_each l body s).
Proof.
  intros Hbody. induction l as [|a l IH]; intros s; cbn [for_each]; [exact I|].
  apply no_exit_bind; [apply Hbody | exact IH].
Qed.

Lemma no_exit_stat_size (p : option Path) : no_exit (stat_size p).
Proof. destruct p as [q|]; [apply no_exit_attempt | eexists; reflexivity]. Qed.

Lemma prologue_no_exit (self : ImageConverter) : no_exit (prologue self).
Proof.
  unfold prologue, find_images.
  apply no_exit_bind.
  { apply no_exit_bind; [apply no_exit_attempt | intros l; exact I]. }
  intros [|img l].
  - apply no_exit_bind; [apply no_exit_perform | intros _; exact I].
  - repeat (apply no_exit_bind; [apply no_exit_perform | intros _]).
    apply no_exit_bind; [apply no_exit_perform | intros t; exact I].
Qed.

Lemma loop_body_no_exit (total : nat) (start_time : Q) (r : ConvResult)
    (vars : ImageConverter * nat) :
  no_exit (loop_body total start_time r vars).
Proof.
  destruct r as [[[success original] new_path] error], vars as [self completed].
  unfold loop_body.
  apply no_exit_bind; [apply no_exit_perform | intros now].
  apply no_exit_bind; [apply no_exit_lift | intros avg].
  destruct success.
  - apply no_exit_bind; [apply no_exit_attempt | intros osz].
    apply no_exit_bind; [apply no_exit_stat_size | intros nsz].
    apply no_exit_bind; [apply no_exit_lift | intros ratio].
    apply no_exit_bind; [apply no_exit_attempt | intros _; exact I].
  - apply no_exit_bind; [|intros _; exact I].
    destruct (negb _); apply no_exit_attempt.
Qed.

Lemma summary_no_exit (self : ImageConverter) (start_time : Q) :
  no_exit (summary self start_time).
Proof.
  unfold summary.
  apply no_exit_bind; [apply no_exit_perform | intros now].
  repeat (apply no_exit_bind; [apply no_exit_perform | intros _]).
  apply no_exit_bind; [|intros _; apply no_exit_perform].
  destruct (converted_files self) as [|f files]; [exact I|].
  unfold size_report.
  apply no_exit_bind; [apply no_exit_lift | intros avg].
  apply no_exit_bind; [apply no_exit_perform | intros _].
  apply no_exit_bind.
  { apply no_exit_for_each. intros a acc.
    apply no_exit_bind; [apply no_exit_stat_size | intros sz; exact I]. }
  intros total_original. apply no_exit_bind.
  { apply no_exit_for_each. intros a acc.
    apply no_exit_bind; [apply no_exit_stat_size | intros sz; exact I]. }
  intros total_new.
  apply no_exit_bind; [apply no_exit_lift | intros ratio].
  apply no_exit_bind; [apply no_exit_perform | intros _].
  apply no_exit_perform.
Qed.

Lemma run_aborted_exc (self0 : ImageConverter) (images : list Path) (evs0 : list Event)
    (total : nat) (start_time : Q) (sched : list Action) :
  forall (b b' : Batch W) (e : Exn),
    Inv h (fun _ => True) (fun _ => False) self0 images evs0 b ->
    run h total start_time sched b = Aborted e b' ->
    exists err : Error, e = Exc err.
Proof.
  induction sched as [|a sched IH]; intros b b' e HI; cbn [run]; [discriminate|].
  destruct (step h total start_time a b) as [|b1|e1 b1] eqn:Hstep; [discriminate| |].
  - apply IH. apply (sound_run h self0 images evs0 total start_time [a] b b1 HI).
    cbn [run]. rewrite Hstep. reflexivity.
  - intros [= <- <-]. revert Hstep. destruct a as [i|i|i]; cbn [step].
    + destruct (tasks b !! i) as [[img [| | |]]|]; try discriminate.
      destruct (_ && _); discriminate.
    + destruct (tasks b !! i) as [[img [|[r|e'|X e' k]| |]]|]; discriminate.
    + destruct (tasks b !! i) as [[img [| |[r|e']|]]|] eqn:Hi; try discriminate.
      * pose proof (no_exit_exec _ (loop_body_no_exit total start_time r (this b, done b))
                      (world b)) as Hbody.
        destruct (exec h (loop_body total start_time r (this b, done b)) (world b))
          as [[[self completed]|e'] w1]; [discriminate|].
        intros [= <- _]. apply Hbody. reflexivity.
      * pose proof (inv_tasks _ _ _ _ _ _ _ HI) as Ht.
        rewrite Forall_lookup in Ht. specialize (Ht _ _ Hi). cbn in Ht.
        destruct Ht as (r0 & Hr0 & _). discriminate.
Qed.

(** [convert_all] does not call [sys.exit]. *)
Lemma convert_all_never_exits (self : ImageConverter) (sched : list Action) (w w' : W)
    (e : Exn) (evs : list Event) :
  convert_all h self sched w = Some (Raised e, w', evs) -> exists err : Error, e = Exc err.
Proof.
  unfold convert_all.
  pose proof (no_exit_exec _ (prologue_no_exit self) w) as Hpro.
  destruct (exec h (prologue self) w) as [[[[found start]|]|e0] w1].
  - destruct (max_workers self <=? 0); [intros [= <- _ _]; eexists; reflexivity|].
    pose proof (submit_all_inv h (fun _ => True) (fun _ => False) self found
                  (trace h (prologue self) w) w1 I) as HI0.
    destruct (run h (length found) start sched _) as [|b|e1 b] eqn:Hrun; [discriminate| |].
    + destruct (all_collected b); [|discriminate].
      pose proof (no_exit_exec _ (summary_no_exit (this b) start) (world b)) as Hsum.
      destruct (exec h (summary (this b) start) (world b)) as [[u|e1] w2];
        [discriminate|].
      intros [= <- _ _]. apply Hsum. reflexivity.
    + intros [= <- _ _].
      exact (run_aborted_exc self found _ (length found) start sched _ _ _ HI0 Hrun).
  - discriminate.
  - intros [= <- _ _]. apply Hpro. reflexivity.
Qed.

End NoExit.

(** * The script *)

Lemma library_app (l1 l2 : list Shown) : library (l1 ++ l2) = library l1 ++ library l2.
Proof. apply flat_map_app. Qed.

Lemma asked_app (l1 l2 : list Shown) : asked (l1 ++ l2) = asked l1 ++ asked l2.
Proof. apply flat_map_app. Qed.

Lemma said_app (l1 l2 : list Shown) : said (l1 ++ l2) = said l1 ++ said l2.
Proof. apply flat_map_app. Qed.

Lemma library_events (evs : list Event) : library (map Library evs) = evs.
Proof. induction evs as [|ev evs IH]; [reflexivity|]. cbn. f_equal. exact IH. Qed.

Lemma asked_events (evs : list Event) : asked (map Library evs) = [].
Proof. induction evs as [|ev evs IH]; [reflexivity | exact IH]. Qed.

(** The count of threads that the script hands over for a line typed at
    its prompt, and the effort. *)
Lemma workers_in_range (typed : option Z) :
  1 <= match typed with
       | Some max_workers => if max_workers <? 1 then 8 else max_workers
       | None => 8
       end.
Proof. destruct typed as [k|]; [destruct (Z.ltb_spec k 1)|]; lia. Qed.

Lemma effort_in_range (typed : option Z) :
  1 <= match typed with
       | Some effort => Z.min (Z.max effort 1) 9
       | None => 7
       end <= 9.
Proof. destruct typed as [k|]; lia. Qed.

Section ScriptCases.

Context {W : Type}.
Variable h : Handler W.
Variable isdir : W -> string -> bool.
Variable path_of : string -> Path.
Variable int_of : string -> option Z.
Variable strip : string -> string.
Variable lower : string -> string.

(** How the first part of [main] ends: with the three settings, the
    directory being one and the numbers those of the two lines typed; or
    with exit status 1 because the directory is none; or with the end of the
    input; or because the terminal refused the name of what is no
    directory.  It calls nothing of the converter and leaves the world as
    it is. *)
Lemma setup_cases (argv : list string) (s s1 : Session W)
    (o : Outcome (string * Z * Z)) :
  setup isdir int_of strip argv s = Some (o, s1) ->
  host s1 = host s /\
  exists more : list Shown,
    shown s1 = shown s ++ more /\ library more = [] /\
    (forall a, (AskDelete, a) ∉ asked more) /\
    match o with
    | Returned (target_dir, max_workers, effort) =>
        isdir (host s) target_dir = true /\
        exists (wline eline : string) (before : list (Prompt * option string)),
          asked more = before ++ [(AskWorkers, Some wline); (AskEffort, Some eline)] /\
          Forall (fun q => q.1 = AskDirectory) before /\
          max_workers = match int_of (PyStr.or_ (strip wline) "8") with
                        | Some max_workers => if max_workers <? 1 then 8 else max_workers
                        | None => 8
                        end /\
          effort = match int_of (PyStr.or_ (strip eline) "7") with
                   | Some effort => Z.min (Z.max effort 1) 9
                   | None => 7
                   end
    | Raised e =>
        (e = SystemExit 1 /\
         exists target_dir, isdir (host s) target_dir = false /\
                            last more = Some (Own (SaidNoDirectory target_dir))) \/
        (e = end_of_input /\ stdin s1 = []) \/
        (e = refused_text /\
         exists target_dir, isdir (host s) target_dir = false /\
                            takes s target_dir = false)
    end.
Proof.
  unfold setup, read_target, read_workers, read_effort, and_then, say_text, say, input,
    heard, done_with, exit_.
  cbn [host stdin shown takes].
  intros Hrun.
  repeat (case_match; simplify_eq/=);
    (split; [reflexivity|]);
    (eexists; split; [rewrite <- ?app_assoc; reflexivity|]);
    (split; [reflexivity|]);
    (split; [intros a; cbn; rewrite ?elem_of_cons, elem_of_nil;
             intros Hin; repeat destruct Hin as [Hin|Hin]; congruence|]);
    try (left; split; [reflexivity|]; eexists; split; [|reflexivity];
         apply negb_true_iff; eassumption);
    try (right; left; split; reflexivity);
    try (right; right; split; [reflexivity|]; eexists;
         split; [apply negb_true_iff; eassumption | eassumption]);
    try (split; [apply negb_false_iff; eassumption|];
         eexists _, _, _; split; [cbn; first [exact (eq_refl : _ = [] ++ _)
                                             | exact (eq_refl : _ = [_] ++ _)]|];
         split; [repeat constructor|];
         split; repeat case_match; congruence).
Qed.

Lemma setup_runs (argv : list string) (s : Session W) :
  exists r, setup isdir int_of strip argv s = Some r.
Proof.
  unfold setup, read_target, read_workers, read_effort, and_then, say_text, say, input,
    heard, done_with, exit_.
  cbn [host stdin shown takes].
  repeat (case_match; simplify_eq/=); eexists; reflexivity.
Qed.

(** How the question about the originals ends: with the end of the input,
    with an answer that declines, or with an answer that consents, after
    which [delete_originals] has run and its ending is that of the
    question. *)
Lemma ask_delete_cases (converter : ImageConverter) (lines : list string) :
  forall (s s' : Session W) (o : Outcome unit),
    ask_delete h strip lower converter lines s = Some (o, s') ->
    exists more : list Shown,
      shown s' = shown s ++ more /\
      Forall (fun q => q.1 = AskDelete) (asked more) /\
      ((o = Raised end_of_input /\ stdin s' = [] /\ host s' = host s /\
        library more = []) \/
       (o = Returned tt /\ host s' = host s /\ library more = [] /\
        exists line, last (asked more) = Some (AskDelete, Some line) /\
                     affirmative (lower (strip line)) = false /\
                     negative (lower (strip line)) = true) \/
       (o = (exec h (delete_originals converter) (host s)).1 /\
        host s' = (exec h (delete_originals converter) (host s)).2 /\
        library more = trace h (delete_originals converter) (host s) /\
        exists line, last (asked more) = Some (AskDelete, Some line) /\
                     affirmative (lower (strip line)) = true)).
Proof.
  induction lines as [|line rest IH]; intros s s' o; cbn [ask_delete].
  - intros [= <- <-]. exists [Asked AskDelete None]. split; [reflexivity|].
    split; [repeat constructor|]. left. repeat split.
  - destruct (affirmative (lower (strip line))) eqn:Hyes;
      [|destruct (negative (lower (strip line))) eqn:Hno].
    + unfold call, heard. cbn [host stdin shown takes].
      intros [= <- <-]. eexists. split; [cbn [shown]; rewrite <- app_assoc; reflexivity|].
      rewrite asked_app, asked_events, library_app, library_events, app_nil_r.
      split; [repeat constructor|].
      right. right. split; [reflexivity|]. split; [reflexivity|].
      split; [reflexivity|]. exists line. split; [reflexivity | exact Hyes].
    + unfold say, heard. cbn [host stdin shown takes]. intros [= <- <-].
      eexists. split; [cbn [shown]; rewrite <- app_assoc; reflexivity|].
      split; [repeat constructor|].
      right. left. repeat split. exists line. repeat split; assumption.
    + unfold and_then, say, heard. cbn [host stdin shown takes].
      intros Hrun. destruct (IH _ _ _ Hrun) as (more & Hshown & Honly & Hcases).
      cbn [host stdin shown takes] in Hshown, Hcases.
      exists ([Asked AskDelete (Some line); Own SaidAnswerAgain] ++ more).
      split; [rewrite Hshown, <- !app_assoc; reflexivity|].
      rewrite library_app, asked_app. cbn [library asked flat_map library_of answer_of app].
      split; [constructor; [reflexivity | exact Honly]|].
      destruct Hcases as [H1|[(H1 & H2 & H3 & l & Hl & Hl1 & Hl2)|(H1 & H2 & H3 & l & Hl & Hl1)]].
      * left. exact H1.
      * right. left. repeat split; try assumption. exists l.
        rewrite last_cons, Hl. repeat split; assumption.
      * right. right. repeat split; try assumption. exists l.
        rewrite last_cons, Hl. split; [reflexivity | assumption].
Qed.

Lemma ask_delete_runs (converter : ImageConverter) (lines : list string) :
  forall s : Session W, exists r, ask_delete h strip lower converter lines s = Some r.
Proof.
  induction lines as [|line rest IH]; intros s; cbn [ask_delete].
  - eexists. reflexivity.
  - destruct (affirmative _); [eexists; reflexivity|].
    destruct (negative _); [eexists; reflexivity | apply IH].
Qed.

(** [__init__], by the answer of [shutil.which]. *)
Lemma init_cases (root : Path) (workers e : Z) (w : W) :
  let self := {| root_dir := root; max_workers := workers;
                 effort := Z.min (Z.max e 1) 9;
                 converted_files := []; failed_files := [] |} in
  (exists found,
      (h _ (ShutilWhich "cjxl") w).1 = Some found /\
      exec h (init root workers e) w = (Returned self, (h _ (ShutilWhich "cjxl") w).2) /\
      trace h (init root workers e) w = [Ev (ShutilWhich "cjxl") (Some found)]) \/
  ((h _ (ShutilWhich "cjxl") w).1 = None /\
   (exec h (init root workers e) w).1 = Raised (SystemExit 1) /\
   trace h (init root workers e) w
   = [Ev (ShutilWhich "cjxl") None; Ev (Print MsgNoCjxl) tt]).
Proof.
  unfold init. cbn.
  destruct (h _ (ShutilWhich "cjxl") w) as [[found|] w1]; cbn.
  - left. exists found. repeat split.
  - right. destruct (h _ (Print MsgNoCjxl) w1) as [[] w2]. repeat split.
Qed.

Lemma conduct_cases (target_dir : string) (max_workers effort : Z) (sched : list Action)
    (s s' : Session W) (o : Outcome unit) :
  conduct h path_of strip lower (target_dir, max_workers, effort) sched s = Some (o, s') ->
  exists more : list Shown,
    shown s' = shown s ++ more /\
    Forall (fun q => q.1 = AskDelete) (asked more) /\
    Conducted h strip lower {| root_dir := path_of target_dir; max_workers := max_workers;
                 effort := Z.min (Z.max effort 1) 9;
                 converted_files := []; failed_files := [] |} sched (host s) o s' more.
Proof.
  unfold conduct, and_then, call at 1. cbn [host stdin shown takes].
  destruct (init_cases (path_of target_dir) max_workers effort (host s))
    as [(found & Hwhich & Hexec & Htrace)|(Hwhich & Hexec & Htrace)]; cbv zeta in *.
  2: { rewrite Hexec, Htrace. intros [= <- <-]. eexists. split; [reflexivity|].
       split; [constructor|].
       apply NoEncoder; [exact Hwhich | reflexivity | reflexivity]. }
  rewrite Hexec, Htrace. cbn [fst snd]. unfold call_convert_all.
  cbn [host stdin shown takes].
  set (self := {| root_dir := path_of target_dir; max_workers := max_workers;
                  effort := Z.min (Z.max effort 1) 9;
                  converted_files := []; failed_files := [] |}) in *.
  destruct (convert_all h self sched (h _ (ShutilWhich "cjxl") (host s)).2)
    as [[[[self'|e] w2] evs]|] eqn:Hbatch; [| |discriminate].
  - destruct (converted_files self') as [|f files] eqn:Hfiles.
    + unfold done_with. intros [= <- <-]. eexists.
      split; [cbn [shown]; rewrite <- app_assoc; reflexivity|].
      split; [rewrite asked_app, asked_events; constructor|].
      apply (NothingConverted h strip lower self sched (host s) found self' w2 evs);
        try assumption.
      * rewrite library_app, library_events. reflexivity.
      * rewrite asked_app, asked_events. reflexivity.
    + cbn [host stdin shown takes]. intros Hask.
      destruct (ask_delete_cases self' _ _ _ _ Hask) as (tail & Hshown & Honly & Hcases).
      cbn [host stdin shown takes] in Hshown, Hcases.
      exists ([Library (Ev (ShutilWhich "cjxl") (Some found))] ++ map Library evs ++ tail).
      split; [rewrite Hshown, <- !app_assoc; reflexivity|].
      assert (Hne : converted_files self' <> []) by (rewrite Hfiles; discriminate).
      assert (Hlib : forall l, library tail = l ->
                library ([Library (Ev (ShutilWhich "cjxl") (Some found))]
                         ++ map Library evs ++ tail)
                = Ev (ShutilWhich "cjxl") (Some found) :: evs ++ l).
      { intros l <-. rewrite !library_app, library_events. reflexivity. }
      assert (Hasked : asked ([Library (Ev (ShutilWhich "cjxl") (Some found))]
                              ++ map Library evs ++ tail) = asked tail).
      { rewrite !asked_app, asked_events. reflexivity. }
      split; [rewrite Hasked; exact Honly|].
      destruct Hcases as [(-> & Hin & _ & Hl)
                         |[(-> & _ & Hl & line & Hlast & Hyes & Hno)
                          |(-> & _ & Hl & line & Hlast & Hyes)]].
      * apply (InputEnded h strip lower self sched (host s) found self' w2 evs);
          try assumption.
        rewrite (Hlib _ Hl), app_nil_r. reflexivity.
      * apply (Declined h strip lower self sched (host s) found self' w2 evs line);
          try assumption.
        -- rewrite (Hlib _ Hl), app_nil_r. reflexivity.
        -- rewrite Hasked. exact Hlast.
      * apply (Consented h strip lower self sched (host s) found self' w2 evs line);
          try assumption.
        -- exact (Hlib _ Hl).
        -- rewrite Hasked. exact Hlast.
  - intros [= <- <-]. eexists.
    split; [cbn [shown]; rewrite <- app_assoc; reflexivity|].
    split; [rewrite asked_app, asked_events; constructor|].
    apply (BatchRaised h strip lower self sched (host s) found e w2 evs); try assumption.
    + rewrite library_app, library_events. reflexivity.
    + rewrite asked_app, asked_events. reflexivity.
Qed.

End ScriptCases.

(** * What the script does *)

Lemma harmless_always {R : Type} (p : Prog R) :
  harmless p -> always (fun ev => unlinked_of ev = []) p.
Proof.
  induction p as [r|e|X e k IH]; cbn; [exact (fun _ => I) | exact (fun _ => I) |].
  intros [He Hk]. split; [intros x; exact (proj1 (He x)) | intros x; apply IH, Hk].
Qed.

Lemma always_impl {R : Type} (P Q : Event -> Prop) (p : Prog R) :
  (forall ev, P ev -> Q ev) -> always P p -> always Q p.
Proof.
  intros HPQ. induction p as [r|e|X e k IH]; cbn; [exact (fun _ => I) | exact (fun _ => I) |].
  intros [He Hk]. split; [intros x; apply HPQ, He | intros x; apply IH, Hk].
Qed.

Lemma kept_unlinked (t : list Event) :
  Forall (fun ev => unlinked_of ev = []) t -> unlinked t = [].
Proof.
  induction 1 as [|ev t Hev _ IH]; [reflexivity|].
  unfold unlinked in *. cbn [flat_map]. rewrite Hev, IH. reflexivity.
Qed.

(** No effect of a complete run of [convert_all] is a deletion. *)
Lemma convert_all_keeps_files {W : Type} (h : Handler W) (self : ImageConverter)
    (sched : list Action) (w w' : W) (o : Outcome ImageConverter) (evs : list Event) :
  convert_all h self sched w = Some (o, w', evs) -> unlinked evs = [].
Proof.
  intros Hrun. apply kept_unlinked.
  apply (convert_all_always h _ self sched w w' o evs); [| | | |exact Hrun].
  - intros self' img. unfold convert_image.
    apply always_try_except; [|intros [|text]; exact I].
    apply always_bind; [apply always_lift | intros out].
    apply always_bind; [apply always_attempt; intros x; reflexivity | intros [|]];
      [exact I|].
    apply always_bind; [apply always_attempt; intros x; reflexivity | intros result].
    apply always_bind; [|intros [|]; exact I].
    destruct (returncode result =? 0); [apply always_attempt; intros x; reflexivity|].
    exact I.
  - intros total start_time r vars.
    exact (harmless_always _ (loop_body_harmless total start_time r vars)).
  - exact (harmless_always _ (prologue_harmless self)).
  - intros self' start_time.
    exact (harmless_always _ (summary_harmless self' start_time)).
Qed.

(** ** The settings on the console *)

Lemma threads_app (l1 l2 : list Msg) : threads (l1 ++ l2) = threads l1 ++ threads l2.
Proof. apply flat_map_app. Qed.

Lemma efforts_app (l1 l2 : list Msg) : efforts (l1 ++ l2) = efforts l1 ++ efforts l2.
Proof. apply flat_map_app. Qed.

Lemma silent_unset (ev : Event) : silent ev -> unset ev.
Proof. unfold silent, unset. intros ->. split; reflexivity. Qed.

Lemma unset_shows (self : ImageConverter) (ev : Event) :
  unset ev -> shows_settings_of self ev.
Proof. intros [H1 H2]. unfold shows_settings_of. rewrite H1, H2. split; constructor. Qed.

Lemma unset_trace (t : list Event) :
  Forall unset t -> threads (printed t) = [] /\ efforts (printed t) = [].
Proof.
  induction 1 as [|ev t [H1 H2] _ [IH1 IH2]]; [split; reflexivity|].
  change (ev :: t) with ([ev] ++ t).
  rewrite printed_app, threads_app, efforts_app, IH1, IH2, !app_nil_r.
  unfold printed. cbn [flat_map]. rewrite app_nil_r. split; assumption.
Qed.

Lemma shows_trace (self : ImageConverter) (t : list Event) :
  Forall (shows_settings_of self) t ->
  Forall (fun n => n = max_workers self) (threads (printed t)) /\
  Forall (fun e => e = effort self) (efforts (printed t)).
Proof.
  induction 1 as [|ev t [H1 H2] _ [IH1 IH2]]; [split; constructor|].
  change (ev :: t) with ([ev] ++ t).
  rewrite printed_app, threads_app, efforts_app.
  unfold printed at 1 3. cbn [flat_map]. rewrite app_nil_r.
  split; apply Forall_app; split; assumption.
Qed.

Ltac unset_event :=
  let x := fresh "x" in
  intros x; first [split; reflexivity | destruct x; split; reflexivity].

Lemma stat_size_unset (p : option Path) : always unset (stat_size p).
Proof. destruct p as [q|]; [apply always_attempt; unset_event | exact I]. Qed.

Lemma loop_body_unset (total : nat) (start_time : Q) (r : ConvResult)
    (vars : ImageConverter * nat) :
  always unset (loop_body total start_time r vars).
Proof.
  destruct r as [[[success original] new_path] error], vars as [self completed].
  unfold loop_body.
  apply always_bind; [apply always_perform; unset_event | intros now].
  apply always_bind; [apply always_lift | intros avg].
  destruct success.
  - apply always_bind; [apply always_attempt; unset_event | intros osz].
    apply always_bind; [apply stat_size_unset | intros nsz].
    apply always_bind; [apply always_lift | intros ratio].
    apply always_bind; [apply always_attempt; unset_event | intros _; exact I].
  - apply always_bind; [|intros _; exact I].
    destruct (negb _); apply always_attempt; unset_event.
Qed.

Lemma summary_unset (self : ImageConverter) (start_time : Q) :
  always unset (summary self start_time).
Proof.
  unfold summary.
  apply always_bind; [apply always_perform; unset_event | intros now].
  repeat (apply always_bind; [apply always_perform; unset_event | intros _]).
  apply always_bind; [|intros _; apply always_perform; unset_event].
  destruct (converted_files self) as [|f files]; [exact I|].
  unfold size_report.
  apply always_bind; [apply always_lift | intros avg].
  apply always_bind; [apply always_perform; unset_event | intros _].
  apply always_bind.
  { apply always_for_each. intros a acc.
    apply always_bind; [apply stat_size_unset | intros sz; exact I]. }
  intros total_original. apply always_bind.
  { apply always_for_each. intros a acc.
    apply always_bind; [apply stat_size_unset | intros sz; exact I]. }
  intros total_new.
  apply always_bind; [apply always_lift | intros ratio].
  apply always_bind; [apply always_perform; unset_event | intros _].
  apply always_perform; unset_event.
Qed.

(** The header shows the settings of the converter. *)
Lemma prologue_shows (self : ImageConverter) :
  always (shows_settings_of self) (prologue self).
Proof.
  unfold prologue, find_images.
  apply always_bind.
  { apply always_bind; [|intros l; exact I].
    apply always_attempt. intros x. apply unset_shows. split; reflexivity. }
  intros [|img l].
  - apply always_bind; [|intros _; exact I].
    apply always_perform. intros x. apply unset_shows. split; reflexivity.
  - apply always_bind; [|intros _].
    { apply always_perform. intros x. apply unset_shows. split; reflexivity. }
    apply always_bind; [|intros _].
    { apply always_perform. intros x. split; repeat constructor. }
    apply always_bind; [|intros _].
    { apply always_perform. intros x. split; repeat constructor. }
    apply always_bind; [|intros t; exact I].
    apply always_perform. intros x. apply unset_shows. split; reflexivity.
Qed.

Lemma delete_originals_unset (self : ImageConverter) :
  always unset (delete_originals self).
Proof.
  unfold delete_originals.
  destruct (converted_files self) as [|f files]; [apply always_perform; unset_event|].
  apply always_bind; [apply always_perform; unset_event | intros _].
  apply always_bind; [|intros counts; apply always_perform; unset_event].
  apply always_for_each. intros [original new_path] [deleted failed]. unfold delete_one.
  assert (Hexcept : forall (d : nat) (e : Error),
             always unset
               (let! _ := print_text (MsgDeleteFailed original (str_of_error e)) in
                Ret (d, S failed))).
  { intros d e. apply always_bind; [apply always_attempt; unset_event | intros _; exact I]. }
  apply always_bind; [apply always_perform; unset_event | intros [u|e]].
  - apply always_try_except; [|intros e; apply Hexcept].
    apply always_bind; [apply always_attempt; unset_event | intros _; exact I].
  - apply Hexcept.
Qed.

(** The settings that a batch shows are those of its converter. *)
Lemma convert_all_shows_settings {W : Type} (h : Handler W) (self : ImageConverter)
    (sched : list Action) (w w' : W) (o : Outcome ImageConverter) (evs : list Event) :
  convert_all h self sched w = Some (o, w', evs) ->
  Forall (fun n => n = max_workers self) (threads (printed evs)) /\
  Forall (fun e => e = effort self) (efforts (printed evs)).
Proof.
  intros Hrun. apply shows_trace.
  apply (convert_all_always h _ self sched w w' o evs); [| | | |exact Hrun].
  - intros self' img.
    apply (always_impl silent); [|apply convert_image_silent].
    intros ev Hev. apply unset_shows, silent_unset, Hev.
  - intros total start_time r vars.
    apply (always_impl unset); [apply unset_shows | apply loop_body_unset].
  - apply prologue_shows.
  - intros self' start_time.
    apply (always_impl unset); [apply unset_shows | apply summary_unset].
Qed.

(** The settings shown in the second part of [main]. *)
Lemma conducted_settings {W : Type} (h : Handler W) (strip lower : string -> string)
    (self : ImageConverter) (sched : list Action) (w : W) (o : Outcome unit)
    (s' : Session W) (back : list Shown) :
  Conducted h strip lower self sched w o s' back ->
  Forall (fun n => n = max_workers self) (threads (printed (library back))) /\
  Forall (fun e => e = effort self) (efforts (printed (library back))).
Proof.
  assert (Hbatch : forall found o2 w2 evs rest,
             convert_all h self sched (h _ (ShutilWhich "cjxl") w).2 = Some (o2, w2, evs) ->
             threads (printed rest) = [] /\ efforts (printed rest) = [] ->
             Forall (fun n => n = max_workers self)
               (threads (printed (Ev (ShutilWhich "cjxl") (Some found) :: evs ++ rest))) /\
             Forall (fun e => e = effort self)
               (efforts (printed (Ev (ShutilWhich "cjxl") (Some found) :: evs ++ rest)))).
  { intros found o2 w2 evs rest Hrun [H1 H2].
    destruct (convert_all_shows_settings h self sched _ w2 o2 evs Hrun) as [Ht He].
    change (Ev (ShutilWhich "cjxl") (Some found) :: evs ++ rest)
      with ([Ev (ShutilWhich "cjxl") (Some found)] ++ evs ++ rest).
    rewrite !printed_app, !threads_app, !efforts_app, H1, H2, !app_nil_r.
    split; assumption. }
  intros Hend.
  inversion Hend as [s0 more Hwhich Hl Ha
                    |found e w2 evs s0 more Hwhich Hrun Hl Ha
                    |found self' w2 evs s0 more Hwhich Hrun Hnone Hl Ha
                    |found self' w2 evs s0 more Hwhich Hrun Hsome Hl Hin
                    |found self' w2 evs line s0 more Hwhich Hrun Hsome Hl Hlast Hyes Hno
                    |found self' w2 evs line s0 more Hwhich Hrun Hsome Hl Hlast Hyes];
    subst; rewrite Hl.
  - split; constructor.
  - rewrite <- (app_nil_r evs). apply (Hbatch _ _ _ _ [] Hrun). split; reflexivity.
  - rewrite <- (app_nil_r evs). apply (Hbatch _ _ _ _ [] Hrun). split; reflexivity.
  - rewrite <- (app_nil_r evs). apply (Hbatch _ _ _ _ [] Hrun). split; reflexivity.
  - rewrite <- (app_nil_r evs). apply (Hbatch _ _ _ _ [] Hrun). split; reflexivity.
  - apply (Hbatch _ _ _ _ _ Hrun). apply unset_trace, always_trace, delete_originals_unset.
Qed.

(** The endings of [main]: it ends in its first part, without a call of the
    converter, or its second part ends as described by [Conducted], on a
    fresh converter for a directory, with the count of threads and the
    effort that the two lines typed give. *)
Lemma main_cases {W : Type} (h : Handler W) (isdir : W -> string -> bool)
    (path_of : string -> Path) (int_of : string -> option Z)
    (strip lower : string -> string) (argv : list string) (sched : list Action)
    (s s' : Session W) (o : Outcome unit) :
  main h isdir path_of int_of strip lower argv sched s = Some (o, s') ->
  exists front back : list Shown,
    shown s' = shown s ++ front ++ back /\
    library front = [] /\ (forall a, (AskDelete, a) ∉ asked front) /\
    Forall (fun q => q.1 = AskDelete) (asked back) /\
    ((back = [] /\ host s' = host s /\
      ((o = Raised (SystemExit 1) /\
        exists target_dir, isdir (host s) target_dir = false /\
                           last front = Some (Own (SaidNoDirectory target_dir))) \/
       (o = Raised end_of_input /\ stdin s' = []) \/
       (o = Raised refused_text /\
        exists target_dir, isdir (host s) target_dir = false /\
                           takes s target_dir = false))) \/
     (exists (target_dir : string) (max_workers effort : Z) (wline eline : string)
             (before : list (Prompt * option string)),
         isdir (host s) target_dir = true /\
         asked front = before ++ [(AskWorkers, Some wline); (AskEffort, Some eline)] /\
         Forall (fun q => q.1 = AskDirectory) before /\
         max_workers = match int_of (PyStr.or_ (strip wline) "8") with
                       | Some max_workers => if max_workers <? 1 then 8 else max_workers
                       | None => 8
                       end /\
         effort = match int_of (PyStr.or_ (strip eline) "7") with
                  | Some effort => Z.min (Z.max effort 1) 9
                  | None => 7
                  end /\
         Conducted h strip lower
           {| root_dir := path_of target_dir; max_workers := max_workers;
              effort := effort; converted_files := []; failed_files := [] |}
           sched (host s) o s' back)).
Proof.
  unfold main, and_then.
  destruct (setup isdir int_of strip argv s) as [[[[[target_dir workers] effort]|e] s1]|]
    eqn:Hsetup; [| |discriminate].
  - destruct (setup_cases isdir int_of strip argv s s1 _ Hsetup)
      as (Hhost & front & Hshown & Hlib & Hasked & Hdir & wline & eline & before
          & Hfront & Hbefore & Hworkers & Heffort).
    intros Hrun.
    destruct (conduct_cases h path_of strip lower target_dir workers effort sched s1 s' o
                Hrun) as (back & Hshown' & Honly & Hend).
    exists front, back. rewrite Hshown', Hshown, <- app_assoc.
    split; [reflexivity|]. split; [exact Hlib|]. split; [exact Hasked|].
    split; [exact Honly|].
    right. exists target_dir, workers, effort, wline, eline, before.
    split; [exact Hdir|]. split; [exact Hfront|]. split; [exact Hbefore|].
    split; [exact Hworkers|]. split; [exact Heffort|].
    rewrite Hhost in Hend.
    replace (Z.min (Z.max effort 1) 9) with effort in Hend; [exact Hend|].
    pose proof (effort_in_range (int_of (PyStr.or_ (strip eline) "7"))) as Hrange.
    rewrite <- Heffort in Hrange. lia.
  - destruct (setup_cases isdir int_of strip argv s s1 _ Hsetup)
      as (Hhost & front & Hshown & Hlib & Hasked & Hcases).
    intros [= <- <-]. exists front, []. rewrite app_nil_r.
    split; [exact Hshown|]. split; [exact Hlib|]. split; [exact Hasked|].
    split; [constructor|].
    left. split; [reflexivity|]. split; [exact Hhost|].
    destruct Hcases as [(-> & Hdir)|[(-> & Hin)|(-> & Hdir)]];
      [left | right; left | right; right]; split; try reflexivity; assumption.
Qed.

(** [delete_originals] does not call [sys.exit]. *)
Lemma delete_originals_never_exits {W : Type} (h : Handler W) (self : ImageConverter)
    (w : W) (e : Exn) :
  (exec h (delete_originals self) w).1 = Raised e ->
  exists (m : Msg) (err : Error),
    e = Exc err /\
    last (trace h (delete_originals self) w) = Some (Ev (PrintText m) (Err err)).
Proof.
  intros Hrun. pose proof (delete_originals_turns h self w) as Hturns.
  cbv zeta in Hturns. destruct Hturns as (_ & _ & _ & Hend).
  rewrite Hrun in Hend. exact Hend.
Qed.

(** X9.  The exit status of the script.  [main] leaves the interpreter by
    [sys.exit] in two situations only, both with status 1: the target is
    not a directory, and then no call of the converter was made and the
    world is as it was; or [shutil.which] has not found [cjxl], and then the
    converter's only effects are that search and the error line.  In both
    nothing was converted, nothing deleted, and the question about the
    originals was not asked. *)
Theorem main_exit_status {W : Type} (h : Handler W) (isdir : W -> string -> bool)
    (path_of : string -> Path) (int_of : string -> option Z)
    (strip lower : string -> string) (argv : list string) (sched : list Action)
    (s s' : Session W) (code : Z) :
  main h isdir path_of int_of strip lower argv sched s
  = Some (Raised (SystemExit code), s') ->
  code = 1 /\
  exists more : list Shown,
    shown s' = shown s ++ more /\
    spawned (library more) = [] /\ unlinked (library more) = [] /\
    (forall a, (AskDelete, a) ∉ asked more) /\
    ((library more = [] /\ host s' = host s /\
      exists target_dir, isdir (host s) target_dir = false /\
                         last (said more) = Some (SaidNoDirectory target_dir)) \/
     ((h _ (ShutilWhich "cjxl") (host s)).1 = None /\
      library more = [Ev (ShutilWhich "cjxl") None; Ev (Print MsgNoCjxl) tt])).
Proof.
  intros Hrun.
  destruct (main_cases h isdir path_of int_of strip lower argv sched s s' _ Hrun)
    as (front & back & Hshown & Hlib & Hasked & Honly & Hcases).
  destruct Hcases as [(-> & Hhost & [([= ->] & target_dir & Hdir & Hlast)
                                    |[(Heof & _)|(Href & _)]])
                     |(target_dir & workers & effort & wline & eline & before & Hdir
                       & _ & _ & _ & _ & Hend)].
  - split; [reflexivity|]. exists front. rewrite app_nil_r in Hshown.
    split; [exact Hshown|]. rewrite Hlib. split; [reflexivity|]. split; [reflexivity|].
    split; [exact Hasked|]. left. split; [reflexivity|]. split; [exact Hhost|].
    exists target_dir. split; [exact Hdir|].
    apply last_Some in Hlast as [l ->]. rewrite said_app. apply last_snoc.
  - discriminate.
  - discriminate.
  - inversion Hend as [s0 more Hwhich Hl Ha| found e w2 evs s0 more Hwhich Hbatch Hl Ha
                      | | |
                      | found self' w2 evs line s0 more Hwhich Hbatch Hsome Hl Hlast Hyes];
      subst.
    + split; [reflexivity|]. exists (front ++ back).
      split; [exact Hshown|]. rewrite library_app, Hlib, Hl, asked_app, Ha, app_nil_r.
      split; [reflexivity|]. split; [reflexivity|]. split; [exact Hasked|].
      right. split; [exact Hwhich | reflexivity].
    + destruct (convert_all_never_exits h _ sched _ w2 _ evs Hbatch) as [err Herr].
      discriminate.
    + match goal with
      | H : (exec h (delete_originals self') w2).1 = Raised _ |- _ =>
          destruct (delete_originals_never_exits h self' w2 _ H) as (m & err & Herr & _)
      end.
      discriminate.
Qed.

Lemma main_exit_status_witness :
  exists s' : Session Posix.World,
    Desk.main Scenario.judge ["convert_to_jxl.py"; "nowhere"] Scenario.interleaved
      (Desk.sitting Scenario.pics ["2"; "7"]) = Some (Raised (SystemExit 1), s') /\
    1 = 1 /\
    exists more : list Shown,
      shown s' = [] ++ more /\
      spawned (library more) = [] /\ unlinked (library more) = [] /\
      (forall a, (AskDelete, a) ∉ asked more) /\
      ((library more = [] /\ host s' = Scenario.at_start Scenario.pics /\
        exists target_dir,
          Desk.isdir (Scenario.at_start Scenario.pics) target_dir = false /\
          last (said more) = Some (SaidNoDirectory target_dir)) \/
       ((Posix.handler (Scenario.machine Scenario.judge) _ (ShutilWhich "cjxl")
           (Scenario.at_start Scenario.pics)).1 = None /\
        library more = [Ev (ShutilWhich "cjxl") None; Ev (Print MsgNoCjxl) tt])).
Proof.
  eexists. split; [vm_compute; reflexivity|].
  exact (main_exit_status (Posix.handler (Scenario.machine Scenario.judge)) Desk.isdir
           Scenario.parse Desk.int_of_text PyStr.strip PyStr.lower
           ["convert_to_jxl.py"; "nowhere"] Scenario.interleaved
           (Desk.sitting Scenario.pics ["2"; "7"]) _ 1 eq_refl).
Defined.

Lemma asked_front (front back : list Shown) :
  forall answer, last (asked back) = Some (AskDelete, answer) ->
    last (asked (front ++ back)) = Some (AskDelete, answer).
Proof.
  intros answer [l Hl]%last_Some. rewrite asked_app, Hl, app_assoc. apply last_snoc.
Qed.

(** X10.  The script deletes only on consent.  In every run of [main],
    whatever the user typed and however the batch went, a call of [unlink]
    is made only if the last answer to the question about the originals,
    stripped and lowercased, is one of [y], [yes] and [是].  After it [main]
    returns normally, unless standard output refused a line of the
    deletion: then [main] ends in the exception of that [print], which is
    the last effect of the run.  An end of the input, an answer that
    declines, a batch that raised: none of them deletes a file. *)
Theorem main_deletes_only_on_consent {W : Type} (h : Handler W)
    (isdir : W -> string -> bool) (path_of : string -> Path)
    (int_of : string -> option Z) (strip lower : string -> string)
    (argv : list string) (sched : list Action) (s s' : Session W) (o : Outcome unit) :
  main h isdir path_of int_of strip lower argv sched s = Some (o, s') ->
  exists more : list Shown,
    shown s' = shown s ++ more /\
    (unlinked (library more) <> [] ->
     (exists line, last (asked more) = Some (AskDelete, Some line) /\
                   affirmative (lower (strip line)) = true) /\
     (o = Returned tt \/
      exists (m : Msg) (err : Error),
        o = Raised (Exc err) /\
        last (library more) = Some (Ev (PrintText m) (Err err)))).
Proof.
  intros Hrun.
  destruct (main_cases h isdir path_of int_of strip lower argv sched s s' _ Hrun)
    as (front & back & Hshown & Hlib & Hasked & Honly & Hcases).
  exists (front ++ back). split; [exact Hshown|].
  rewrite library_app, Hlib. cbn [app].
  destruct Hcases as [(-> & _)
                     |(target_dir & workers & effort & wline & eline & before & _ & _ & _
                       & _ & _ & Hend)].
  { intros Hne. destruct Hne. reflexivity. }
  assert (Hkeeps : forall found o2 w2 evs,
             convert_all h {| root_dir := path_of target_dir; max_workers := workers;
                              effort := effort; converted_files := [];
                              failed_files := [] |} sched
               (h _ (ShutilWhich "cjxl") (host s)).2 = Some (o2, w2, evs) ->
             unlinked (Ev (ShutilWhich "cjxl") (Some found) :: evs) <> [] -> False).
  { intros found o2 w2 evs Hbatch Hne. apply Hne.
    change (Ev (ShutilWhich "cjxl") (Some found) :: evs)
      with ([Ev (ShutilWhich "cjxl") (Some found)] ++ evs).
    rewrite unlinked_app, (convert_all_keeps_files h _ sched _ w2 o2 evs Hbatch).
    reflexivity. }
  inversion Hend as [s0 more Hwhich Hl Ha
                    |found e w2 evs s0 more Hwhich Hbatch Hl Ha
                    |found self' w2 evs s0 more Hwhich Hbatch Hnone Hl Ha
                    |found self' w2 evs s0 more Hwhich Hbatch Hsome Hl Hin
                    |found self' w2 evs line s0 more Hwhich Hbatch Hsome Hl Hlast Hyes Hno
                    |found self' w2 evs line s0 more Hwhich Hbatch Hsome Hl Hlast Hyes Ho];
    subst; rewrite Hl.
  - intros Hne. destruct Hne. reflexivity.
  - intros Hne. destruct (Hkeeps _ _ _ _ Hbatch Hne).
  - intros Hne. destruct (Hkeeps _ _ _ _ Hbatch Hne).
  - intros Hne. destruct (Hkeeps _ _ _ _ Hbatch Hne).
  - intros Hne. destruct (Hkeeps _ _ _ _ Hbatch Hne).
  - intros _. split.
    { exists line. split; [exact (asked_front front back _ Hlast) | exact Hyes]. }
    destruct (exec h (delete_originals self') w2).1 as [[]|e] eqn:Hdel;
      [left; reflexivity | right].
    destruct (delete_originals_never_exits h self' w2 e Hdel) as (m & err & -> & Hlast').
    exists m, err. split; [reflexivity|].
    rewrite app_comm_cons. apply last_app_Some_event. exact Hlast'.
Qed.

Lemma main_deletes_only_on_consent_witness :
  let run := Desk.main Scenario.judge ["convert_to_jxl.py"] Scenario.interleaved
               (Desk.sitting Scenario.pics ["pics"; "2"; ""; "maybe"; " Y "]) in
  exists (o : Outcome unit) (s' : Session Posix.World),
    run = Some (o, s') /\
    unlinked (library (shown s')) = [["pics"; "a.png"]] /\
    exists more : list Shown,
      shown s' = [] ++ more /\
      (unlinked (library more) <> [] ->
       (exists line, last (asked more) = Some (AskDelete, Some line) /\
                     affirmative (PyStr.lower (PyStr.strip line)) = true) /\
       (o = Returned tt \/
        exists (m : Msg) (err : Error),
          o = Raised (Exc err) /\
          last (library more) = Some (Ev (PrintText m) (Err err)))).
Proof.
  intros run.
  destruct run as [[o s']|] eqn:Hrun; [|vm_compute in Hrun; discriminate].
  exists o, s'. split; [reflexivity|]. split.
  { vm_compute in Hrun. injection Hrun as _ <-. reflexivity. }
  exact (main_deletes_only_on_consent (Posix.handler (Scenario.machine Scenario.judge))
           Desk.isdir Scenario.parse Desk.int_of_text PyStr.strip PyStr.lower
           ["convert_to_jxl.py"] Scenario.interleaved
           (Desk.sitting Scenario.pics ["pics"; "2"; ""; "maybe"; " Y "]) s' o Hrun).
Defined.

(** On a UTF-8 terminal, with a directory whose name is not UTF-8: the
    batch converts both images, the user consents, the first original is
    deleted and reported, the second is deleted and its report refused, and
    [main] ends in the exception of the line of the [except] clause. *)
Example main_ends_in_a_deletion :
  let run := Desk.main_on_terminal Scenario.judge_odd ["convert_to_jxl.py"; "pics"]
               (Scenario.one_by_one 0 [4; 4]%nat)
               (Desk.sitting Scenario.odd ["2"; "7"; "y"]) in
  exists s' : Session Posix.World,
    run = Some (Raised (Exc Posix.unencodable), s') /\
    unlinked (library (shown s'))
    = [["pics"; "b.png"]; ["pics"; Scenario.odd_name; "a.png"]] /\
    last (library (shown s'))
    = Some (Ev (PrintText (MsgDeleteFailed ["pics"; Scenario.odd_name; "a.png"]
                             (str_of_error Posix.unencodable)))
              (Err Posix.unencodable)).
Proof.
  intros run.
  destruct run as [[o s']|] eqn:Hrun; [|vm_compute in Hrun; discriminate].
  vm_compute in Hrun. injection Hrun as <- <-. eexists. repeat split.
Qed.

(** X11.  The script ends, on the settings that were typed.  From every
    session, whatever the arguments and the lines on standard input, there
    is a schedule of the worker pool under which [main] runs to an end,
    normal or not.  And in every run, the count of threads that the header
    of the batch shows is at least 1: it is the number typed at the prompt
    of the threads (a blank line standing for 8) when that is 1 or more,
    and 8 when it is less or when the line is no number; the effort shown
    is from 1 to 9: the number typed at its prompt (a blank line standing
    for 7) brought into that range, and 7 when the line is no number; and
    once the question about the originals was asked, either the input has
    ended at it, or the last answer to it is one that consents or one that
    declines. *)
Theorem main_has_a_run {W : Type} (h : Handler W) (isdir : W -> string -> bool)
    (path_of : string -> Path) (int_of : string -> option Z)
    (strip lower : string -> string) (argv : list string) (s : Session W) :
  (exists (sched : list Action) (o : Outcome unit) (s' : Session W),
      main h isdir path_of int_of strip lower argv sched s = Some (o, s')) /\
  (forall (sched : list Action) (o : Outcome unit) (s' : Session W),
      main h isdir path_of int_of strip lower argv sched s = Some (o, s') ->
      exists more : list Shown,
        shown s' = shown s ++ more /\
        (forall n : Z, n ∈ threads (printed (library more)) ->
           1 <= n /\
           exists line : string,
             (forall a, (AskWorkers, a) ∈ asked more <-> a = Some line) /\
             (forall typed, int_of (PyStr.or_ (strip line) "8") = Some typed ->
                            (1 <= typed -> n = typed) /\ (typed < 1 -> n = 8)) /\
             (int_of (PyStr.or_ (strip line) "8") = None -> n = 8)) /\
        (forall e : Z, e ∈ efforts (printed (library more)) ->
           1 <= e <= 9 /\
           exists line : string,
             (forall a, (AskEffort, a) ∈ asked more <-> a = Some line) /\
             (forall typed, int_of (PyStr.or_ (strip line) "7") = Some typed ->
                            e = Z.min (Z.max typed 1) 9) /\
             (int_of (PyStr.or_ (strip line) "7") = None -> e = 7)) /\
        (forall a, (AskDelete, a) ∈ asked more ->
           (o = Raised end_of_input /\ stdin s' = []) \/
           exists line : string,
             last (asked more) = Some (AskDelete, Some line) /\
             (affirmative (lower (strip line)) = true \/
              negative (lower (strip line)) = true))).
Proof.
  split.
  - unfold main, and_then.
    destruct (setup_runs isdir int_of strip argv s) as [[o1 s1] Hsetup]. rewrite Hsetup.
    destruct o1 as [[[target_dir workers] effort]|e];
      [|exists [], (Raised e), s1; reflexivity].
    destruct (setup_cases isdir int_of strip argv s s1 _ Hsetup)
      as (_ & _ & _ & _ & _ & _ & wline & _ & _ & _ & _ & Hworkers & _).
    pose proof (workers_in_range (int_of (PyStr.or_ (strip wline) "8"))) as Hrange.
    rewrite <- Hworkers in Hrange.
    unfold conduct, and_then, call at 1. cbn [host stdin shown takes].
    destruct (init_cases h (path_of target_dir) workers effort (host s1))
      as [(found & _ & Hexec & _)|(_ & Hexec & _)]; cbv zeta in *.
    2: { rewrite Hexec. exists []. eexists _, _. reflexivity. }
    rewrite Hexec. cbn [fst snd]. unfold call_convert_all. cbn [host stdin shown takes].
    set (self := {| root_dir := path_of target_dir; max_workers := workers;
                    effort := Z.min (Z.max effort 1) 9;
                    converted_files := []; failed_files := [] |}).
    destruct (convert_all_has_a_run h self (h _ (ShutilWhich "cjxl") (host s1)).2)
      as (sched & [[o2 w2] evs] & Hbatch); [cbn; lia|].
    exists sched. rewrite Hbatch.
    destruct o2 as [self'|e]; [|eexists _, _; reflexivity].
    destruct (converted_files self') as [|f files]; [eexists _, _; reflexivity|].
    cbn [host stdin shown takes].
    match goal with
    | |- exists o s', ask_delete _ _ _ _ ?lines ?s2 = _ =>
        destruct (ask_delete_runs h strip lower self' lines s2) as [[o3 s3] Hask]
    end.
    exists o3, s3. exact Hask.
  - intros sched o s' Hrun.
    destruct (main_cases h isdir path_of int_of strip lower argv sched s s' _ Hrun)
      as (front & back & Hshown & Hlib & Hasked & Honly & Hcases).
    exists (front ++ back). split; [exact Hshown|].
    rewrite library_app, Hlib. cbn [app].
    destruct Hcases as [(-> & _)
                       |(target_dir & workers & level & wline & eline & before & _
                         & Hfront & Hbefore & Hworkers & Heffort & Hend)].
    { split; [|split]; [intros n Hin; inversion Hin | intros n Hin; inversion Hin |].
      intros a Hin. rewrite app_nil_r in Hin. destruct (Hasked _ Hin). }
    destruct (conducted_settings h strip lower _ sched _ o s' back Hend) as [Ht He].
    cbn [max_workers effort] in Ht, He.
    assert (Hdialogue : forall a, (AskDelete, a) ∈ asked (front ++ back) ->
               (o = Raised end_of_input /\ stdin s' = []) \/
               exists line : string,
                 last (asked (front ++ back)) = Some (AskDelete, Some line) /\
                 (affirmative (lower (strip line)) = true \/
                  negative (lower (strip line)) = true)).
    { intros a. rewrite asked_app.
      intros [Hin|Hin]%elem_of_app; [destruct (Hasked _ Hin)|].
      rewrite <- asked_app.
      inversion Hend as [s0 more Hwhich Hl Ha
                        |found e w2 evs s0 more Hwhich Hbatch Hl Ha
                        |found self' w2 evs s0 more Hwhich Hbatch Hnone Hl Ha
                        |found self' w2 evs s0 more Hwhich Hbatch Hsome Hl Hended
                        |found self' w2 evs line s0 more Hwhich Hbatch Hsome Hl Hlast
                           Hyes Hno
                        |found self' w2 evs line s0 more Hwhich Hbatch Hsome Hl Hlast
                           Hyes Ho];
        subst; try (rewrite Ha in Hin; inversion Hin).
      - left. split; [reflexivity | exact Hended].
      - right. exists line. split; [exact (asked_front front back _ Hlast)|].
        right. exact Hno.
      - right. exists line. split; [exact (asked_front front back _ Hlast)|].
        left. exact Hyes. }
    assert (Hone : forall (prompt : Prompt) (line : string),
               (prompt, Some line) ∈ [(AskWorkers, Some wline); (AskEffort, Some eline)] ->
               prompt <> AskDelete -> prompt <> AskDirectory ->
               (forall a, (prompt, a) ∈ asked (front ++ back) ->
                          (prompt, a)
                            ∈ [(AskWorkers, Some wline); (AskEffort, Some eline)]) /\
               (prompt, Some line) ∈ asked (front ++ back)).
    { intros prompt line Hin Hd Hdir. rewrite asked_app, Hfront. split.
      - intros a [[Hb|Hm]%elem_of_app|Hb]%elem_of_app; [|exact Hm|].
        + rewrite Forall_forall in Hbefore. destruct (Hdir (Hbefore _ Hb)).
        + rewrite Forall_forall in Honly. destruct (Hd (Honly _ Hb)).
      - apply elem_of_app. left. apply elem_of_app. right. exact Hin. }
    split; [|split; [|exact Hdialogue]].
    + intros n Hn. rewrite Forall_forall in Ht. specialize (Ht n Hn). subst n.
      pose proof (workers_in_range (int_of (PyStr.or_ (strip wline) "8"))) as Hrange.
      rewrite <- Hworkers in Hrange. split; [exact Hrange|].
      exists wline.
      destruct (Hone AskWorkers wline) as [Hall Hin];
        [apply elem_of_cons; left; reflexivity | discriminate | discriminate |].
      split; [|split].
      * intros a. split; [|intros ->; exact Hin].
        intros Ha. specialize (Hall a Ha).
        apply elem_of_cons in Hall as [[= ->]|Hall]; [reflexivity|].
        apply elem_of_cons in Hall as [[=]|Hall]. inversion Hall.
      * intros typed Htyped. rewrite Htyped in Hworkers.
        destruct (Z.ltb_spec typed 1); lia.
      * intros Hnone. rewrite Hnone in Hworkers. exact Hworkers.
    + intros e Hin'. rewrite Forall_forall in He. specialize (He e Hin'). subst e.
      pose proof (effort_in_range (int_of (PyStr.or_ (strip eline) "7"))) as Hrange.
      rewrite <- Heffort in Hrange. split; [exact Hrange|].
      exists eline.
      destruct (Hone AskEffort eline) as [Hall Hin];
        [apply elem_of_cons; right; apply elem_of_cons; left; reflexivity
        | discriminate | discriminate |].
      split; [|split].
      * intros a. split; [|intros ->; exact Hin].
        intros Ha. specialize (Hall a Ha).
        apply elem_of_cons in Hall as [[=]|Hall].
        apply elem_of_cons in Hall as [[= ->]|Hall]; [reflexivity|]. inversion Hall.
      * intros typed Htyped. rewrite Htyped in Heffort. exact Heffort.
      * intros Hnone. rewrite Hnone in Heffort. exact Heffort.
Qed.

Lemma main_has_a_run_witness :
  let run := Desk.main Scenario.judge ["convert_to_jxl.py"; "pics"] Scenario.interleaved
               (Desk.sitting Scenario.pics ["0"; "99"]) in
  exists (o : Outcome unit) (s' : Session Posix.World),
    run = Some (o, s') /\
    threads (printed (library (shown s'))) = [8] /\
    efforts (printed (library (shown s'))) = [9] /\
    (forall a, (AskWorkers, a) ∈ asked (shown s') <-> a = Some "0") /\
    (forall a, (AskEffort, a) ∈ asked (shown s') <-> a = Some "99").
Proof.
  intros run.
  destruct run as [[o s']|] eqn:Hrun; [|vm_compute in Hrun; discriminate].
  exists o, s'. split; [reflexivity|].
  destruct (main_has_a_run (Posix.handler (Scenario.machine Scenario.judge))
              Desk.isdir Scenario.parse Desk.int_of_text PyStr.strip PyStr.lower
              ["convert_to_jxl.py"; "pics"]
              (Desk.sitting Scenario.pics ["0"; "99"])) as [_ Hall].
  destruct (Hall Scenario.interleaved o s' Hrun)
    as (more & Hshown & Hthreads & Hefforts & _).
  cbn [Desk.sitting shown app] in Hshown. rewrite Hshown.
  assert (Ht : threads (printed (library more)) = [8]).
  { rewrite <- Hshown. vm_compute in Hrun. injection Hrun as _ <-. reflexivity. }
  assert (He : efforts (printed (library more)) = [9]).
  { rewrite <- Hshown. vm_compute in Hrun. injection Hrun as _ <-. reflexivity. }
  split; [exact Ht|]. split; [exact He|].
  destruct (Hthreads 8) as (_ & wline & Hw & Hsome & _);
    [rewrite Ht; apply elem_of_cons; left; reflexivity|].
  destruct (Hefforts 9) as (_ & eline & He' & _);
    [rewrite He; apply elem_of_cons; left; reflexivity|].
  assert (Hwl : wline = "0").
  { assert (Hin : (AskWorkers, Some "0") ∈ asked more).
    { rewrite <- Hshown. vm_compute in Hrun. injection Hrun as _ <-.
      apply elem_of_cons. left. reflexivity. }
    apply Hw in Hin. injection Hin as <-. reflexivity. }
  assert (Hel : eline = "99").
  { assert (Hin : (AskEffort, Some "99") ∈ asked more).
    { rewrite <- Hshown. vm_compute in Hrun. injection Hrun as _ <-.
      apply elem_of_cons. right. apply elem_of_cons. left. reflexivity. }
    apply He' in Hin. injection Hin as <-. reflexivity. }
  subst wline eline. split; assumption.
Defined.

(** X12.  The script stops early for a reason.  When [main] ends in an
    exception, it is the exit with status 1, or the end of the input at a
    prompt, or the run holds a call of the library that raised (a [print]
    of a line that standard output refused among them), or it is the
    exception of [main]'s own [print] of the name of what is no directory,
    which the terminal refused before any call of the converter: the text
    the user typed for the numbers, a worker count below one and the
    divisions of the report never stop it by themselves. *)
Theorem main_stops_for_a_reason {W : Type} (h : Handler W) (isdir : W -> string -> bool)
    (path_of : string -> Path) (int_of : string -> option Z)
    (strip lower : string -> string) (argv : list string) (sched : list Action)
    (s s' : Session W) (e : Exn) :
  main h isdir path_of int_of strip lower argv sched s = Some (Raised e, s') ->
  exists more : list Shown,
    shown s' = shown s ++ more /\
    (e = SystemExit 1 \/
     (e = end_of_input /\ stdin s' = []) \/
     (exists ev, ev ∈ library more /\ raising ev) \/
     (e = refused_text /\ library more = [] /\
      exists target_dir, isdir (host s) target_dir = false /\
                         takes s target_dir = false)).
Proof.
  intros Hrun.
  destruct (main_cases h isdir path_of int_of strip lower argv sched s s' _ Hrun)
    as (front & back & Hshown & Hlib & Hasked & Honly & Hcases).
  exists (front ++ back). split; [exact Hshown|].
  destruct Hcases as [(-> & _ & [([= ->] & _)|[([= ->] & Hin)|([= ->] & Hdir)]])
                     |(target_dir & workers & effort & wline & eline & before & _ & _ & _
                       & Hworkers & _ & Hend)].
  - left. reflexivity.
  - right. left. split; [reflexivity | exact Hin].
  - right. right. right. split; [reflexivity|].
    split; [rewrite app_nil_r; exact Hlib | exact Hdir].
  - inversion Hend as [s0 more Hwhich Hl Ha
                      |found e0 w2 evs s0 more Hwhich Hbatch Hl Ha
                      | |found self' w2 evs s0 more Hwhich Hbatch Hsome Hl Hin|
                      |found self' w2 evs line s0 more Hwhich Hbatch Hsome Hl Hlast Hyes Ho];
      subst.
    + left. reflexivity.
    + right. right. left.
      assert (Hpos : 0 < match int_of (PyStr.or_ (strip wline) "8") with
                         | Some max_workers => if max_workers <? 1 then 8 else max_workers
                         | None => 8
                         end).
      { pose proof (workers_in_range (int_of (PyStr.or_ (strip wline) "8"))). lia. }
      destruct (convert_all_raises h _ sched _ w2 e evs (eq_refl : converted_files
                    {| root_dir := path_of target_dir;
                       max_workers := match int_of (PyStr.or_ (strip wline) "8") with
                                      | Some max_workers =>
                                          if max_workers <? 1 then 8 else max_workers
                                      | None => 8
                                      end;
                       effort := effort; converted_files := [];
                       failed_files := [] |} = []) Hpos Hbatch)
        as (ev & Hev & Hraising).
      exists ev. split; [|exact Hraising].
      rewrite library_app, Hlib, Hl. cbn [app]. apply elem_of_cons. right. exact Hev.
    + right. left. split; [reflexivity | exact Hin].
    + right. right. left.
      match goal with
      | H : (exec h (delete_originals self') w2).1 = Raised _ |- _ =>
          destruct (delete_originals_never_exits h self' w2 _ H)
            as (m & err & Herr & Hlast')
      end.
      exists (Ev (PrintText m) (Err err)). split; [|exists err; reflexivity].
      rewrite library_app, Hlib, Hl. cbn [app]. apply elem_of_cons. right.
      apply elem_of_app. right. apply last_Some in Hlast' as [l ->].
      apply elem_of_app. right. apply elem_of_cons. left. reflexivity.
Qed.

Lemma main_stops_for_a_reason_witness :
  let run := Desk.main Scenario.judge ["convert_to_jxl.py"; "pics"] Scenario.interleaved
               (Desk.sitting Scenario.pics ["0"; "99"]) in
  exists (e : Exn) (s' : Session Posix.World),
    run = Some (Raised e, s') /\
    exists more : list Shown,
      shown s' = [] ++ more /\
      (e = SystemExit 1 \/
       (e = end_of_input /\ stdin s' = []) \/
       (exists ev, ev ∈ library more /\ raising ev) \/
       (e = refused_text /\ library more = [] /\
        exists target_dir,
          Desk.isdir (Scenario.at_start Scenario.pics) target_dir = false /\
          Scenario.encodable target_dir = false)).
Proof.
  intros run.
  destruct run as [[[u|e] s']|] eqn:Hrun; try (vm_compute in Hrun; discriminate).
  exists e, s'. split; [reflexivity|].
  exact (main_stops_for_a_reason (Posix.handler (Scenario.machine Scenario.judge))
           Desk.isdir Scenario.parse Desk.int_of_text PyStr.strip PyStr.lower
           ["convert_to_jxl.py"; "pics"] Scenario.interleaved
           (Desk.sitting Scenario.pics ["0"; "99"]) s' e Hrun).
Defined.

(** The name given is no directory and no UTF-8 text: [main] ends in the
    exception of its own [print], without the exit status 1, having
    called nothing. *)
Example main_ends_before_the_exit :
  exists s' : Session Posix.World,
    Desk.main Scenario.judge ["convert_to_jxl.py"; Scenario.odd_name] []
      (Desk.sitting Scenario.pics ["2"; "7"]) = Some (Raised refused_text, s') /\
    library (shown s') = [] /\
    said (shown s') = [SaidRule; SaidTitle; SaidSubtitle; SaidRule].
Proof. eexists. repeat split. Qed.

(** The statistics show the number of successes. *)
Lemma summary_announces {W : Type} (h : Handler W) (self : ImageConverter)
    (start_time : Q) (w : W) :
  MsgSuccessCount (length (converted_files self))
    ∈ printed (trace h (summary self start_time) w).
Proof.
  unfold summary. cbn [bind perform print trace].
  unfold printed. cbn [flat_map printed_of app].
  do 2 (apply elem_of_cons; right). apply elem_of_cons. left. reflexivity.
Qed.

Lemma convert_all_announces {W : Type} (h : Handler W) (self : ImageConverter)
    (sched : list Action) (w w' : W) (self' : ImageConverter) (evs : list Event) :
  converted_files self = [] ->
  convert_all h self sched w = Some (Returned self', w', evs) ->
  converted_files self' <> [] ->
  MsgSuccessCount (length (converted_files self')) ∈ printed evs.
Proof.
  intros Hfresh. unfold convert_all.
  destruct (exec h (prologue self) w) as [[[[found start]|]|e0] w1]; [| |discriminate].
  - destruct (max_workers self <=? 0); [discriminate|].
    destruct (run h (length found) start sched _) as [|b|e1 b]; try discriminate.
    destruct (all_collected b); [|discriminate].
    pose proof (summary_announces h (this b) start (world b)) as Hin.
    remember (trace h (summary (this b) start) (world b)) as fin eqn:Hfin.
    destruct (exec h (summary (this b) start) (world b)) as [[u|e1] w2];
      [|discriminate].
    intros [= <- <- <-] _. rewrite printed_app. apply elem_of_app. right. exact Hin.
  - intros [= <- <- <-] Hne. destruct (Hne Hfresh).
Qed.

(** X13.  The question about the originals follows a success.  In every
    run of [main], the prompt of the deletion is shown only after a batch
    whose statistics reported at least one success; without such a report
    the question is not asked. *)
Theorem main_asks_after_success {W : Type} (h : Handler W) (isdir : W -> string -> bool)
    (path_of : string -> Path) (int_of : string -> option Z)
    (strip lower : string -> string) (argv : list string) (sched : list Action)
    (s s' : Session W) (o : Outcome unit) :
  main h isdir path_of int_of strip lower argv sched s = Some (o, s') ->
  exists more : list Shown,
    shown s' = shown s ++ more /\
    forall answer, (AskDelete, answer) ∈ asked more ->
      exists n : nat, (0 < n)%nat /\ MsgSuccessCount n ∈ printed (library more).
Proof.
  intros Hrun.
  destruct (main_cases h isdir path_of int_of strip lower argv sched s s' _ Hrun)
    as (front & back & Hshown & Hlib & Hasked & Honly & Hcases).
  exists (front ++ back). split; [exact Hshown|].
  intros answer. rewrite asked_app, library_app, Hlib. cbn [app].
  intros [Hin|Hin]%elem_of_app; [destruct (Hasked _ Hin)|].
  destruct Hcases as [(-> & _)
                     |(target_dir & workers & effort & wline & eline & before & _ & _ & _
                       & _ & _ & Hend)].
  { inversion Hin. }
  assert (Hsuccess : forall found self' w2 evs,
             convert_all h {| root_dir := path_of target_dir; max_workers := workers;
                              effort := effort; converted_files := [];
                              failed_files := [] |} sched
               (h _ (ShutilWhich "cjxl") (host s)).2 = Some (Returned self', w2, evs) ->
             converted_files self' <> [] ->
             forall rest : list Event,
             exists n : nat, (0 < n)%nat /\
               MsgSuccessCount n
                 ∈ printed (Ev (ShutilWhich "cjxl") (Some found) :: evs ++ rest)).
  { intros found self' w2 evs Hbatch Hne rest.
    exists (length (converted_files self')). split.
    - destruct (converted_files self'); [destruct Hne; reflexivity | cbn; lia].
    - change (Ev (ShutilWhich "cjxl") (Some found) :: evs ++ rest)
        with ([Ev (ShutilWhich "cjxl") (Some found)] ++ evs ++ rest).
      rewrite !printed_app. apply elem_of_app. right. apply elem_of_app. left.
      apply (convert_all_announces h _ sched _ w2 self' evs) with (2 := Hbatch);
        [reflexivity | exact Hne]. }
  inversion Hend as [s0 more Hwhich Hl Ha
                    |found e w2 evs s0 more Hwhich Hbatch Hl Ha
                    |found self' w2 evs s0 more Hwhich Hbatch Hnone Hl Ha
                    |found self' w2 evs s0 more Hwhich Hbatch Hsome Hl Hended
                    |found self' w2 evs line s0 more Hwhich Hbatch Hsome Hl Hlast Hyes Hno
                    |found self' w2 evs line s0 more Hwhich Hbatch Hsome Hl Hlast Hyes Ho];
    subst; try (rewrite Ha in Hin; inversion Hin); rewrite Hl.
  - rewrite <- (app_nil_r evs). exact (Hsuccess _ _ _ _ Hbatch Hsome []).
  - rewrite <- (app_nil_r evs). exact (Hsuccess _ _ _ _ Hbatch Hsome []).
  - exact (Hsuccess _ _ _ _ Hbatch Hsome _).
Qed.

Lemma main_asks_after_success_witness :
  let run := Desk.main Scenario.judge ["convert_to_jxl.py"; "pics"] Scenario.interleaved
               (Desk.sitting Scenario.pics ["4"; "5"; "no"]) in
  exists (o : Outcome unit) (s' : Session Posix.World),
    run = Some (o, s') /\
    (AskDelete, Some "no") ∈ asked (shown s') /\
    exists more : list Shown,
      shown s' = [] ++ more /\
      forall answer, (AskDelete, answer) ∈ asked more ->
        exists n : nat, (0 < n)%nat /\ MsgSuccessCount n ∈ printed (library more).
Proof.
  intros run.
  destruct run as [[o s']|] eqn:Hrun; [|vm_compute in Hrun; discriminate].
  exists o, s'. split; [reflexivity|]. split.
  { vm_compute in Hrun. injection Hrun as _ <-. cbn.
    do 2 (apply elem_of_cons; right). apply elem_of_cons. left. reflexivity. }
  exact (main_asks_after_success (Posix.handler (Scenario.machine Scenario.judge))
           Desk.isdir Scenario.parse Desk.int_of_text PyStr.strip PyStr.lower
           ["convert_to_jxl.py"; "pics"] Scenario.interleaved
           (Desk.sitting Scenario.pics ["4"; "5"; "no"]) s' o Hrun).
Defined.
